(** * Lead-performance ledger: a shallow embedding of the React application

    The development follows the three source files:
    - [types.ts]: the records [DailyEntry] and [BrokerProfile];
    - [App.tsx]: the store of broker profiles and its handlers (module [App]);
    - [components/BrokerDashboard.tsx]: the balance projection, the monthly
      summary and the bulk edit (module [BrokerDashboard]), and the second
      component it contains, [BrokerManagement], with the ranking and the
      backup import (module [BrokerManagement]).

    JavaScript numbers are modelled as [Z]: every counter is entered through
    [parseInt] and only added and subtracted, which is exact on doubles below
    2^53.  Strings are [String.string]; the dates of the application are the
    ASCII strings [YYYY-MM-DD] produced by date inputs and by [toISOString].

    Two primitives are implementation-defined or rest on tables that are not
    written out here, and are parameters of the code that calls them: the
    Unicode lower-casing of a string ([Js.LowerCase]) and the offset of the
    local time zone at an instant ([Js.TimeZone]). *)

From Stdlib Require Import ZArith Lia String Ascii Permutation Sorted.
From stdpp Require Import base list strings sorting.

Local Open Scope string_scope.
Local Open Scope list_scope.
Local Open Scope Z_scope.

(** ** JavaScript primitives used by the sources *)

Module Js.

(** *** Strings *)

(** [a < b] on strings: lexicographic comparison of code units. *)
Definition str_lt (a b : string) : bool := String.ltb a b.

(** [s.startsWith(p)]. *)
Definition startsWith (s p : string) : bool := String.prefix p s.

(** Lower-casing of a character of ASCII: the letters [A]..[Z] are mapped,
    the other characters are kept. *)
Definition lowerChar (c : ascii) : ascii :=
  let n := N_of_ascii c in
  if ((65 <=? n) && (n <=? 90))%N then ascii_of_N (n + 32) else c.

(** Lower-casing of a string of ASCII characters. *)
Fixpoint asciiLowerCase (s : string) : string :=
  match s with
  | EmptyString => EmptyString
  | String c s' => String (lowerChar c) (asciiLowerCase s')
  end.

Definition isAscii (s : string) : bool :=
  forallb (λ c, (N_of_ascii c <? 128)%N) (list_ascii_of_string s).

(** [s.toLowerCase()].  The method follows the case mappings of the Unicode
    Character Database, for every letter of every script.  The code that
    compares names takes it as a parameter, of which only the values on
    strings of ASCII characters are fixed; what is proved of that code holds
    of every such function, the method of an engine among them. *)
Class LowerCase : Type := {
  toLowerCase : string → string;
  toLowerCase_ascii : ∀ s, isAscii s = true → toLowerCase s = asciiLowerCase s
}.

(** *** [Array.prototype.sort] with a comparator

    ECMAScript requires the sort to be stable; for a consistent comparator
    the result is the stable sorted permutation, which insertion from the
    right computes.  A comparator result [v <= 0] keeps [x] before [y]. *)
Section Sort.
Context {A : Type} (cmp : A → A → Z).

Fixpoint sort_insert (x : A) (l : list A) : list A :=
  match l with
  | [] => [x]
  | y :: l' => if cmp x y <=? 0 then x :: l else y :: sort_insert x l'
  end.

Definition Array_sort (l : list A) : list A := foldr sort_insert [] l.
End Sort.

(** *** Dates (ECMAScript time values, milliseconds since the epoch) *)

Definition msPerDay : Z := 86400000.

(** [Day(t)] and [TimeWithinDay(t)]. *)
Definition Day (t : Z) : Z := t / msPerDay.
Definition TimeWithinDay (t : Z) : Z := t mod msPerDay.

(** [DayFromYear(y)], the day number of 1 January of year [y]. *)
Definition DayFromYear (y : Z) : Z :=
  365 * (y - 1970) + (y - 1969) / 4 - (y - 1901) / 100 + (y - 1601) / 400.

Definition InLeapYear (y : Z) : bool :=
  (y mod 4 =? 0) && (negb (y mod 100 =? 0) || (y mod 400 =? 0)).

Definition leapDays (y : Z) : Z := if InLeapYear y then 1 else 0.

(** Day within the year of the first day of month [m] (1 = January);
    [firstDayOfMonth y 13] is the length of the year. *)
Definition firstDayOfMonth (y m : Z) : Z :=
  if m <=? 1 then 0
  else if m =? 2 then 31
  else leapDays y +
       (if m =? 3 then 59 else if m =? 4 then 90 else if m =? 5 then 120
        else if m =? 6 then 151 else if m =? 7 then 181
        else if m =? 8 then 212 else if m =? 9 then 243
        else if m =? 10 then 273 else if m =? 11 then 304
        else if m =? 12 then 334 else 365).

Definition DaysInMonth (y m : Z) : Z :=
  firstDayOfMonth y (m + 1) - firstDayOfMonth y m.

(** [MakeDay(year, month, date)] for a month in 1..12 (the sources never
    pass a month outside this range). *)
Definition MakeDay (y m d : Z) : Z := DayFromYear y + firstDayOfMonth y m + d - 1.

(** [YearFromTime]: the year [y] with [DayFromYear y <= day < DayFromYear (y+1)],
    found from the mean length of a Gregorian year and one correction. *)
Definition YearFromDay (day : Z) : Z :=
  let y0 := 1970 + (day * 400) / 146097 in
  if day <? DayFromYear y0 then y0 - 1
  else if DayFromYear (y0 + 1) <=? day then y0 + 1
  else y0.

Definition DayWithinYear (day : Z) : Z := day - DayFromYear (YearFromDay day).

(** [MonthFromTime], as 1..12. *)
Definition MonthFromDay (day : Z) : Z :=
  let y := YearFromDay day in
  let k := DayWithinYear day in
  if k <? firstDayOfMonth y 2 then 1
  else if k <? firstDayOfMonth y 3 then 2
  else if k <? firstDayOfMonth y 4 then 3
  else if k <? firstDayOfMonth y 5 then 4
  else if k <? firstDayOfMonth y 6 then 5
  else if k <? firstDayOfMonth y 7 then 6
  else if k <? firstDayOfMonth y 8 then 7
  else if k <? firstDayOfMonth y 9 then 8
  else if k <? firstDayOfMonth y 10 then 9
  else if k <? firstDayOfMonth y 11 then 10
  else if k <? firstDayOfMonth y 12 then 11
  else 12.

(** [DateFromTime], the day of the month. *)
Definition DateFromDay (day : Z) : Z :=
  DayWithinYear day - firstDayOfMonth (YearFromDay day) (MonthFromDay day) + 1.

(** Decimal digits. *)
Definition digitValue (c : ascii) : option Z :=
  let n := Z.of_N (N_of_ascii c) in
  if (48 <=? n) && (n <=? 57) then Some (n - 48) else None.

Definition digitChar (d : Z) : ascii := ascii_of_N (Z.to_N (48 + d mod 10)).

Definition pad2 (n : Z) (rest : string) : string :=
  String (digitChar (n / 10)) (String (digitChar n) rest).

Definition pad4 (n : Z) (rest : string) : string :=
  String (digitChar (n / 1000)) (String (digitChar (n / 100)) (pad2 n rest)).

(** The year of an ISO string: four digits in 0..9999, otherwise the
    expanded form with a sign and six digits. *)
Definition isoYear (y : Z) (rest : string) : string :=
  if (0 <=? y) && (y <=? 9999) then pad4 y rest
  else String (if y <? 0 then "-"%char else "+"%char)
         (pad2 (Z.abs y / 10000) (pad4 (Z.abs y) rest)).

(** The [YYYY-MM-DD] part of an ISO string. *)
Definition isoDate (y m d : Z) : string :=
  isoYear y (String "-" (pad2 m (String "-" (pad2 d "")))).

(** The [YYYY-MM] part, [date.toISOString().slice(0, 7)]. *)
Definition isoMonth (y m : Z) : string := isoYear y (String "-" (pad2 m "")).

(** [date.toISOString().split('T')[0]] for a valid time value. *)
Definition toISODate (t : Z) : string :=
  let day := Day t in
  isoDate (YearFromDay day) (MonthFromDay day) (DateFromDay day).

(** The fields of a string [YYYY-MM-DD] or [YYYY-MM]. *)
Definition parseYM (s : string) : option (Z * Z) :=
  match list_ascii_of_string s with
  | [y3; y2; y1; y0; h; m1; m0] =>
      a ← digitValue y3; b ← digitValue y2; c ← digitValue y1;
      d ← digitValue y0; e ← digitValue m1; f ← digitValue m0;
      if Ascii.eqb h "-" then Some (1000 * a + 100 * b + 10 * c + d, 10 * e + f)
      else None
  | _ => None
  end.

Definition parseYMD (s : string) : option (Z * Z * Z) :=
  match list_ascii_of_string s with
  | [y3; y2; y1; y0; h; m1; m0; h'; d1; d0] =>
      a ← digitValue y3; b ← digitValue y2; c ← digitValue y1;
      d ← digitValue y0; e ← digitValue m1; f ← digitValue m0;
      g ← digitValue d1; i ← digitValue d0;
      if Ascii.eqb h "-" && Ascii.eqb h' "-"
      then Some (1000 * a + 100 * b + 10 * c + d, 10 * e + f, 10 * g + i)
      else None
  | _ => None
  end.

(** A calendar date: month in 1..12, day within the month. *)
Definition validYMD (ymd : Z * Z * Z) : bool :=
  let '(y, m, d) := ymd in
  (1 <=? m) && (m <=? 12) && (1 <=? d) && (d <=? DaysInMonth y m).

(** The day number of the date-only form [YYYY-MM-DD]; [None] when the
    string is not a calendar date in this form (engines then fall back to
    implementation-defined parsing, usually Invalid Date). *)
Definition dayOfDate (s : string) : option Z :=
  match parseYMD s with
  | Some (y, m, d) => if validYMD (y, m, d) then Some (MakeDay y m d) else None
  | None => None
  end.

(** [new Date(s).getTime()] for the date-only form, which is read as UTC
    midnight; [None] is [NaN]. *)
Definition Date_getTime (s : string) : option Z :=
  (λ day, day * msPerDay) <$> dayOfDate s.

(** The local time zone.  [LocalTZA(t, isUTC)] of ECMAScript is
    implementation-defined: the offset of local time from UTC, in
    milliseconds, at the instant [t] when [isUTC] holds and at the local time
    [t] otherwise.  The offset changes with the instant where clocks change;
    a local time that a change of the clock skips or repeats is read with
    the offset before the change. *)
Record TimeZone : Type := {
  LocalTZA : Z → bool → Z
}.

(** [LocalTime(t)] and [UTC(t)] of ECMAScript. *)
Definition LocalTime (tz : TimeZone) (t : Z) : Z := t + LocalTZA tz t true.

Definition UTC (tz : TimeZone) (t : Z) : Z := t - LocalTZA tz t false.

(** [new Date(s + 'T00:00:00').getTime()]: the date-time form without an
    offset is a local time. *)
Definition Date_getTime_local (tz : TimeZone) (s : string) : option Z :=
  (λ day, UTC tz (day * msPerDay)) <$> dayOfDate s.

(** [d.getDate()] and [d.setDate(dt)]: the fields are read in local time,
    the new day is made from them with the time within the day kept, and the
    result is taken back to UTC. *)
Definition getDate (tz : TimeZone) (t : Z) : Z := DateFromDay (Day (LocalTime tz t)).

Definition setDate (tz : TimeZone) (t dt : Z) : Z :=
  let lt := LocalTime tz t in
  let day := Day lt in
  UTC tz (MakeDay (YearFromDay day) (MonthFromDay day) dt * msPerDay + TimeWithinDay lt).

End Js.

(** *** Values produced by [JSON.parse] *)

Module Json.

#[local] Set Warnings "-register-all".

Inductive JsValue : Type :=
| JsNull
| JsBool (b : bool)
| JsNumber (n : Z)
| JsString (s : string)
| JsArray (items : list JsValue)
| JsObject (props : list (string * JsValue)).

(** The result of an expression that may throw. *)
Inductive Completion (A : Type) : Type :=
| Normal (a : A)
| Throw.
Arguments Normal {A} a.
Arguments Throw {A}.

Definition bind {A B} (c : Completion A) (k : A → Completion B) : Completion B :=
  match c with
  | Normal a => k a
  | Throw => Throw
  end.

Definition Array_isArray (v : JsValue) : bool :=
  match v with
  | JsArray _ => true
  | _ => false
  end.

Fixpoint lookupProp (key : string) (props : list (string * JsValue)) : option JsValue :=
  match props with
  | [] => None
  | (k, v) :: rest => if String.eqb k key then Some v else lookupProp key rest
  end.

(** [v.key] for an own data property: [Normal None] is [undefined]; reading
    a property of [null] throws a TypeError.  Primitives and arrays have no
    property of the names read by the sources. *)
Definition Get (v : JsValue) (key : string) : Completion (option JsValue) :=
  match v with
  | JsNull => Throw
  | JsObject props => Normal (lookupProp key props)
  | _ => Normal None
  end.

(** [typeof x === 'string'], [typeof x === 'number'], [Array.isArray(x)] on
    a value that may be [undefined]. *)
Definition isString (x : option JsValue) : bool :=
  match x with
  | Some (JsString _) => true
  | _ => false
  end.

Definition isNumber (x : option JsValue) : bool :=
  match x with
  | Some (JsNumber _) => true
  | _ => false
  end.

Definition isArray (x : option JsValue) : bool :=
  match x with
  | Some v => Array_isArray v
  | None => false
  end.

(** [items.every(p)]: stops at the first element that fails or throws. *)
Fixpoint every (p : JsValue → Completion bool) (items : list JsValue) : Completion bool :=
  match items with
  | [] => Normal true
  | item :: rest =>
      bind (p item) (λ ok, if ok then every p rest else Normal false)
  end.

End Json.

(** ** [types.ts] *)

(** [repiqueLeads] was added after the first backups were written, so
    the sources read it as [entry.repiqueLeads || 0]: it may be absent.
    The optional [startOfDayBalance] of the interface is never stored. *)
Record DailyEntry : Type := {
  date : string;
  newLeads : Z;
  discardedLeads : Z;
  repiqueLeads : option Z;
  localVisits : Z;
  contactingLeads : Z;
  inProgressLeads : Z;
  scheduledLeads : Z;
  negotiationLeads : Z;
  creditAnalysisLeads : Z;
  approvedLeads : Z;
  signedLeads : Z
}.

Record BrokerProfile : Type := {
  brokerName : string;
  initialLeads : Z;
  monthlySalesGoal : option Z;
  dailyEntries : list DailyEntry
}.

(** The messages shown with [alert]. *)
Inductive Alert : Type :=
| AlertDuplicateName      (* 'Ja existe um corretor com este nome.' *)
| AlertRestoreSuccess     (* 'Dados restaurados com sucesso!' *)
| AlertRestoreCorrupt     (* 'O arquivo de backup parece estar corrompido...' *)
| AlertImportFailed       (* 'Falha ao ler o arquivo de backup...' *)
| AlertBulkDateOrder      (* 'A Data Inicial nao pode ser posterior a Data Final.' *)
| AlertFixErrors          (* 'Por favor, corrija os campos com erros antes de salvar.' *)
| AlertBulkSaved          (* 'Edicao em massa salva com sucesso!' *)
| AlertNothingToExport.   (* 'Nenhum lancamento para exportar.' *)

(** [x || 0] and [x ?? 0] on a counter that may be absent. *)
Definition orZero (x : option Z) : Z := default 0 x.

(** ** [App.tsx]: the store and its handlers *)

Module App.

(** The two pieces of state of the component that the handlers touch. *)
Record AppState : Type := {
  brokers : list BrokerProfile;
  selectedBroker : option BrokerProfile
}.

Definition sameNameIgnoringCase {lc : Js.LowerCase} (a b : string) : bool :=
  String.eqb (Js.toLowerCase a) (Js.toLowerCase b).

Definition handleAddBroker {lc : Js.LowerCase} (st : AppState)
    (name : string) (initial : Z) (goal : Z) : AppState * list Alert :=
  if existsb (λ b, sameNameIgnoringCase (brokerName b) name) (brokers st)
  then (st, [AlertDuplicateName])
  else
    let newBroker := {| brokerName := name; initialLeads := initial;
                        monthlySalesGoal := Some goal; dailyEntries := [] |} in
    ({| brokers := brokers st ++ [newBroker];
        selectedBroker := selectedBroker st |}, []).

(** The argument [updatedData] of [handleUpdateBroker]. *)
Record BrokerUpdate : Type := {
  newBrokerName : string;
  newInitialLeads : Z;
  newMonthlySalesGoal : Z
}.

(** [{ ...broker, ...updatedData }]. *)
Definition spreadUpdate (broker : BrokerProfile) (updatedData : BrokerUpdate)
    : BrokerProfile :=
  {| brokerName := newBrokerName updatedData;
     initialLeads := newInitialLeads updatedData;
     monthlySalesGoal := Some (newMonthlySalesGoal updatedData);
     dailyEntries := dailyEntries broker |}.

Definition handleUpdateBroker {lc : Js.LowerCase} (st : AppState)
    (originalName : string) (updatedData : BrokerUpdate)
    : AppState * list Alert * bool :=
  if negb (sameNameIgnoringCase originalName (newBrokerName updatedData))
     && existsb (λ b, sameNameIgnoringCase (brokerName b) (newBrokerName updatedData))
                (brokers st)
  then (st, [AlertDuplicateName], false)
  else
    let newBrokers :=
      map (λ broker,
             if String.eqb (brokerName broker) originalName
             then spreadUpdate broker updatedData
             else broker) (brokers st) in
    let selected :=
      match selectedBroker st with
      | Some sel =>
          if String.eqb (brokerName sel) originalName then
            match find (λ b, String.eqb (brokerName b) (newBrokerName updatedData))
                       newBrokers with
            | Some updatedSelected => Some updatedSelected
            | None => Some sel
            end
          else Some sel
      | None => None
      end in
    ({| brokers := newBrokers; selectedBroker := selected |}, [], true).

(** [confirmed] is the answer to the [confirm] dialog. *)
Definition handleDeleteBroker (st : AppState) (confirmed : bool)
    (brokerNameToDelete : string) : AppState :=
  if confirmed then
    {| brokers := List.filter (λ broker, negb (String.eqb (brokerName broker) brokerNameToDelete))
                              (brokers st);
       selectedBroker :=
         match selectedBroker st with
         | Some sel => if String.eqb (brokerName sel) brokerNameToDelete
                       then None else Some sel
         | None => None
         end |}
  else st.

Definition handleSelectBroker (st : AppState) (name : string) : AppState :=
  match find (λ b, String.eqb (brokerName b) name) (brokers st) with
  | Some broker => {| brokers := brokers st; selectedBroker := Some broker |}
  | None => st
  end.

Definition handleSwitchBroker (st : AppState) : AppState :=
  {| brokers := brokers st; selectedBroker := None |}.

(** The body of [handleSaveEntry] on one profile: [findIndex] on the date,
    then an in-place replacement or an append. *)
Definition saveEntryIn (broker : BrokerProfile) (entry : DailyEntry) : BrokerProfile :=
  let updatedEntries :=
    match list_find (λ e, date e = date entry) (dailyEntries broker) with
    | Some (existingIndex, _) => <[existingIndex := entry]> (dailyEntries broker)
    | None => dailyEntries broker ++ [entry]
    end in
  {| brokerName := brokerName broker; initialLeads := initialLeads broker;
     monthlySalesGoal := monthlySalesGoal broker; dailyEntries := updatedEntries |}.

(** The body of [handleDeleteEntry] on one profile. *)
Definition deleteEntryIn (broker : BrokerProfile) (d : string) : BrokerProfile :=
  let updatedEntries := filter (λ e, date e ≠ d) (dailyEntries broker) in
  {| brokerName := brokerName broker; initialLeads := initialLeads broker;
     monthlySalesGoal := monthlySalesGoal broker; dailyEntries := updatedEntries |}.

(** [prevBrokers.map(...)] of both entry handlers: the profiles with the
    selected name are rewritten by [f], and the last one rewritten becomes
    the selected profile ([setSelectedBroker] is called inside the map). *)
Definition mapSelected (f : BrokerProfile → BrokerProfile) (st : AppState) : AppState :=
  match selectedBroker st with
  | None => st
  | Some sel =>
      let isSelected broker := String.eqb (brokerName broker) (brokerName sel) in
      {| brokers := map (λ broker, if isSelected broker then f broker else broker)
                        (brokers st);
         selectedBroker :=
           match last (List.filter isSelected (brokers st)) with
           | Some broker => Some (f broker)
           | None => Some sel
           end |}
  end.

Definition handleSaveEntry (st : AppState) (entry : DailyEntry) : AppState :=
  mapSelected (λ broker, saveEntryIn broker entry) st.

Definition handleDeleteEntry (st : AppState) (d : string) : AppState :=
  mapSelected (λ broker, deleteEntryIn broker d) st.

(** [handleRestoreBrokers]: the argument comes straight from [JSON.parse],
    so the store it writes is the parsed value itself (TypeScript's types
    are erased at run time).  The store is therefore a [JsValue] here. *)
Definition handleRestoreBrokers (brokers restoredBrokers : Json.JsValue)
    : Json.JsValue * list Alert :=
  if Json.Array_isArray restoredBrokers
  then (restoredBrokers, [AlertRestoreSuccess])
  else (brokers, [AlertRestoreCorrupt]).

(** [getInitialBrokers]: [savedBrokers] is what [localStorage.getItem]
    returns ([None] for [null]), [JSON_parse] is [JSON.parse] with [None] for
    a thrown SyntaxError.  An empty string is falsy and is not parsed; every
    failure ends in the empty array. *)
Definition getInitialBrokers (JSON_parse : string → option Json.JsValue)
    (savedBrokers : option string) : Json.JsValue :=
  match savedBrokers with
  | Some text =>
      if String.eqb text "" then Json.JsArray []
      else
        match JSON_parse text with
        | Some parsedBrokers =>
            if Json.Array_isArray parsedBrokers then parsedBrokers
            else Json.JsArray []
        | None => Json.JsArray []
        end
  | None => Json.JsArray []
  end.

End App.

(** ** [components/BrokerDashboard.tsx] *)

Module BrokerDashboard.

(** The comparator [(a, b) => new Date(a.date).getTime() - new Date(b.date).getTime()];
    a [NaN] result is read by [sort] as [+0]. *)
Definition compareDates (a b : string) : Z :=
  match Js.Date_getTime a, Js.Date_getTime b with
  | Some ta, Some tb => ta - tb
  | _, _ => 0
  end.

Definition byDate (a b : DailyEntry) : Z := compareDates (date a) (date b).

(** [{ ...entry, startOfDayBalance, endOfDayBalance }]. *)
Record EntryWithBalance : Type := {
  entry : DailyEntry;
  startOfDayBalance : Z;
  endOfDayBalance : Z
}.

(** The callback of [chronologicalEntries.map], with the variable
    [currentLeadBase] it updates threaded through the list. *)
Fixpoint mapWithBalance (currentLeadBase : Z) (chronologicalEntries : list DailyEntry)
    : list EntryWithBalance :=
  match chronologicalEntries with
  | [] => []
  | e :: rest =>
      let startOfDay := currentLeadBase in
      let endOfDay :=
        currentLeadBase + newLeads e + orZero (repiqueLeads e)
        - discardedLeads e - signedLeads e in
      {| entry := e; startOfDayBalance := startOfDay; endOfDayBalance := endOfDay |}
      :: mapWithBalance endOfDay rest
  end.

Definition entriesWithCalculatedBalances (profile : BrokerProfile)
    : list EntryWithBalance :=
  let chronologicalEntries := Js.Array_sort byDate (dailyEntries profile) in
  let entriesWithBalance := mapWithBalance (initialLeads profile) chronologicalEntries in
  rev entriesWithBalance.

(** The eleven counters, in the order of [fieldOrder]. *)
Inductive Field : Type :=
| NewLeads | DiscardedLeads | RepiqueLeads | LocalVisits | ContactingLeads
| InProgressLeads | ScheduledLeads | NegotiationLeads | CreditAnalysisLeads
| ApprovedLeads | SignedLeads.

#[global] Instance Field_eq_dec : EqDecision Field.
Proof. solve_decision. Defined.

Definition fieldOrder : list Field :=
  [NewLeads; DiscardedLeads; RepiqueLeads; LocalVisits; ContactingLeads;
   InProgressLeads; ScheduledLeads; NegotiationLeads; CreditAnalysisLeads;
   ApprovedLeads; SignedLeads].

(** [entry[key]]; only [repiqueLeads] can be [undefined]. *)
Definition getField (key : Field) (e : DailyEntry) : option Z :=
  match key with
  | NewLeads => Some (newLeads e)
  | DiscardedLeads => Some (discardedLeads e)
  | RepiqueLeads => repiqueLeads e
  | LocalVisits => Some (localVisits e)
  | ContactingLeads => Some (contactingLeads e)
  | InProgressLeads => Some (inProgressLeads e)
  | ScheduledLeads => Some (scheduledLeads e)
  | NegotiationLeads => Some (negotiationLeads e)
  | CreditAnalysisLeads => Some (creditAnalysisLeads e)
  | ApprovedLeads => Some (approvedLeads e)
  | SignedLeads => Some (signedLeads e)
  end.

(** [handleGenerateCsv]: the entries put back in chronological order and
    the numeric cells of each row (the date cell is formatted by the
    locale and is kept as the entry's date here). *)
Definition csvChronologicalEntries (profile : BrokerProfile) : list EntryWithBalance :=
  rev (entriesWithCalculatedBalances profile).

Definition csvRow (x : EntryWithBalance) : string * list Z :=
  (date (entry x),
   startOfDayBalance x
   :: map (λ key, orZero (getField key (entry x))) fieldOrder
   ++ [endOfDayBalance x]).

Definition handleGenerateCsv (profile : BrokerProfile)
    : list Alert + list (string * list Z) :=
  if bool_decide (dailyEntries profile = []) then inl [AlertNothingToExport]
  else inr (map csvRow (csvChronologicalEntries profile)).

(** The result of [monthlySummary], without the display string
    [conversionRate] (a floating-point quotient printed with [toFixed]). *)
Record MonthlySummary : Type := {
  monthNewLeads : Z;
  monthRepiqueLeads : Z;
  monthSignedLeads : Z;
  monthDiscardedLeads : Z;
  initialLeadsForMonth : Z;
  finalLeadsForMonth : Z
}.

(** The [for ... of] loop of [monthlySummary] with its [break]. *)
Fixpoint leadBaseBefore (firstDay : string) (currentLeadBaseForMonth : Z)
    (chronologicalEntries : list DailyEntry) : Z :=
  match chronologicalEntries with
  | [] => currentLeadBaseForMonth
  | e :: rest =>
      if Js.str_lt (date e) firstDay
      then leadBaseBefore firstDay
             (currentLeadBaseForMonth + newLeads e + orZero (repiqueLeads e)
              - discardedLeads e - signedLeads e) rest
      else currentLeadBaseForMonth
  end.

Definition monthlySummary (profile : BrokerProfile) (selectedMonth : string)
    : MonthlySummary :=
  let chronologicalEntries := Js.Array_sort byDate (dailyEntries profile) in
  let currentLeadBaseForMonth :=
    leadBaseBefore (String.append selectedMonth "-01") (initialLeads profile)
                   chronologicalEntries in
  let monthEntries :=
    List.filter (λ e, Js.startsWith (date e) selectedMonth) chronologicalEntries in
  let newLeads' := foldl (λ sum e, sum + newLeads e) 0 monthEntries in
  let repiqueLeads' := foldl (λ sum e, sum + orZero (repiqueLeads e)) 0 monthEntries in
  let signedLeads' := foldl (λ sum e, sum + signedLeads e) 0 monthEntries in
  let discardedLeads' := foldl (λ sum e, sum + discardedLeads e) 0 monthEntries in
  let totalLeadsIn := newLeads' + repiqueLeads' in
  let finalLeads := currentLeadBaseForMonth + totalLeadsIn - discardedLeads' - signedLeads' in
  {| monthNewLeads := newLeads'; monthRepiqueLeads := repiqueLeads';
     monthSignedLeads := signedLeads'; monthDiscardedLeads := discardedLeads';
     initialLeadsForMonth := currentLeadBaseForMonth;
     finalLeadsForMonth := finalLeads |}.

(** [reportEntries]: the projected entries of the month, sorted again. *)
Definition reportEntries (profile : BrokerProfile) (selectedMonth : string)
    : list EntryWithBalance :=
  Js.Array_sort (λ a b, byDate (entry a) (entry b))
    (List.filter (λ x, Js.startsWith (date (entry x)) selectedMonth)
                 (entriesWithCalculatedBalances profile)).

(** *** Bulk edit *)

(** A field of the bulk form: never touched ([undefined]), emptied (['']),
    or holding a number. *)
Inductive FormValue : Type :=
| Untouched
| Blank
| Num (n : Z).

(** The state of the bulk-edit modal. *)
Record BulkForm : Type := {
  bulkStartDate : string;
  bulkEndDate : string;
  bulkDailyData : Field → FormValue;
  bulkErrors : Field → option bool
}.

(** [handleBulkNumberChange]. *)
Definition handleBulkNumberChange (form : BulkForm) (field : Field) (value : option Z)
    : BulkForm :=
  let isError := match value with Some n => n <? 0 | None => false end in
  {| bulkStartDate := bulkStartDate form;
     bulkEndDate := bulkEndDate form;
     bulkDailyData := λ f, if bool_decide (f = field)
                           then match value with Some n => Num n | None => Blank end
                           else bulkDailyData form f;
     bulkErrors := λ f, if bool_decide (f = field) then Some isError
                        else bulkErrors form f |}.

(** [typeof bulkDailyData.k === 'number' ? bulkDailyData.k : (existingEntry?.k ?? 0)]. *)
Definition bulkValue (form : BulkForm) (existingEntry : option DailyEntry) (key : Field) : Z :=
  match bulkDailyData form key with
  | Num n => n
  | _ => orZero (existingEntry ≫= getField key)
  end.

(** The entry written for [dateString] by one turn of the loop. *)
Definition updatedEntry (profile : BrokerProfile) (form : BulkForm) (dateString : string)
    : DailyEntry :=
  let existingEntry := find (λ e, String.eqb (date e) dateString) (dailyEntries profile) in
  let value := bulkValue form existingEntry in
  {| date := dateString;
     newLeads := value NewLeads;
     discardedLeads := value DiscardedLeads;
     repiqueLeads := Some (value RepiqueLeads);
     localVisits := value LocalVisits;
     contactingLeads := value ContactingLeads;
     inProgressLeads := value InProgressLeads;
     scheduledLeads := value ScheduledLeads;
     negotiationLeads := value NegotiationLeads;
     creditAnalysisLeads := value CreditAnalysisLeads;
     approvedLeads := value ApprovedLeads;
     signedLeads := value SignedLeads |}.

(** The [while (currentDate <= endDate)] loop; the result lists the
    arguments of the successive calls of [onSaveEntry].  The loop is given
    a number of turns it may take; [None] means that they did not suffice. *)
Fixpoint bulkLoop (turns : nat) (tz : Js.TimeZone) (profile : BrokerProfile)
    (form : BulkForm)
    (currentDate endDate : Z) : option (list DailyEntry) :=
  if currentDate <=? endDate then
    match turns with
    | O => None
    | S turns' =>
        let dateString := Js.toISODate currentDate in
        let saved := updatedEntry profile form dateString in
        let nextDate := Js.setDate tz currentDate (Js.getDate tz currentDate + 1) in
        (λ rest, saved :: rest) <$> bulkLoop turns' tz profile form nextDate endDate
    end
  else Some [].

(** What [handleBulkSave] does: the entries passed to [onSaveEntry], the
    message shown, and the form afterwards ([None] when the modal stays
    open with the form as it was). *)
Record BulkOutcome : Type := {
  savedEntries : list DailyEntry;
  shown : Alert;
  formAfter : option BulkForm
}.

Definition someError (errors : Field → option bool) : bool :=
  existsb (λ key, default false (errors key)) fieldOrder.

Definition handleBulkSave (turns : nat) (tz : Js.TimeZone) (profile : BrokerProfile)
    (form : BulkForm) : option BulkOutcome :=
  let startAfterEnd :=
    match Js.Date_getTime (bulkStartDate form), Js.Date_getTime (bulkEndDate form) with
    | Some s, Some e => e <? s
    | _, _ => false
    end in
  if startAfterEnd then
    Some {| savedEntries := []; shown := AlertBulkDateOrder; formAfter := None |}
  else if someError (bulkErrors form) then
    Some {| savedEntries := []; shown := AlertFixErrors; formAfter := None |}
  else
    let saved :=
      match Js.Date_getTime_local tz (bulkStartDate form),
            Js.Date_getTime_local tz (bulkEndDate form) with
      | Some currentDate, Some endDate =>
          bulkLoop turns tz profile form currentDate endDate
      | _, _ => Some []
      end in
    (λ entries,
       {| savedEntries := entries; shown := AlertBulkSaved;
          formAfter := Some {| bulkStartDate := bulkStartDate form;
                               bulkEndDate := bulkEndDate form;
                               bulkDailyData := λ _, Untouched;
                               bulkErrors := λ _, None |} |}) <$> saved.

(** The initial state [{}] of the bulk form, for given dates. *)
Definition initialBulkForm (startDate endDate : string) : BulkForm :=
  {| bulkStartDate := startDate; bulkEndDate := endDate;
     bulkDailyData := λ _, Untouched; bulkErrors := λ _, None |}.

(** *** The form of one day *)

(** The state of the daily form: the selected date, the eleven counters
    ([dailyData], which always holds a number for each of them) and the error
    flags. *)
Record DailyForm : Type := {
  selectedDate : string;
  dailyData : Field → Z;
  errors : Field → option bool
}.

(** The effect run when the selected date or the entries change: the form
    takes the counters of the entry of that date, [{ ...initialState,
    ...formData }], or [initialState], and the flags are cleared. *)
Definition formForDate (profile : BrokerProfile) (d : string) : DailyForm :=
  let existingEntry := find (λ e, String.eqb (date e) d) (dailyEntries profile) in
  {| selectedDate := d;
     dailyData := λ key,
       match existingEntry with
       | Some e => orZero (getField key e)
       | None => 0
       end;
     errors := λ _, None |}.

(** [handleNumberChange]; [None] is the empty string of an emptied input. *)
Definition handleNumberChange (form : DailyForm) (field : Field) (value : option Z)
    : DailyForm :=
  let isError := match value with Some n => n <? 0 | None => false end in
  {| selectedDate := selectedDate form;
     dailyData := λ f, if bool_decide (f = field)
                       then match value with Some n => Z.max 0 n | None => 0 end
                       else dailyData form f;
     errors := λ f, if bool_decide (f = field) then Some isError
                    else errors form f |}.

(** [{ ...dailyData, date: selectedDate }]. *)
Definition entryWithDate (form : DailyForm) : DailyEntry :=
  {| date := selectedDate form;
     newLeads := dailyData form NewLeads;
     discardedLeads := dailyData form DiscardedLeads;
     repiqueLeads := Some (dailyData form RepiqueLeads);
     localVisits := dailyData form LocalVisits;
     contactingLeads := dailyData form ContactingLeads;
     inProgressLeads := dailyData form InProgressLeads;
     scheduledLeads := dailyData form ScheduledLeads;
     negotiationLeads := dailyData form NegotiationLeads;
     creditAnalysisLeads := dailyData form CreditAnalysisLeads;
     approvedLeads := dailyData form ApprovedLeads;
     signedLeads := dailyData form SignedLeads |}.

(** [handleSubmit]: either the message asking to correct the fields, or the
    entry passed to [onSaveEntry] (the success message follows it). *)
Definition handleSubmit (form : DailyForm) : Alert + DailyEntry :=
  if someError (errors form) then inl AlertFixErrors
  else inr (entryWithDate form).

End BrokerDashboard.

(** ** [BrokerManagement] (second component of [components/BrokerDashboard.tsx]) *)

Module BrokerManagement.

(** [{ ...broker, totalSales }]. *)
Record RankedBroker : Type := {
  broker : BrokerProfile;
  totalSales : Z
}.

Definition withTotalSales (b : BrokerProfile) : RankedBroker :=
  {| broker := b;
     totalSales := foldl (λ sum e, sum + signedLeads e) 0 (dailyEntries b) |}.

Definition rankedBrokers (brokers : list BrokerProfile) : list RankedBroker :=
  Js.Array_sort (λ a b, totalSales b - totalSales a)
    (List.filter (λ b, 0 <? totalSales b) (map withTotalSales brokers)).

(** The validation of [handleFileChange]. *)
Definition validItem (item : Json.JsValue) : Json.Completion bool :=
  Json.bind (Json.Get item "brokerName") (λ name,
    if Json.isString name then
      Json.bind (Json.Get item "initialLeads") (λ initial,
        if Json.isNumber initial then
          Json.bind (Json.Get item "dailyEntries") (λ entries,
            Json.Normal (Json.isArray entries))
        else Json.Normal false)
    else Json.Normal false).

Definition isValid (data : Json.JsValue) : Json.Completion bool :=
  match data with
  | Json.JsArray items => Json.every validItem items
  | _ => Json.Normal false
  end.

(** The [onload] callback of [handleFileChange].  [parsed] is the result of
    [JSON.parse(text)], [None] when it throws; [confirmed] is the answer to
    the [confirm] dialog; [brokers] is the store.  Every exception of the
    [try] block, the one thrown for an invalid shape included, ends in the
    same [catch]. *)
Definition handleFileChange (brokers : Json.JsValue)
    (parsed : option Json.JsValue) (confirmed : bool)
    : Json.JsValue * list Alert :=
  match parsed with
  | None => (brokers, [AlertImportFailed])
  | Some data =>
      match isValid data with
      | Json.Normal true =>
          if confirmed then App.handleRestoreBrokers brokers data
          else (brokers, [])
      | Json.Normal false => (brokers, [AlertImportFailed])
      | Json.Throw => (brokers, [AlertImportFailed])
      end
  end.

(** *** The comparison table *)

(** [conversionRate] is the floating-point number
    [(totalSales / totalLeadsIn) * 100].  The table is given the
    floating-point part it needs: the type of a rate, that quotient, the
    number [0], and [<] on two rates. *)
Record RateOps : Type := {
  Rate : Type;
  percentage : Z → Z → Rate;
  zeroRate : Rate;
  rate_lt : Rate → Rate → bool
}.

(** [ComparisonData]; the fields [brokerName] and [totalSales] are written
    [rowBrokerName] and [rowTotalSales]. *)
Record ComparisonData (ops : RateOps) : Type := {
  rowBrokerName : string;
  totalNewLeads : Z;
  rowTotalSales : Z;
  conversionRate : Rate ops
}.
Arguments rowBrokerName {ops} _.
Arguments totalNewLeads {ops} _.
Arguments rowTotalSales {ops} _.
Arguments conversionRate {ops} _.

(** [keyof ComparisonData] and the two directions. *)
Inductive Column : Type :=
| BrokerNameColumn | TotalNewLeadsColumn | TotalSalesColumn | ConversionRateColumn.

Inductive Direction : Type := ascending | descending.

#[global] Instance Column_eq_dec : EqDecision Column.
Proof. solve_decision. Defined.

#[global] Instance Direction_eq_dec : EqDecision Direction.
Proof. solve_decision. Defined.

Record SortConfig : Type := {
  key : Column;
  direction : Direction
}.

(** The initial state of [sortConfig]. *)
Definition initialSortConfig : SortConfig :=
  {| key := TotalSalesColumn; direction := descending |}.

(** The callback of [brokers.map] in [comparisonData]. *)
Definition comparisonRow (ops : RateOps) (broker : BrokerProfile) : ComparisonData ops :=
  let totalNewLeads' := foldl (λ sum entry, sum + newLeads entry) 0 (dailyEntries broker) in
  let totalRepiqueLeads :=
    foldl (λ sum entry, sum + orZero (repiqueLeads entry)) 0 (dailyEntries broker) in
  let totalSales' := foldl (λ sum entry, sum + signedLeads entry) 0 (dailyEntries broker) in
  let totalLeadsIn := totalNewLeads' + totalRepiqueLeads in
  let conversionRate' :=
    if 0 <? totalLeadsIn then percentage ops totalSales' totalLeadsIn else zeroRate ops in
  {| rowBrokerName := brokerName broker;
     totalNewLeads := totalLeadsIn;
     rowTotalSales := totalSales';
     conversionRate := conversionRate' |}.

(** [a[sortConfig.key] < b[sortConfig.key]]. *)
Definition columnLess {ops : RateOps} (column : Column) (a b : ComparisonData ops) : bool :=
  match column with
  | BrokerNameColumn => Js.str_lt (rowBrokerName a) (rowBrokerName b)
  | TotalNewLeadsColumn => totalNewLeads a <? totalNewLeads b
  | TotalSalesColumn => rowTotalSales a <? rowTotalSales b
  | ConversionRateColumn => rate_lt ops (conversionRate a) (conversionRate b)
  end.

(** The comparator given to [calculatedData.sort]. *)
Definition compareRows {ops : RateOps} (sortConfig : SortConfig) (a b : ComparisonData ops)
    : Z :=
  if columnLess (key sortConfig) a b then
    match direction sortConfig with ascending => -1 | descending => 1 end
  else if columnLess (key sortConfig) b a then
    match direction sortConfig with ascending => 1 | descending => -1 end
  else 0.

(** [comparisonData]; the state [sortConfig] is never [null]. *)
Definition comparisonData (ops : RateOps) (brokers : list BrokerProfile)
    (sortConfig : SortConfig) : list (ComparisonData ops) :=
  if bool_decide (brokers = []) then []
  else
    let calculatedData := map (comparisonRow ops) brokers in
    Js.Array_sort (compareRows sortConfig) calculatedData.

(** [requestSort]. *)
Definition requestSort (sortConfig : SortConfig) (column : Column) : SortConfig :=
  let direction' :=
    if bool_decide (key sortConfig = column)
       && bool_decide (direction sortConfig = ascending)
    then descending else ascending in
  {| key := column; direction := direction' |}.

End BrokerManagement.

(** ** Vocabulary of the statements *)

(** A date of the application: a calendar date written [YYYY-MM-DD]. *)
Definition wellFormedDate (s : string) : Prop := is_Some (Js.dayOfDate s).

(** Its day number (days since 1970-01-01); chronological order is the order
    of day numbers. *)
Definition dayNumber (s : string) : Z := default 0 (Js.dayOfDate s).

Definition wellFormedEntries (l : list DailyEntry) : Prop :=
  Forall (λ e, wellFormedDate (date e)) l.

Definition distinctDates (l : list DailyEntry) : Prop := NoDup (map date l).

(** A month of the month selector: [YYYY-MM] with a month in 1..12. *)
Definition monthFields (s : string) : option (Z * Z) :=
  match Js.parseYM s with
  | Some (y, m) => if (1 <=? m) && (m <=? 12) then Some (y, m) else None
  | None => None
  end.

Definition wellFormedMonth (s : string) : Prop := is_Some (monthFields s).

(** Months counted from January of year 0, for a month [YYYY-MM] or a date
    [YYYY-MM-DD]. *)
Definition monthIndex (s : string) : Z :=
  match Js.parseYM (substring 0 7 s) with
  | Some (y, m) => 12 * y + (m - 1)
  | None => 0
  end.

Definition monthOfIndex (k : Z) : string := Js.isoMonth (k / 12) (k mod 12 + 1).

(** The months from the month of [first] through the month of [last]. *)
Definition monthsFromTo (first last : string) : list string :=
  map monthOfIndex (seqZ (monthIndex first) (monthIndex last - monthIndex first + 1)).

(** What one day adds to the balance, in the words of the specification. *)
Definition leadDelta (e : DailyEntry) : Z :=
  newLeads e + orZero (repiqueLeads e) - discardedLeads e - signedLeads e.

Definition sumDelta (l : list DailyEntry) : Z := foldr (λ e s, leadDelta e + s) 0 l.

(** What the entries of the months before month number [k] add. *)
Definition sumBefore (k : Z) (l : list DailyEntry) : Z :=
  sumDelta (filter (λ e, monthIndex (date e) < k) l).

(** Months aggregated in order, each starting from the end balance of the
    month before. *)
Definition aggregateMonths (profile : BrokerProfile) (months : list string) : Z :=
  foldl (λ balance m,
           let s := BrokerDashboard.monthlySummary profile m in
           balance + BrokerDashboard.monthNewLeads s + BrokerDashboard.monthRepiqueLeads s
           - BrokerDashboard.monthDiscardedLeads s - BrokerDashboard.monthSignedLeads s)
        (initialLeads profile) months.

(** [totalSales] in the words of the specification. *)
Definition sumSigned (b : BrokerProfile) : Z :=
  foldr (λ e s, signedLeads e + s) 0 (dailyEntries b).

(** The shape an imported document must have, in the words of the
    specification: an array whose every element carries a string
    [brokerName], a numeric [initialLeads] and an array [dailyEntries]. *)
Definition wellShapedItem (item : Json.JsValue) : Prop :=
  ∃ props name initial entries,
    item = Json.JsObject props
    ∧ Json.lookupProp "brokerName" props = Some (Json.JsString name)
    ∧ Json.lookupProp "initialLeads" props = Some (Json.JsNumber initial)
    ∧ Json.lookupProp "dailyEntries" props = Some (Json.JsArray entries).

Definition wellShaped (data : Json.JsValue) : Prop :=
  ∃ items, data = Json.JsArray items ∧ Forall wellShapedItem items.

(** The invariant of the store: at most one entry per broker and date. *)
Definition oneEntryPerDate (st : App.AppState) : Prop :=
  Forall (λ b, distinctDates (dailyEntries b)) (App.brokers st)
  ∧ from_option (λ b, distinctDates (dailyEntries b)) True (App.selectedBroker st).

(** The conditions on the local time zone under which the bulk edit visits
    the days it is asked for.  At local midnight of day [d] the zone is at or
    west of Greenwich, less than a day behind it; and local midnight of day
    [d] is a time of the clock, which no change of the clock skips: taken
    to UTC and back it is the same local time. *)
Definition westAtMidnight (tz : Js.TimeZone) (d : Z) : Prop :=
  - Js.msPerDay < Js.LocalTZA tz (d * Js.msPerDay) false <= 0.

Definition midnightExists (tz : Js.TimeZone) (d : Z) : Prop :=
  Js.LocalTime tz (Js.UTC tz (d * Js.msPerDay)) = d * Js.msPerDay.

(** *** Vocabulary of the further properties *)

(** Names are unique up to case. *)
Definition uniqueNames {lc : Js.LowerCase} (bs : list BrokerProfile) : Prop :=
  NoDup ((λ b, Js.toLowerCase (brokerName b)) <$> bs).

(** The selected profile, when there is one, is a profile of the store. *)
Definition selectedInStore (st : App.AppState) : Prop :=
  from_option (λ sel, sel ∈ App.brokers st) True (App.selectedBroker st).

Definition consistentStore {lc : Js.LowerCase} (st : App.AppState) : Prop :=
  uniqueNames (App.brokers st) ∧ selectedInStore st.

(** What a user can do to the store of profiles. *)
Inductive Action : Type :=
| AddBroker (name : string) (initial goal : Z)
| UpdateBroker (originalName : string) (updatedData : App.BrokerUpdate)
| DeleteBroker (confirmed : bool) (name : string)
| SelectBroker (name : string)
| SwitchBroker
| SaveEntry (e : DailyEntry)
| DeleteEntry (d : string).

Definition perform {lc : Js.LowerCase} (st : App.AppState) (a : Action) : App.AppState :=
  match a with
  | AddBroker name initial goal => fst (App.handleAddBroker st name initial goal)
  | UpdateBroker originalName updatedData =>
      fst (fst (App.handleUpdateBroker st originalName updatedData))
  | DeleteBroker confirmed name => App.handleDeleteBroker st confirmed name
  | SelectBroker name => App.handleSelectBroker st name
  | SwitchBroker => App.handleSwitchBroker st
  | SaveEntry e => App.handleSaveEntry st e
  | DeleteEntry d => App.handleDeleteEntry st d
  end.

(** The entry a list holds for a date, as the dashboard looks it up:
    [dailyEntries.find(e => e.date === d)]. *)
Definition entryOf (d : string) (l : list DailyEntry) : option DailyEntry :=
  find (λ e, String.eqb (date e) d) l.

(** No counter of the entry is negative. *)
Definition nonNegativeEntry (e : DailyEntry) : Prop :=
  ∀ key, 0 <= orZero (BrokerDashboard.getField key e).

(** A bulk form and a daily form after a series of inputs, each a field and
    the number typed ([None] for an emptied field). *)
Definition bulkFormAfter (form : BrokerDashboard.BulkForm)
    (inputs : list (BrokerDashboard.Field * option Z)) : BrokerDashboard.BulkForm :=
  foldl (λ f input, BrokerDashboard.handleBulkNumberChange f input.1 input.2) form inputs.

Definition dailyFormAfter (form : BrokerDashboard.DailyForm)
    (inputs : list (BrokerDashboard.Field * option Z)) : BrokerDashboard.DailyForm :=
  foldl (λ f input, BrokerDashboard.handleNumberChange f input.1 input.2) form inputs.

(** The month of an entry of the projection, and the pairs of balances. *)
Definition inMonth (m : string) (x : BrokerDashboard.EntryWithBalance) : Prop :=
  monthIndex (date (BrokerDashboard.entry x)) = monthIndex m.

#[global] Instance inMonth_dec m x : Decision (inMonth m x).
Proof. unfold inMonth. apply _. Defined.

Definition balances (l : list BrokerDashboard.EntryWithBalance) : list (string * Z * Z) :=
  (λ x, (date (BrokerDashboard.entry x), BrokerDashboard.startOfDayBalance x,
         BrokerDashboard.endOfDayBalance x)) <$> l.

(** The number a column of the comparison table is sorted by, for the two
    columns that hold integers. *)
Definition integerColumn {ops : BrokerManagement.RateOps}
    (column : BrokerManagement.Column)
    : option (BrokerManagement.ComparisonData ops → Z) :=
  match column with
  | BrokerManagement.TotalNewLeadsColumn => Some BrokerManagement.totalNewLeads
  | BrokerManagement.TotalSalesColumn => Some BrokerManagement.rowTotalSales
  | _ => None
  end.

(** Rates kept as exact fractions [100 * totalSales / totalLeadsIn], for
    the examples. *)
Definition fractionRates : BrokerManagement.RateOps :=
  {| BrokerManagement.Rate := Z * Z;
     BrokerManagement.percentage := λ sales leads, (100 * sales, leads);
     BrokerManagement.zeroRate := (0, 1);
     BrokerManagement.rate_lt := λ a b, a.1 * b.2 <? b.1 * a.2 |}.

(** *** Sample data *)

Definition entryOn (d : string) (new discarded : Z) (repique : option Z) (signed : Z)
    : DailyEntry :=
  {| date := d; newLeads := new; discardedLeads := discarded; repiqueLeads := repique;
     localVisits := 0; contactingLeads := 0; inProgressLeads := 0; scheduledLeads := 0;
     negotiationLeads := 0; creditAnalysisLeads := 0; approvedLeads := 0;
     signedLeads := signed |}.

Definition brokerWith (name : string) (initial : Z) (entries : list DailyEntry)
    : BrokerProfile :=
  {| brokerName := name; initialLeads := initial; monthlySalesGoal := None;
     dailyEntries := entries |}.

(** The profile of the specification's example, stored most recent first. *)
Definition sampleProfile : BrokerProfile :=
  brokerWith "Ana" 100
    [entryOn "2024-03-02" 5 0 (Some 3) 2; entryOn "2024-03-01" 10 2 None 1].

(** A profile that discards more leads than it holds. *)
Definition overdrawnProfile : BrokerProfile :=
  brokerWith "Rui" 3 [entryOn "2024-03-01" 0 5 None 0].

(** A profile whose entries span three months, one of them empty. *)
Definition quarterProfile : BrokerProfile :=
  brokerWith "Bia" 40
    [entryOn "2024-03-05" 6 1 (Some 2) 3; entryOn "2024-01-31" 4 0 None 1;
     entryOn "2024-01-10" 9 2 (Some 1) 0].

(** Four brokers whose sales total 0, 5, 5 and 3. *)
Definition sampleBrokers : list BrokerProfile :=
  [brokerWith "Ana" 10 [entryOn "2024-03-01" 4 0 None 0];
   brokerWith "Bia" 10 [entryOn "2024-03-01" 9 0 None 2; entryOn "2024-03-02" 1 0 None 3];
   brokerWith "Caio" 10 [entryOn "2024-03-04" 7 0 None 5];
   brokerWith "Davi" 10 [entryOn "2024-03-03" 5 0 None 3]].

(** The store of these four brokers with the dashboard of the second one
    open, and an entry of a day that the sample profile does not have. *)
Definition sampleSelected : BrokerProfile :=
  brokerWith "Bia" 10 [entryOn "2024-03-01" 9 0 None 2; entryOn "2024-03-02" 1 0 None 3].

Definition sampleStore : App.AppState :=
  {| App.brokers := sampleBrokers; App.selectedBroker := Some sampleSelected |}.

Definition sampleNewEntry : DailyEntry := entryOn "2024-03-03" 1 0 None 0.

(** A backup with one profile, and a document of the wrong shape. *)
Definition sampleBackup : Json.JsValue :=
  Json.JsArray
    [Json.JsObject [("brokerName", Json.JsString "Ana");
                    ("initialLeads", Json.JsNumber 100);
                    ("dailyEntries", Json.JsArray [])]].

Definition malformedBackup : Json.JsValue :=
  Json.JsArray [Json.JsString "Ana"; Json.JsString "Bia"].

(** A bulk form for four days that sets one counter, and the same form after
    a negative number was typed in another field. *)
Definition sampleBulkForm : BrokerDashboard.BulkForm :=
  {| BrokerDashboard.bulkStartDate := "2024-02-28";
     BrokerDashboard.bulkEndDate := "2024-03-02";
     BrokerDashboard.bulkDailyData :=
       λ key, match key with
              | BrokerDashboard.NewLeads => BrokerDashboard.Num 7
              | _ => BrokerDashboard.Untouched
              end;
     BrokerDashboard.bulkErrors := λ _, None |}.

Definition flaggedBulkForm : BrokerDashboard.BulkForm :=
  BrokerDashboard.handleBulkNumberChange sampleBulkForm
    BrokerDashboard.LocalVisits (Some (-5)).

(** Names written in ASCII, for the examples. *)
Definition asciiNames : Js.LowerCase :=
  {| Js.toLowerCase := Js.asciiLowerCase;
     Js.toLowerCase_ascii := λ _ _, eq_refl |}.

(** A zone whose clock never changes.  Local time in Brasilia (UTC-3, no
    daylight saving time since 2019) and in Lisbon in summer (UTC+1). *)
Definition fixedOffset (tza : Z) : Js.TimeZone := {| Js.LocalTZA := λ _ _, tza |}.

Definition tzaBrasilia : Z := -10800000.
Definition tzaLisbon : Z := 3600000.

Definition Brasilia : Js.TimeZone := fixedOffset tzaBrasilia.
Definition LisbonInSummer : Js.TimeZone := fixedOffset tzaLisbon.

(** Santiago de Chile around 8 September 2024 (day 19974): at local
    midnight of that day, 04:00 UTC, the clock goes from UTC-4 to UTC-3, so
    that the local times from 00:00 to 00:59 of that day do not exist. *)
Definition Santiago2024 : Js.TimeZone :=
  {| Js.LocalTZA := λ t isUTC,
       let change := 19974 * Js.msPerDay in
       if isUTC
       then if t <? change + 4 * 3600000 then - 4 * 3600000 else - 3 * 3600000
       else if t <? change + 3600000 then - 4 * 3600000 else - 3 * 3600000 |}.

(** * Facts about the primitives *)

(** ** The calendar *)

Section Calendar.
Import Js.

Lemma DayFromYear_succ y : DayFromYear (y + 1) = DayFromYear y + 365 + leapDays y.
Proof.
  unfold DayFromYear, leapDays, InLeapYear.
  destruct (y mod 4 =? 0) eqn:E4; destruct (y mod 100 =? 0) eqn:E100;
    destruct (y mod 400 =? 0) eqn:E400; simpl;
    rewrite ?Z.eqb_eq, ?Z.eqb_neq in *; Z.to_euclidean_division_equations; lia.
Qed.

Lemma DayFromYear_lt y1 y2 : y1 < y2 → DayFromYear y1 < DayFromYear y2.
Proof. intros. unfold DayFromYear. Z.to_euclidean_division_equations; lia. Qed.

Lemma DayFromYear_le y1 y2 : y1 <= y2 → DayFromYear y1 <= DayFromYear y2.
Proof.
  intros H. destruct (decide (y1 = y2)) as [->|]; [lia|].
  apply Z.lt_le_incl, DayFromYear_lt. lia.
Qed.

Lemma leapDays_range y : 0 <= leapDays y <= 1.
Proof. unfold leapDays. destruct (InLeapYear y); lia. Qed.

(** The year found by [YearFromDay] is the year that contains the day. *)
Lemma YearFromDay_spec n :
  DayFromYear (YearFromDay n) <= n < DayFromYear (YearFromDay n + 1).
Proof.
  unfold YearFromDay.
  set (y0 := 1970 + n * 400 / 146097).
  assert (Hy0 : 146097 * (y0 - 1970) <= n * 400 < 146097 * (y0 - 1970) + 146097).
  { unfold y0. Z.to_euclidean_division_equations; lia. }
  clearbody y0.
  destruct (n <? DayFromYear y0) eqn:E1;
    [|destruct (DayFromYear (y0 + 1) <=? n) eqn:E2];
    rewrite ?Z.ltb_lt, ?Z.ltb_ge, ?Z.leb_le, ?Z.leb_gt in *.
  - split.
    + revert E1 Hy0. unfold DayFromYear. Z.to_euclidean_division_equations; lia.
    + replace (y0 - 1 + 1) with y0 by lia. lia.
  - split; [lia|].
    revert E2 Hy0. unfold DayFromYear. Z.to_euclidean_division_equations; lia.
  - lia.
Qed.

Lemma YearFromDay_unique n y :
  DayFromYear y <= n < DayFromYear (y + 1) → YearFromDay n = y.
Proof.
  intros Hy. pose proof (YearFromDay_spec n) as Hs.
  destruct (Z.lt_trichotomy (YearFromDay n) y) as [Hlt | [Heq | Hgt]]; [|done|].
  - pose proof (DayFromYear_le (YearFromDay n + 1) y). lia.
  - pose proof (DayFromYear_le (y + 1) (YearFromDay n)). lia.
Qed.

Lemma YearFromDay_mono n n' : n <= n' → YearFromDay n <= YearFromDay n'.
Proof.
  intros H. pose proof (YearFromDay_spec n). pose proof (YearFromDay_spec n').
  destruct (Z.le_gt_cases (YearFromDay n) (YearFromDay n')) as [|Hgt]; [done|].
  pose proof (DayFromYear_le (YearFromDay n' + 1) (YearFromDay n)). lia.
Qed.

(** Case analysis on a month, with the table of first days evaluated. *)
Ltac by_month m :=
  let H := fresh in
  assert (H : m = 1 ∨ m = 2 ∨ m = 3 ∨ m = 4 ∨ m = 5 ∨ m = 6 ∨ m = 7 ∨ m = 8
              ∨ m = 9 ∨ m = 10 ∨ m = 11 ∨ m = 12) by lia;
  destruct H as [->|[->|[->|[->|[->|[->|[->|[->|[->|[->|[->| ->]]]]]]]]]]];
  unfold firstDayOfMonth in *; simpl in *.

Lemma validYMD_fields y m d :
  validYMD (y, m, d) = true →
  1 <= m <= 12 ∧ 1 <= d <= 31 ∧
  0 <= firstDayOfMonth y m ∧
  firstDayOfMonth y m + d <= firstDayOfMonth y (m + 1) ∧
  firstDayOfMonth y (m + 1) <= 365 + leapDays y.
Proof.
  unfold validYMD, DaysInMonth. rewrite !andb_true_iff, !Z.leb_le.
  intros [[[Hm1 Hm2] Hd1] Hd2].
  pose proof (leapDays_range y) as Hl.
  by_month m; lia.
Qed.

Lemma validYMD_first y m : 1 <= m <= 12 → validYMD (y, m, 1) = true.
Proof.
  intros Hm. unfold validYMD, DaysInMonth. rewrite !andb_true_iff, !Z.leb_le.
  pose proof (leapDays_range y).
  by_month m; lia.
Qed.

Lemma firstDayOfMonth_mono y m m' :
  1 <= m → m < m' → m' <= 12 → firstDayOfMonth y (m + 1) <= firstDayOfMonth y m'.
Proof.
  intros. pose proof (leapDays_range y).
  by_month m; try lia; by_month m'; lia.
Qed.

(** The fields read back from a day number make that day again. *)
Lemma MakeDay_fields n :
  MakeDay (YearFromDay n) (MonthFromDay n) (DateFromDay n) = n
  ∧ validYMD (YearFromDay n, MonthFromDay n, DateFromDay n) = true.
Proof.
  pose proof (YearFromDay_spec n) as Hs.
  rewrite DayFromYear_succ in Hs.
  unfold validYMD, DaysInMonth, MakeDay, DateFromDay, MonthFromDay, DayWithinYear.
  set (y := YearFromDay n) in *.
  pose proof (leapDays_range y) as Hl.
  set (k := n - DayFromYear y).
  assert (Hk : 0 <= k < 365 + leapDays y) by (unfold k; lia).
  assert (Hn : n = DayFromYear y + k) by (unfold k; lia).
  clearbody k. clear Hs.
  unfold firstDayOfMonth; simpl.
  repeat match goal with
  | |- context [if ?a <? ?b then _ else _] => destruct (Z.ltb_spec a b)
  end; simpl; (split; [lia|]); rewrite ?andb_true_iff, ?Z.leb_le; lia.
Qed.

Lemma YearFromDay_MakeDay y m d :
  validYMD (y, m, d) = true → YearFromDay (MakeDay y m d) = y.
Proof.
  intros Hv. apply validYMD_fields in Hv.
  apply YearFromDay_unique. rewrite DayFromYear_succ. unfold MakeDay. lia.
Qed.

Lemma MonthFromDay_MakeDay y m d :
  validYMD (y, m, d) = true → MonthFromDay (MakeDay y m d) = m.
Proof.
  intros Hv. unfold MonthFromDay, DayWithinYear.
  rewrite (YearFromDay_MakeDay _ _ _ Hv).
  unfold validYMD, DaysInMonth in Hv. rewrite !andb_true_iff, !Z.leb_le in Hv.
  destruct Hv as [[[Hm1 Hm2] Hd1] Hd2].
  pose proof (leapDays_range y) as Hl.
  unfold MakeDay.
  by_month m;
    repeat match goal with
    | |- context [if ?a <? ?b then _ else _] => destruct (Z.ltb_spec a b); try lia
    end.
Qed.

Lemma DateFromDay_MakeDay y m d :
  validYMD (y, m, d) = true → DateFromDay (MakeDay y m d) = d.
Proof.
  intros Hv. unfold DateFromDay, DayWithinYear.
  rewrite (MonthFromDay_MakeDay _ _ _ Hv), (YearFromDay_MakeDay _ _ _ Hv).
  unfold MakeDay. lia.
Qed.

(** On calendar dates the order of day numbers is the lexicographic order of
    the fields, written here on the number [YYYYMMDD]. *)
Lemma MakeDay_lt y m d y' m' d' :
  validYMD (y, m, d) = true → validYMD (y', m', d') = true →
  MakeDay y m d < MakeDay y' m' d'
  ↔ y * 10000 + m * 100 + d < y' * 10000 + m' * 100 + d'.
Proof.
  intros Hv Hv'.
  apply validYMD_fields in Hv, Hv'.
  unfold MakeDay.
  destruct (Z.lt_trichotomy y y') as [Hy | [-> | Hy]].
  - pose proof (DayFromYear_le (y + 1) y'). rewrite DayFromYear_succ in *. lia.
  - destruct (Z.lt_trichotomy m m') as [Hm | [-> | Hm]]; [| lia |].
    + pose proof (firstDayOfMonth_mono y' m m'). lia.
    + pose proof (firstDayOfMonth_mono y' m' m). lia.
  - pose proof (DayFromYear_le (y' + 1) y). rewrite DayFromYear_succ in *. lia.
Qed.

(** One more local day: [d.setDate(d.getDate() + 1)] is the local time 24
    hours later on the clock, taken back to UTC. *)
Lemma setDate_next tz t :
  setDate tz t (getDate tz t + 1) = UTC tz (LocalTime tz t + msPerDay).
Proof.
  unfold setDate, getDate. f_equal.
  destruct (MakeDay_fields (Day (LocalTime tz t))) as [Hday _].
  unfold MakeDay in *. unfold Day, TimeWithinDay, msPerDay in *.
  Z.to_euclidean_division_equations; lia.
Qed.

(** Local midnight of day [n] falls on UTC day [n] at or west of Greenwich. *)
Lemma Day_local_midnight tza n :
  - msPerDay < tza <= 0 → Day (n * msPerDay - tza) = n.
Proof. unfold Day, msPerDay. intros. Z.to_euclidean_division_equations; lia. Qed.

End Calendar.

(** ** Dates and months as strings *)

Section DateStrings.
Import Js.

Lemma N_of_digitChar d : N_of_ascii (digitChar d) = Z.to_N (48 + d mod 10).
Proof.
  unfold digitChar. apply N_ascii_embedding.
  pose proof (Z.mod_pos_bound d 10). lia.
Qed.

Lemma compare_digitChar a b :
  Ascii.compare (digitChar a) (digitChar b) = (a mod 10 ?= b mod 10).
Proof.
  unfold Ascii.compare. rewrite !N_of_digitChar.
  pose proof (Z.mod_pos_bound a 10). pose proof (Z.mod_pos_bound b 10).
  rewrite Z2N.inj_compare by lia. apply Z.add_compare_mono_l.
Qed.

Lemma digitChar_eq a b : digitChar a = digitChar b ↔ a mod 10 = b mod 10.
Proof.
  split.
  - intros E. apply (f_equal N_of_ascii) in E. rewrite !N_of_digitChar in E.
    pose proof (Z.mod_pos_bound a 10). pose proof (Z.mod_pos_bound b 10). lia.
  - intros E. unfold digitChar. by rewrite E.
Qed.

Lemma ascii_dec_digitChar {B} a b (X Y : B) :
  (if ascii_dec (digitChar a) (digitChar b) then X else Y)
  = (if a mod 10 =? b mod 10 then X else Y).
Proof.
  destruct (ascii_dec _ _) as [E|E]; rewrite digitChar_eq in E.
  - by rewrite (proj2 (Z.eqb_eq _ _) E).
  - by rewrite (proj2 (Z.eqb_neq _ _) E).
Qed.

Lemma digitValue_Some c v : digitValue c = Some v → 0 <= v <= 9 ∧ c = digitChar v.
Proof.
  unfold digitValue.
  destruct (_ && _) eqn:E; [|done]. intros [= <-].
  apply andb_true_iff in E as [E1 E2]. apply Z.leb_le in E1, E2.
  split; [lia|]. unfold digitChar.
  rewrite Z.mod_small by lia.
  replace (48 + (Z.of_N (N_of_ascii c) - 48)) with (Z.of_N (N_of_ascii c)) by lia.
  by rewrite N2Z.id, ascii_N_embedding.
Qed.

Lemma digitValue_digitChar v : digitValue (digitChar v) = Some (v mod 10).
Proof.
  unfold digitValue. rewrite N_of_digitChar.
  pose proof (Z.mod_pos_bound v 10).
  rewrite Z2N.id by lia.
  replace ((48 <=? 48 + v mod 10) && (48 + v mod 10 <=? 57)) with true.
  - f_equal. lia.
  - symmetry. apply andb_true_iff. split; apply Z.leb_le; lia.
Qed.

(** A four-digit year is written without sign. *)
Ltac four_digits :=
  repeat match goal with
  | |- context [(0 <=? ?y) && (?y <=? 9999)] =>
      replace ((0 <=? y) && (y <=? 9999)) with true
        by (symmetry; apply andb_true_iff; split; apply Z.leb_le; lia)
  end.

(** Both sides are strings of digit characters and hyphens. *)
Ltac same_digits :=
  repeat (apply (f_equal2 String);
          [first [reflexivity
                 | apply digitChar_eq; Z.to_euclidean_division_equations; lia]|]);
  reflexivity.

(** The digits read by a parser. *)
Ltac read_digits :=
  repeat match goal with
  | |- context [digitValue ?c] =>
      let E := fresh "E" in
      destruct (digitValue c) eqn:E; simpl;
      [apply digitValue_Some in E as [? ->]|done]
  end;
  repeat match goal with
  | |- context [Ascii.eqb ?c ?c'] => destruct (Ascii.eqb_spec c c'); [subst|done]
  end.

Lemma parseYMD_Some s y m d :
  parseYMD s = Some (y, m, d) →
  s = isoDate y m d ∧ 0 <= y <= 9999 ∧ 0 <= m <= 99 ∧ 0 <= d <= 99.
Proof.
  unfold parseYMD.
  do 10 (destruct s as [|? s]; [done|]). destruct s; [|done]. simpl.
  read_digits. simpl. intros [= <- <- <-].
  split; [|lia].
  unfold isoDate, isoYear. four_digits. unfold pad4, pad2. same_digits.
Qed.

Lemma parseYMD_isoDate y m d :
  0 <= y <= 9999 → 0 <= m <= 99 → 0 <= d <= 99 →
  parseYMD (isoDate y m d) = Some (y, m, d).
Proof.
  intros Hy Hm Hd. unfold isoDate, isoYear. four_digits.
  unfold pad4, pad2, parseYMD. simpl.
  rewrite !digitValue_digitChar. simpl.
  f_equal. f_equal; [f_equal|]; Z.to_euclidean_division_equations; lia.
Qed.

Lemma parseYM_Some s y m :
  parseYM s = Some (y, m) → s = isoMonth y m ∧ 0 <= y <= 9999 ∧ 0 <= m <= 99.
Proof.
  unfold parseYM.
  do 7 (destruct s as [|? s]; [done|]). destruct s; [|done]. simpl.
  read_digits. simpl. intros [= <- <-].
  split; [|lia].
  unfold isoMonth, isoYear. four_digits. unfold pad4, pad2. same_digits.
Qed.

Lemma parseYM_isoMonth y m :
  0 <= y <= 9999 → 0 <= m <= 99 → parseYM (isoMonth y m) = Some (y, m).
Proof.
  intros Hy Hm. unfold isoMonth, isoYear. four_digits.
  unfold pad4, pad2, parseYM. simpl.
  rewrite !digitValue_digitChar. simpl.
  f_equal. f_equal; Z.to_euclidean_division_equations; lia.
Qed.

Lemma append_isoMonth y m d :
  0 <= y <= 9999 →
  String.append (isoMonth y m) (String "-" (pad2 d "")) = isoDate y m d.
Proof. intros Hy. unfold isoMonth, isoDate, isoYear. four_digits. reflexivity. Qed.

Lemma substring_isoDate y m d :
  0 <= y <= 9999 → substring 0 7 (isoDate y m d) = isoMonth y m.
Proof. intros Hy. unfold isoMonth, isoDate, isoYear. four_digits. reflexivity. Qed.

Lemma substring_isoMonth y m :
  0 <= y <= 9999 → substring 0 7 (isoMonth y m) = isoMonth y m.
Proof. intros Hy. unfold isoMonth, isoYear. four_digits. reflexivity. Qed.

(** Code-unit order on [YYYY-MM-DD] strings is the order of [YYYYMMDD]. *)
Lemma str_lt_isoDate y m d y' m' d' :
  0 <= y <= 9999 → 0 <= m <= 99 → 0 <= d <= 99 →
  0 <= y' <= 9999 → 0 <= m' <= 99 → 0 <= d' <= 99 →
  str_lt (isoDate y m d) (isoDate y' m' d')
  = (y * 10000 + m * 100 + d <? y' * 10000 + m' * 100 + d').
Proof.
  intros. unfold str_lt, String.ltb, isoDate, isoYear. four_digits.
  unfold pad4, pad2. cbn [String.compare].
  rewrite !compare_digitChar.
  replace (Ascii.compare "-" "-") with Eq by reflexivity.
  repeat match goal with
  | |- context [?a ?= ?b] => destruct (Z.compare_spec a b)
  end;
  symmetry; first [apply Z.ltb_lt | apply Z.ltb_ge];
  Z.to_euclidean_division_equations; lia.
Qed.

Lemma startsWith_isoDate y m d y' m' :
  0 <= y <= 9999 → 0 <= m <= 99 →
  0 <= y' <= 9999 → 0 <= m' <= 99 →
  startsWith (isoDate y m d) (isoMonth y' m') = (y =? y') && (m =? m').
Proof.
  intros. unfold startsWith, isoDate, isoMonth, isoYear. four_digits.
  unfold pad4, pad2. cbn [String.prefix].
  rewrite !ascii_dec_digitChar.
  destruct (ascii_dec "-" "-") as [_|]; [|done].
  repeat match goal with
  | |- context [?a =? ?b] => destruct (Z.eqb_spec a b)
  end; try reflexivity; exfalso;
  Z.to_euclidean_division_equations; lia.
Qed.

(** *** Well-formed dates *)

Lemma dayOfDate_Some s n :
  dayOfDate s = Some n →
  ∃ y m d, s = isoDate y m d ∧ 0 <= y <= 9999
           ∧ validYMD (y, m, d) = true ∧ n = MakeDay y m d.
Proof.
  unfold dayOfDate. destruct (parseYMD s) as [[[y m] d]|] eqn:E; [|done].
  destruct (validYMD (y, m, d)) eqn:Hv; [|done]. intros [= <-].
  apply parseYMD_Some in E as (-> & Hy & _). by exists y, m, d.
Qed.

Lemma dayOfDate_isoDate y m d :
  0 <= y <= 9999 → validYMD (y, m, d) = true →
  dayOfDate (isoDate y m d) = Some (MakeDay y m d).
Proof.
  intros Hy Hv. unfold dayOfDate.
  pose proof (validYMD_fields _ _ _ Hv).
  rewrite parseYMD_isoDate by lia. by rewrite Hv.
Qed.

(** The string is recovered from the day number: [toISOString] undoes the
    parsing of a date. *)
Lemma toISODate_dayOfDate s n :
  dayOfDate s = Some n → toISODate (n * msPerDay) = s.
Proof.
  intros (y & m & d & -> & Hy & Hv & ->)%dayOfDate_Some.
  unfold toISODate, Day. rewrite Z.div_mul by done.
  by rewrite YearFromDay_MakeDay, MonthFromDay_MakeDay, DateFromDay_MakeDay.
Qed.

Lemma dayOfDate_inj a b n : dayOfDate a = Some n → dayOfDate b = Some n → a = b.
Proof.
  intros Ha%toISODate_dayOfDate Hb%toISODate_dayOfDate. congruence.
Qed.

(** Every day between two well-formed dates has a well-formed name. *)
Lemma dayOfDate_toISODate a b lo hi n :
  dayOfDate a = Some lo → dayOfDate b = Some hi → lo <= n <= hi →
  dayOfDate (toISODate (n * msPerDay)) = Some n.
Proof.
  intros (y & m & d & -> & Hy & Hv & ->)%dayOfDate_Some
         (y' & m' & d' & -> & Hy' & Hv' & ->)%dayOfDate_Some Hn.
  unfold toISODate, Day. rewrite Z.div_mul by done.
  destruct (MakeDay_fields n) as [Hmk Hvn].
  pose proof (YearFromDay_mono _ _ (proj1 Hn)) as H1.
  pose proof (YearFromDay_mono _ _ (proj2 Hn)) as H2.
  rewrite YearFromDay_MakeDay in H1, H2 by done.
  rewrite dayOfDate_isoDate by (done || lia). by rewrite Hmk.
Qed.

(** On well-formed dates the comparison of strings is the comparison of
    days. *)
Lemma str_lt_dates a b n n' :
  dayOfDate a = Some n → dayOfDate b = Some n' → str_lt a b = (n <? n').
Proof.
  intros (y & m & d & -> & Hy & Hv & ->)%dayOfDate_Some
         (y' & m' & d' & -> & Hy' & Hv' & ->)%dayOfDate_Some.
  pose proof (validYMD_fields _ _ _ Hv). pose proof (validYMD_fields _ _ _ Hv').
  rewrite str_lt_isoDate by lia.
  pose proof (MakeDay_lt _ _ _ _ _ _ Hv Hv').
  destruct (Z.ltb_spec (y * 10000 + m * 100 + d) (y' * 10000 + m' * 100 + d'));
    symmetry; [apply Z.ltb_lt | apply Z.ltb_ge]; lia.
Qed.

End DateStrings.

(** ** Months *)

Section Months.
Import Js.

Lemma monthFields_Some s y m :
  monthFields s = Some (y, m) → s = isoMonth y m ∧ 0 <= y <= 9999 ∧ 1 <= m <= 12.
Proof.
  unfold monthFields. destruct (parseYM s) as [[y' m']|] eqn:E; [|done].
  destruct (_ && _) eqn:Hm; [|done]. intros [= <- <-].
  apply parseYM_Some in E as (-> & Hy & _).
  apply andb_true_iff in Hm as [?%Z.leb_le ?%Z.leb_le]. done.
Qed.

Lemma monthIndex_isoMonth y m :
  0 <= y <= 9999 → 0 <= m <= 99 → monthIndex (isoMonth y m) = 12 * y + (m - 1).
Proof.
  intros. unfold monthIndex. rewrite substring_isoMonth by done.
  by rewrite parseYM_isoMonth.
Qed.

Lemma monthIndex_isoDate y m d :
  0 <= y <= 9999 → 0 <= m <= 99 → monthIndex (isoDate y m d) = 12 * y + (m - 1).
Proof.
  intros. unfold monthIndex. rewrite substring_isoDate by done.
  by rewrite parseYM_isoMonth.
Qed.

(** The first day of a well-formed month is a well-formed date. *)
Lemma firstDay_wellFormed s y m :
  monthFields s = Some (y, m) →
  dayOfDate (String.append s "-01") = Some (MakeDay y m 1).
Proof.
  intros (-> & Hy & Hm)%monthFields_Some.
  change "-01" with (String "-" (pad2 1 "")).
  rewrite append_isoMonth by done.
  apply dayOfDate_isoDate; [done|]. by apply validYMD_first.
Qed.

(** A date is before the first day of a month exactly when its month is
    an earlier one, and starts with the month exactly when it is in it. *)
Lemma before_month a n s :
  dayOfDate a = Some n → wellFormedMonth s →
  str_lt a (String.append s "-01") = (monthIndex a <? monthIndex s)
  ∧ startsWith a s = (monthIndex a =? monthIndex s)
  ∧ (monthIndex a < monthIndex s ↔ n < dayNumber (String.append s "-01")).
Proof.
  intros Ha [[y' m'] Hs].
  pose proof (firstDay_wellFormed _ _ _ Hs) as Hfirst.
  rewrite (str_lt_dates _ _ _ _ Ha Hfirst).
  unfold dayNumber. rewrite Hfirst. simpl.
  apply monthFields_Some in Hs as (-> & Hy' & Hm').
  apply dayOfDate_Some in Ha as (y & m & d & -> & Hy & Hv & ->).
  pose proof (validYMD_fields _ _ _ Hv) as Hf.
  rewrite startsWith_isoDate by lia.
  rewrite monthIndex_isoDate, monthIndex_isoMonth by lia.
  pose proof (validYMD_first y' m' Hm') as Hv'.
  pose proof (MakeDay_lt _ _ _ _ _ _ Hv Hv') as Hlt.
  split; [|split].
  - destruct (Z.ltb_spec (MakeDay y m d) (MakeDay y' m' 1));
      symmetry; [apply Z.ltb_lt | apply Z.ltb_ge]; lia.
  - destruct (Z.eqb_spec y y'), (Z.eqb_spec m m'); simpl;
      symmetry; first [apply Z.eqb_eq | apply Z.eqb_neq]; lia.
  - lia.
Qed.

Lemma monthIndex_mono a b n n' :
  dayOfDate a = Some n → dayOfDate b = Some n' → n <= n' →
  monthIndex a <= monthIndex b.
Proof.
  intros (y & m & d & -> & Hy & Hv & ->)%dayOfDate_Some
         (y' & m' & d' & -> & Hy' & Hv' & ->)%dayOfDate_Some Hle.
  pose proof (validYMD_fields _ _ _ Hv). pose proof (validYMD_fields _ _ _ Hv').
  rewrite !monthIndex_isoDate by lia.
  pose proof (MakeDay_lt _ _ _ _ _ _ Hv' Hv). lia.
Qed.

Lemma monthIndex_range a n : dayOfDate a = Some n → 0 <= monthIndex a < 120000.
Proof.
  intros (y & m & d & -> & Hy & Hv & ->)%dayOfDate_Some.
  pose proof (validYMD_fields _ _ _ Hv).
  rewrite monthIndex_isoDate by lia. lia.
Qed.

Lemma monthOfIndex_wellFormed k :
  0 <= k < 120000 →
  monthFields (monthOfIndex k) = Some (k / 12, k mod 12 + 1)
  ∧ monthIndex (monthOfIndex k) = k.
Proof.
  intros Hk. unfold monthOfIndex, monthFields.
  assert (0 <= k / 12 <= 9999 ∧ 0 <= k mod 12 < 12)
    as [? ?] by (Z.to_euclidean_division_equations; lia).
  rewrite parseYM_isoMonth, monthIndex_isoMonth by lia.
  replace ((1 <=? k mod 12 + 1) && (k mod 12 + 1 <=? 12)) with true
    by (symmetry; apply andb_true_iff; split; apply Z.leb_le; lia).
  split; [done|]. Z.to_euclidean_division_equations; lia.
Qed.

(** The month of a date, [date.slice(0, 7)], is the month of its index. *)
Lemma monthOfIndex_date a n :
  dayOfDate a = Some n → monthOfIndex (monthIndex a) = substring 0 7 a.
Proof.
  intros (y & m & d & -> & Hy & Hv & ->)%dayOfDate_Some.
  pose proof (validYMD_fields _ _ _ Hv).
  rewrite monthIndex_isoDate, substring_isoDate by lia.
  unfold monthOfIndex. f_equal; Z.to_euclidean_division_equations; lia.
Qed.

End Months.

(** ** [Array.prototype.sort] *)

Section SortFacts.
Context {A : Type} (cmp : A → A → Z).

Lemma sort_insert_Permutation x l : Js.sort_insert cmp x l ≡ₚ x :: l.
Proof.
  induction l as [|y l IH]; simpl; [done|].
  destruct (cmp x y <=? 0); [done|].
  rewrite IH. apply Permutation_swap.
Qed.

Lemma Array_sort_Permutation l : Js.Array_sort cmp l ≡ₚ l.
Proof.
  induction l as [|x l IH]; simpl; [done|].
  rewrite sort_insert_Permutation. by rewrite IH.
Qed.

(** The comparator orders the elements that satisfy [P] by an integer key. *)
Context (key : A → Z) (P : A → Prop).
Hypothesis cmp_key : ∀ x y, P x → P y → (cmp x y <= 0 ↔ key x <= key y).

Lemma sort_insert_sorted x l :
  P x → Forall P l →
  StronglySorted (λ a b, key a <= key b) l →
  StronglySorted (λ a b, key a <= key b) (Js.sort_insert cmp x l).
Proof.
  intros Hx Hl Hs. induction Hs as [|y l Hs IH Hy]; simpl.
  - repeat constructor.
  - apply Forall_cons in Hl as [Py Hl].
    destruct (Z.leb_spec (cmp x y) 0) as [Hle|Hgt].
    + apply cmp_key in Hle; [|done..].
      constructor; [by constructor|].
      constructor; [done|]. eapply Forall_impl; [exact Hy|]. simpl. lia.
    + constructor; [by apply IH|].
      rewrite sort_insert_Permutation. constructor; [|done].
      destruct (Z.le_gt_cases (key y) (key x)) as [|Hlt]; [done|].
      assert (cmp x y <= 0) by (apply cmp_key; [done..|lia]). lia.
Qed.

Lemma Array_sort_sorted l :
  Forall P l → StronglySorted (λ a b, key a <= key b) (Js.Array_sort cmp l).
Proof.
  induction 1 as [|x l Hx Hl IH]; simpl; [constructor|].
  apply sort_insert_sorted; [done| |done].
  by rewrite Array_sort_Permutation.
Qed.

(** Stability: elements of equal key keep their order. *)
Lemma sort_insert_stable k x l :
  P x → Forall P l →
  filter (λ y, key y = k) (Js.sort_insert cmp x l)
  = filter (λ y, key y = k) (x :: l).
Proof.
  intros Hx Hl. induction Hl as [|y l Hy Hl IH]; simpl; [done|].
  destruct (Z.leb_spec (cmp x y) 0) as [Hle|Hgt]; [done|].
  rewrite filter_cons, IH, !filter_cons.
  destruct (decide (key y = k)) as [Ey|Ey]; [|done].
  destruct (decide (key x = k)) as [Ex|Ex]; [|done].
  assert (cmp x y <= 0) by (apply cmp_key; [done..|lia]). lia.
Qed.

Lemma Array_sort_stable k l :
  Forall P l →
  filter (λ y, key y = k) (Js.Array_sort cmp l) = filter (λ y, key y = k) l.
Proof.
  induction 1 as [|x l Hx Hl IH]; simpl; [done|].
  rewrite sort_insert_stable; [|done|by rewrite Array_sort_Permutation].
  by rewrite !filter_cons, IH.
Qed.

Lemma sorted_strict l :
  StronglySorted (λ a b, key a <= key b) l → NoDup (key <$> l) →
  StronglySorted (λ a b, key a < key b) l.
Proof.
  induction 1 as [|x l Hs IH Hx]; intros Hnd; [constructor|].
  apply NoDup_cons in Hnd as [Hnotin Hnd].
  constructor; [by apply IH|].
  apply Forall_forall. intros y Hy.
  rewrite Forall_forall in Hx. specialize (Hx y Hy). simpl in Hx.
  destruct (decide (key x = key y)) as [E|]; [|lia].
  exfalso. apply Hnotin. rewrite E. by apply list_elem_of_fmap_2.
Qed.

Lemma Array_sort_strict l :
  Forall P l → NoDup (key <$> l) →
  StronglySorted (λ a b, key a < key b) (Js.Array_sort cmp l).
Proof.
  intros Hl Hnd. apply sorted_strict; [by apply Array_sort_sorted|].
  by rewrite Array_sort_Permutation.
Qed.

End SortFacts.

(** * The balance projection *)

Section Projection.
Import BrokerDashboard.

Lemma byDate_key a b :
  wellFormedDate (date a) → wellFormedDate (date b) →
  byDate a b <= 0 ↔ dayNumber (date a) <= dayNumber (date b).
Proof.
  intros [n Ha] [n' Hb]. unfold byDate, compareDates, Js.Date_getTime, dayNumber.
  rewrite Ha, Hb. simpl. unfold Js.msPerDay. lia.
Qed.

Lemma chronological_sorted l :
  wellFormedEntries l →
  StronglySorted (λ a b, dayNumber (date a) <= dayNumber (date b))
                 (Js.Array_sort byDate l).
Proof.
  apply (Array_sort_sorted byDate (λ e, dayNumber (date e))
           (λ e, wellFormedDate (date e))).
  intros. by apply byDate_key.
Qed.

Lemma chronological_wellFormed l :
  wellFormedEntries l → wellFormedEntries (Js.Array_sort byDate l).
Proof. unfold wellFormedEntries. by rewrite Array_sort_Permutation. Qed.

Lemma dayNumber_inj a b :
  wellFormedDate a → wellFormedDate b → dayNumber a = dayNumber b → a = b.
Proof.
  intros [n Ha] [n' Hb]. unfold dayNumber. rewrite Ha, Hb. simpl. intros <-.
  by eapply dayOfDate_inj.
Qed.

Lemma distinct_days l :
  wellFormedEntries l → distinctDates l →
  NoDup ((λ e, dayNumber (date e)) <$> l).
Proof.
  unfold distinctDates. induction 1 as [|e l He Hl IH]; simpl; [constructor|].
  rewrite !NoDup_cons. intros [Hnotin Hnd]. split; [|by apply IH].
  intros (e' & Heq & Hin)%list_elem_of_fmap. apply Hnotin.
  rewrite Forall_forall in Hl.
  rewrite (dayNumber_inj _ _ He (Hl _ Hin) Heq).
  by apply (list_elem_of_fmap_2 date).
Qed.

Lemma chronological_strict l :
  wellFormedEntries l → distinctDates l →
  StronglySorted (λ a b, dayNumber (date a) < dayNumber (date b))
                 (Js.Array_sort byDate l).
Proof.
  intros Hwf Hnd.
  apply (Array_sort_strict byDate (λ e, dayNumber (date e))
           (λ e, wellFormedDate (date e))); [|done|by apply distinct_days].
  intros. by apply byDate_key.
Qed.

(** *** The fold *)

Lemma entry_mapWithBalance b l : entry <$> mapWithBalance b l = l.
Proof. revert b. induction l as [|e l IH]; intros b; simpl; [done|]. by rewrite IH. Qed.

Lemma mapWithBalance_app b l1 l2 :
  mapWithBalance b (l1 ++ l2)
  = mapWithBalance b l1 ++ mapWithBalance (b + sumDelta l1) l2.
Proof.
  revert b. induction l1 as [|e l1 IH]; intros b; simpl.
  - by rewrite Z.add_0_r.
  - rewrite IH. unfold leadDelta. do 3 f_equal. lia.
Qed.

Lemma mapWithBalance_end b l x :
  x ∈ mapWithBalance b l →
  endOfDayBalance x = startOfDayBalance x + leadDelta (entry x).
Proof.
  revert b. induction l as [|e l IH]; intros b; simpl; [by intros ?%elem_of_nil|].
  intros [->|Hin]%elem_of_cons; [simpl; unfold leadDelta; lia|]. by eapply IH.
Qed.

Lemma mapWithBalance_head b l x :
  mapWithBalance b l !! 0%nat = Some x → startOfDayBalance x = b.
Proof. destruct l; simpl; [done|]. by intros [= <-]. Qed.

Lemma mapWithBalance_next b l i x y :
  mapWithBalance b l !! i = Some x → mapWithBalance b l !! S i = Some y →
  startOfDayBalance y = endOfDayBalance x.
Proof.
  revert b i. induction l as [|e l IH]; intros b i; simpl; [done|].
  destruct i as [|i]; simpl.
  - intros [= <-] Hy. simpl. by apply mapWithBalance_head in Hy.
  - apply IH.
Qed.

Lemma mapWithBalance_last b l :
  endOfDayBalance <$> last (mapWithBalance b l)
  = if l is [] then None else Some (b + sumDelta l).
Proof.
  revert b. induction l as [|e l IH]; intros b; [done|].
  change (mapWithBalance b (e :: l)) with
    ({| entry := e; startOfDayBalance := b;
        endOfDayBalance := b + newLeads e + orZero (repiqueLeads e)
                           - discardedLeads e - signedLeads e |}
     :: mapWithBalance (b + newLeads e + orZero (repiqueLeads e)
                        - discardedLeads e - signedLeads e) l).
  destruct l as [|e' l].
  - simpl. unfold leadDelta. f_equal. lia.
  - rewrite last_cons. specialize (IH (b + newLeads e + orZero (repiqueLeads e)
                        - discardedLeads e - signedLeads e)).
    destruct (last (mapWithBalance _ (e' :: l))) as [x|] eqn:E; simpl in *; [|done].
    injection IH as ->. f_equal. unfold leadDelta. lia.
Qed.

(** *** Sorted lists split at a day *)

Lemma sorted_split (l : list DailyEntry) (f : Z) :
  StronglySorted (λ a b, dayNumber (date a) <= dayNumber (date b)) l →
  ∃ pre post, l = pre ++ post
    ∧ Forall (λ e, dayNumber (date e) < f) pre
    ∧ Forall (λ e, f <= dayNumber (date e)) post.
Proof.
  induction 1 as [|e l Hs IH He].
  - by exists [], [].
  - destruct (Z.lt_ge_cases (dayNumber (date e)) f) as [Hlt|Hge].
    + destruct IH as (pre & post & -> & Hpre & Hpost).
      exists (e :: pre), post. split; [done|]. split; [by constructor|done].
    + exists [], (e :: l). split; [done|]. split; [constructor|].
      constructor; [done|]. eapply Forall_impl; [exact He|]. simpl. lia.
Qed.

Lemma leadBaseBefore_split firstDay f b pre post :
  Js.dayOfDate firstDay = Some f →
  wellFormedEntries pre → wellFormedEntries post →
  Forall (λ e, dayNumber (date e) < f) pre →
  Forall (λ e, f <= dayNumber (date e)) post →
  leadBaseBefore firstDay b (pre ++ post) = b + sumDelta pre.
Proof.
  intros Hf Hwpre Hwpost Hpre Hpost. revert b.
  induction Hwpre as [|e pre [n He] Hw IH]; intros b; simpl.
  - destruct Hwpost as [|e post [n He] _]; simpl; [lia|].
    apply Forall_cons in Hpost as [Hge _].
    unfold dayNumber in Hge. rewrite He in Hge. simpl in Hge.
    rewrite (str_lt_dates _ _ _ _ He Hf).
    destruct (Z.ltb_spec n f); lia.
  - apply Forall_cons in Hpre as [Hlt Hpre].
    unfold dayNumber in Hlt. rewrite He in Hlt. simpl in Hlt.
    rewrite (str_lt_dates _ _ _ _ He Hf).
    destruct (Z.ltb_spec n f); [|lia].
    rewrite IH by done. unfold leadDelta. lia.
Qed.

Lemma filter_all {A} (Q : A → Prop) `{!∀ x, Decision (Q x)} (l : list A) :
  Forall Q l → filter Q l = l.
Proof.
  induction 1 as [|x l Hx Hl IH]; [done|].
  by rewrite filter_cons_True, IH.
Qed.

Lemma filter_none {A} (Q : A → Prop) `{!∀ x, Decision (Q x)} (l : list A) :
  Forall (λ x, ¬ Q x) l → filter Q l = [].
Proof.
  induction 1 as [|x l Hx Hl IH]; [done|].
  by rewrite filter_cons_False, IH.
Qed.

Lemma Forall_mapWithBalance (P : DailyEntry → Prop) b l :
  Forall P l → Forall (λ x, P (entry x)) (mapWithBalance b l).
Proof.
  intros Hl. revert b.
  induction Hl as [|e l He Hl IH]; intros b; simpl; by constructor.
Qed.

Lemma mapWithBalance_sorted (R : relation DailyEntry) b l :
  StronglySorted R l →
  StronglySorted (λ x y, R (entry x) (entry y)) (mapWithBalance b l).
Proof.
  intros Hs. revert b. induction Hs as [|e l Hs IH He]; intros b; simpl.
  - constructor.
  - constructor; [apply IH|]. by apply (Forall_mapWithBalance (R e)).
Qed.

Lemma StronglySorted_rev {A} (R : relation A) l :
  StronglySorted R l → StronglySorted (flip R) (rev l).
Proof.
  induction 1 as [|x l Hs IH Hx]; simpl; [constructor|].
  apply StronglySorted_app_2; [|done|repeat constructor].
  intros y z Hy Hz%list_elem_of_singleton. subst z. unfold flip.
  rewrite Forall_forall in Hx. apply Hx.
  by rewrite list_elem_of_In, <- in_rev, <- list_elem_of_In in Hy.
Qed.

End Projection.

(** * The monthly summary *)

Section Monthly.
Import BrokerDashboard.

Lemma foldl_add {A} (f : A → Z) a l :
  foldl (λ s e, s + f e) a l = a + foldr (λ e s, f e + s) 0 l.
Proof.
  revert a. induction l as [|x l IH]; intros a; simpl; [lia|]. rewrite IH. lia.
Qed.

Lemma sumDelta_fields l :
  sumDelta l
  = foldr (λ e s, newLeads e + s) 0 l + foldr (λ e s, orZero (repiqueLeads e) + s) 0 l
    - foldr (λ e s, discardedLeads e + s) 0 l - foldr (λ e s, signedLeads e + s) 0 l.
Proof. induction l as [|e l IH]; simpl; [done|]. unfold leadDelta. lia. Qed.

Lemma sumDelta_app l1 l2 : sumDelta (l1 ++ l2) = sumDelta l1 + sumDelta l2.
Proof. induction l1 as [|e l1 IH]; simpl; [done|]. lia. Qed.

Lemma List_filter_decide {A} (f : A → bool) (Q : A → Prop) `{!∀ x, Decision (Q x)}
    (l : list A) :
  Forall (λ x, f x = true ↔ Q x) l → List.filter f l = filter Q l.
Proof.
  induction 1 as [|x l Hx Hl IH]; simpl; [done|].
  rewrite filter_cons, IH.
  destruct (decide (Q x)) as [HQ|HQ].
  - apply Hx in HQ. by rewrite HQ.
  - destruct (f x) eqn:E; [|done]. exfalso. apply HQ, Hx. done.
Qed.

Lemma sumBefore_succ k l :
  sumBefore (k + 1) l
  = sumBefore k l + sumDelta (filter (λ e, monthIndex (date e) = k) l).
Proof.
  unfold sumBefore. induction l as [|e l IH]; simpl; [done|].
  rewrite !filter_cons.
  destruct (decide (monthIndex (date e) < k + 1)),
           (decide (monthIndex (date e) < k)),
           (decide (monthIndex (date e) = k)); simpl; lia.
Qed.

Section Summary.
Context (p : BrokerProfile) (selectedMonth : string).
Hypothesis wf_entries : wellFormedEntries (dailyEntries p).
Hypothesis wf_month : wellFormedMonth selectedMonth.

Local Abbreviation sorted := (Js.Array_sort byDate (dailyEntries p)).
Local Abbreviation k := (monthIndex selectedMonth).

Lemma summary_initial :
  initialLeadsForMonth (monthlySummary p selectedMonth)
  = initialLeads p + sumBefore k sorted.
Proof.
  destruct wf_month as [[y m] Hm].
  pose proof (firstDay_wellFormed _ _ _ Hm) as Hfirst.
  unfold monthlySummary. simpl.
  pose proof (chronological_wellFormed _ wf_entries) as Hwf'.
  destruct (sorted_split _ (Js.MakeDay y m 1) (chronological_sorted _ wf_entries))
    as (pre & post & Hsplit & Hpre & Hpost).
  rewrite Hsplit in *.
  apply Forall_app in Hwf' as [Hwpre Hwpost].
  rewrite (leadBaseBefore_split _ _ _ _ _ Hfirst Hwpre Hwpost Hpre Hpost).
  f_equal. unfold sumBefore. rewrite filter_app, sumDelta_app.
  assert (Hd : dayNumber (String.append selectedMonth "-01") = Js.MakeDay y m 1)
    by (unfold dayNumber; by rewrite Hfirst).
  rewrite filter_all, filter_none; [simpl; lia|..].
  - apply Forall_forall. intros e He.
    rewrite Forall_forall in Hwpost, Hpost.
    destruct (Hwpost e He) as [n Hn]. specialize (Hpost e He). simpl in Hpost.
    destruct (before_month _ _ _ Hn wf_month) as (_ & _ & Hiff).
    unfold dayNumber in Hpost at 1. rewrite Hn in Hpost. simpl in Hpost.
    lia.
  - apply Forall_forall. intros e He.
    rewrite Forall_forall in Hwpre, Hpre.
    destruct (Hwpre e He) as [n Hn]. specialize (Hpre e He). simpl in Hpre.
    destruct (before_month _ _ _ Hn wf_month) as (_ & _ & Hiff).
    unfold dayNumber in Hpre at 1. rewrite Hn in Hpre. simpl in Hpre.
    lia.
Qed.

Lemma summary_month :
  let s := monthlySummary p selectedMonth in
  monthNewLeads s + monthRepiqueLeads s - monthDiscardedLeads s - monthSignedLeads s
  = sumDelta (filter (λ e, monthIndex (date e) = k) sorted).
Proof.
  unfold monthlySummary. simpl.
  rewrite (List_filter_decide _ (λ e, monthIndex (date e) = k)).
  - rewrite !foldl_add, sumDelta_fields. lia.
  - pose proof (chronological_wellFormed _ wf_entries) as Hwf'.
    eapply Forall_impl; [exact Hwf'|]. intros e [n Hn]. simpl.
    destruct (before_month _ _ _ Hn wf_month) as (_ & -> & _).
    apply Z.eqb_eq.
Qed.

Lemma summary_final :
  finalLeadsForMonth (monthlySummary p selectedMonth)
  = initialLeads p + sumBefore (k + 1) sorted.
Proof.
  pose proof summary_initial as Hi. pose proof summary_month as Hm.
  rewrite sumBefore_succ.
  unfold monthlySummary in *. simpl in *. lia.
Qed.
End Summary.

End Monthly.

(** * Months aggregated in order *)

Section Aggregation.
Import BrokerDashboard.
Context (p : BrokerProfile).
Hypothesis wf_entries : wellFormedEntries (dailyEntries p).

Local Abbreviation sorted := (Js.Array_sort byDate (dailyEntries p)).

Lemma monthOfIndex_month k : 0 <= k < 120000 → wellFormedMonth (monthOfIndex k).
Proof. intros Hk. destruct (monthOfIndex_wellFormed k Hk) as [H _]. by eexists. Qed.

Lemma aggregate_from n k b :
  0 <= k → k + Z.of_nat n <= 120000 →
  foldl (λ balance m,
           let s := monthlySummary p m in
           balance + monthNewLeads s + monthRepiqueLeads s
           - monthDiscardedLeads s - monthSignedLeads s)
        b (monthOfIndex <$> seqZ k (Z.of_nat n))
  = b + sumBefore (k + Z.of_nat n) sorted - sumBefore k sorted.
Proof.
  revert k b. induction n as [|n IH]; intros k b Hk Hn.
  - simpl. rewrite Z.add_0_r. lia.
  - rewrite seqZ_cons by lia. cbn [fmap list_fmap foldl].
    replace (Z.pred (Z.of_nat (S n))) with (Z.of_nat n) by lia.
    rewrite IH by lia.
    assert (Hk' : 0 <= k < 120000) by lia.
    pose proof (summary_month p (monthOfIndex k) wf_entries (monthOfIndex_month k Hk')) as Hm.
    cbv zeta in Hm.
    rewrite (proj2 (monthOfIndex_wellFormed k Hk')) in Hm.
    replace (Z.succ k + Z.of_nat n) with (k + Z.of_nat (S n)) by lia.
    replace (Z.succ k) with (k + 1) by lia.
    rewrite (sumBefore_succ k). lia.
Qed.

(** The oldest and the latest entry bound the months of all entries. *)
Lemma months_bounded oldest latest :
  head (csvChronologicalEntries p) = Some oldest →
  last (csvChronologicalEntries p) = Some latest →
  Forall (λ e, monthIndex (date (entry oldest)) <= monthIndex (date e)
               <= monthIndex (date (entry latest))) sorted
  ∧ wellFormedDate (date (entry oldest)) ∧ wellFormedDate (date (entry latest))
  ∧ endOfDayBalance latest = initialLeads p + sumDelta sorted.
Proof.
  unfold csvChronologicalEntries, entriesWithCalculatedBalances.
  rewrite rev_involutive.
  intros Hhead Hlast.
  pose proof (chronological_wellFormed _ wf_entries) as Hwf.
  pose proof (chronological_sorted _ wf_entries) as Hs.
  pose proof (mapWithBalance_last (initialLeads p) sorted) as Hend.
  rewrite Hlast in Hend. simpl in Hend.
  assert (Hol : entry oldest ∈ sorted ∧ entry latest ∈ sorted).
  { rewrite <- (entry_mapWithBalance (initialLeads p) sorted).
    split; apply list_elem_of_fmap_2.
    - by apply head_Some_elem_of.
    - by apply last_Some_elem_of. }
  destruct Hol as [Ho Hl].
  unfold wellFormedEntries in Hwf. rewrite Forall_forall in Hwf.
  pose proof (Hwf _ Ho) as Hwo. pose proof (Hwf _ Hl) as Hwl.
  split; [|split; [done|split; [done|]]].
  - apply Forall_forall. intros e He.
    destruct (Hwf _ He) as [n Hn]. destruct Hwo as [no Hno]. destruct Hwl as [nl Hnl].
    assert (Hoe : dayNumber (date (entry oldest)) <= dayNumber (date e)).
    { apply head_Some in Hhead as [rest Hrest].
      destruct sorted as [|e0 l0] eqn:Es; [done|]. simpl in Hrest.
      injection Hrest as <- _. simpl in *.
      apply StronglySorted_cons in Hs as [Hall _].
      apply elem_of_cons in He as [->|He]; [lia|].
      rewrite Forall_forall in Hall. by apply Hall. }
    assert (Hel : dayNumber (date e) <= dayNumber (date (entry latest))).
    { apply last_Some in Hlast as [rest Hrest].
      apply (f_equal (fmap entry)) in Hrest.
      rewrite entry_mapWithBalance, fmap_app in Hrest. simpl in Hrest.
      rewrite Hrest in Hs, He.
      apply elem_of_app in He as [He|He%list_elem_of_singleton]; [|subst; lia].
      eapply (StronglySorted_app_1_elem_of _ _ _ _ _ Hs); [done|].
      by apply list_elem_of_singleton. }
    unfold dayNumber in Hoe, Hel. rewrite Hn, Hno in Hoe. rewrite Hn, Hnl in Hel.
    simpl in *.
    split; eapply monthIndex_mono; eauto.
  - destruct sorted; [done|]. by injection Hend as ->.
Qed.

End Aggregation.

(** * The ranking *)

Section Ranking.
Import BrokerManagement.

Lemma totalSales_withTotalSales b : totalSales (withTotalSales b) = sumSigned b.
Proof. unfold withTotalSales, sumSigned. simpl. rewrite foldl_add. lia. Qed.

(** The brokers with sales, annotated, before they are sorted. *)
Lemma with_sales_filter (Q : Z → Prop) `{!∀ k, Decision (Q k)}
    (bs : list BrokerProfile) :
  filter (λ r, Q (totalSales r)) (withTotalSales <$> bs)
  = withTotalSales <$> filter (λ b, Q (sumSigned b)) bs.
Proof.
  induction bs as [|b bs IH]; [done|].
  rewrite fmap_cons, !filter_cons, IH, totalSales_withTotalSales.
  by destruct (decide (Q (sumSigned b))).
Qed.

Lemma rankedBrokers_unfold (bs : list BrokerProfile) :
  rankedBrokers bs
  = Js.Array_sort (λ a b, totalSales b - totalSales a)
      (withTotalSales <$> filter (λ b, 0 < sumSigned b) bs).
Proof.
  unfold rankedBrokers. f_equal.
  rewrite <- (with_sales_filter (λ k, 0 < k)).
  apply List_filter_decide, Forall_forall. intros r _. apply Z.ltb_lt.
Qed.

Lemma StronglySorted_weaken {A} (R R' : relation A) l :
  (∀ x y, R x y → R' x y) → StronglySorted R l → StronglySorted R' l.
Proof.
  intros HR. induction 1 as [|x l Hs IH Hx]; constructor; [done|].
  eapply Forall_impl; [exact Hx|]. apply HR.
Qed.

Lemma ranking_key (a b : RankedBroker) :
  True → True → totalSales b - totalSales a <= 0 ↔ - totalSales a <= - totalSales b.
Proof. lia. Qed.

Lemma ranked_stable k (l : list RankedBroker) :
  filter (λ r, totalSales r = k) (Js.Array_sort (λ a b, totalSales b - totalSales a) l)
  = filter (λ r, totalSales r = k) l.
Proof.
  etrans; [apply (list_filter_iff _ (λ r, - totalSales r = - k)); intros; lia|].
  etrans; [|apply (list_filter_iff (λ r, - totalSales r = - k)); intros; lia].
  apply (Array_sort_stable _ (λ r, - totalSales r) _ ranking_key (- k)).
  by apply Forall_forall.
Qed.

Lemma ties_in_store_order k (bs : list BrokerProfile) :
  broker <$> filter (λ r, totalSales r = k) (withTotalSales <$> bs)
  = filter (λ b, sumSigned b = k) bs.
Proof.
  induction bs as [|b bs IH]; [done|].
  rewrite fmap_cons, !filter_cons, totalSales_withTotalSales.
  destruct (decide (sumSigned b = k)); [|done].
  rewrite fmap_cons, IH. done.
Qed.

End Ranking.

(** * The store *)

Section Store.
Import App.
Context {lc : Js.LowerCase}.

Lemma existsb_sameName name (bs : list BrokerProfile) :
  existsb (λ b, sameNameIgnoringCase (brokerName b) name) bs = true
  ↔ ∃ b, b ∈ bs ∧ Js.toLowerCase (brokerName b) = Js.toLowerCase name.
Proof.
  rewrite existsb_exists. unfold sameNameIgnoringCase.
  split; intros (b & Hin & Heq); exists b.
  - by rewrite list_elem_of_In, <- String.eqb_eq.
  - by rewrite <- list_elem_of_In, String.eqb_eq.
Qed.

(** *** Upsert and delete on one profile *)

Lemma saveEntryIn_append b e :
  date e ∉ date <$> dailyEntries b →
  dailyEntries (saveEntryIn b e) = dailyEntries b ++ [e].
Proof.
  intros Hnotin. unfold saveEntryIn. simpl.
  destruct (list_find _ _) as [[i old]|] eqn:E; [|done].
  apply list_find_Some in E as (Hi & Hd & _).
  exfalso. apply Hnotin. rewrite <- Hd.
  apply list_elem_of_fmap_2. by eapply list_elem_of_lookup_2.
Qed.

Lemma saveEntryIn_replace b e i old :
  distinctDates (dailyEntries b) →
  dailyEntries b !! i = Some old → date old = date e →
  dailyEntries (saveEntryIn b e) = <[i := e]> (dailyEntries b).
Proof.
  intros Hnd Hi Hd. unfold saveEntryIn. simpl.
  destruct (list_find _ _) as [[j old']|] eqn:E.
  - apply list_find_Some in E as (Hj & Hd' & _).
    f_equal. eapply (NoDup_lookup _ _ _ (date e) Hnd);
      rewrite list_lookup_fmap; [rewrite Hj|rewrite Hi]; simpl; congruence.
  - apply list_find_None in E. rewrite Forall_forall in E.
    exfalso. apply (E old); [by eapply list_elem_of_lookup_2|done].
Qed.

Lemma saveEntryIn_distinct b e :
  distinctDates (dailyEntries b) → distinctDates (dailyEntries (saveEntryIn b e)).
Proof.
  intros Hnd. unfold saveEntryIn, distinctDates in *. simpl.
  destruct (list_find _ _) as [[i old]|] eqn:E.
  - apply list_find_Some in E as (Hi & Hd & _).
    rewrite list_fmap_insert, list_insert_id; [done|].
    by rewrite list_lookup_fmap, Hi, <- Hd.
  - apply list_find_None in E.
    rewrite fmap_app. simpl. apply NoDup_app. split; [done|]. split.
    + intros d (e' & -> & Hin)%list_elem_of_fmap Hd%list_elem_of_singleton.
      rewrite Forall_forall in E. by apply (E e').
    + apply NoDup_singleton.
Qed.

Lemma deleteEntryIn_elem_of b d e :
  e ∈ dailyEntries (deleteEntryIn b d) ↔ e ∈ dailyEntries b ∧ date e ≠ d.
Proof. unfold deleteEntryIn. simpl. rewrite list_elem_of_filter. tauto. Qed.

Lemma deleteEntryIn_distinct b d :
  distinctDates (dailyEntries b) → distinctDates (dailyEntries (deleteEntryIn b d)).
Proof.
  unfold deleteEntryIn, distinctDates. simpl.
  intros Hnd. eapply sublist_NoDup; [exact Hnd|].
  apply fmap_sublist, sublist_filter.
Qed.

(** *** The map over the store *)

Lemma mapSelected_invariant (f : BrokerProfile → BrokerProfile) st :
  (∀ b, distinctDates (dailyEntries b) → distinctDates (dailyEntries (f b))) →
  oneEntryPerDate st → oneEntryPerDate (mapSelected f st).
Proof.
  intros Hf [Hall Hsel]. unfold mapSelected.
  destruct (selectedBroker st) as [sel|] eqn:Es; [|split; [done|by rewrite Es]].
  split; simpl.
  - apply Forall_fmap. eapply Forall_impl; [exact Hall|].
    intros b Hb. simpl. destruct (String.eqb _ _); [apply Hf|]; exact Hb.
  - destruct (last _) as [b|] eqn:El; simpl; [|done].
    apply Hf. apply last_Some_elem_of in El.
    rewrite list_elem_of_In, filter_In, <- list_elem_of_In in El.
    rewrite Forall_forall in Hall. apply Hall, El.
Qed.

End Store.

(** * The backup import *)

Section BackupImport.
Import Json BrokerManagement.

Lemma validItem_wellShaped item :
  validItem item = Normal true ↔ wellShapedItem item.
Proof.
  unfold validItem, wellShapedItem. split.
  - destruct item as [| | | | |props]; simpl; try done.
    destruct (lookupProp "brokerName" props) as [[| | |name| |]|] eqn:E1; simpl; try done.
    destruct (lookupProp "initialLeads" props) as [[| |n| | |]|] eqn:E2; simpl; try done.
    destruct (lookupProp "dailyEntries" props) as [[| | | |entries|]|] eqn:E3; simpl; try done.
    intros _. by exists props, name, n, entries.
  - intros (props & name & n & entries & -> & E1 & E2 & E3). simpl.
    by rewrite E1, E2, E3.
Qed.

Lemma every_validItem items :
  every validItem items = Normal true ↔ Forall wellShapedItem items.
Proof.
  induction items as [|item items IH]; simpl.
  - split; [constructor|done].
  - rewrite Forall_cons, <- IH, <- validItem_wellShaped.
    destruct (validItem item) as [[|]|]; simpl; split; try done; try tauto;
      by intros [? _].
Qed.

Lemma isValid_wellShaped data : isValid data = Normal true ↔ wellShaped data.
Proof.
  unfold wellShaped. split.
  - destruct data as [| | | |items|]; simpl; try done.
    intros H%every_validItem. by exists items.
  - intros (items & -> & H). by apply every_validItem.
Qed.

End BackupImport.

(** * The bulk edit *)

Section Bulk.
Import BrokerDashboard.

(** West of Greenwich the ISO date of a local midnight is the local date. *)
Lemma toISODate_local_midnight tza d :
  - Js.msPerDay < tza <= 0 →
  Js.toISODate (d * Js.msPerDay - tza) = Js.toISODate (d * Js.msPerDay).
Proof.
  intros Htz. unfold Js.toISODate.
  rewrite Day_local_midnight by done.
  replace (Js.Day (d * Js.msPerDay)) with d; [done|].
  unfold Js.Day. by rewrite Z.div_mul.
Qed.

(** The instants of local midnight go up with the days, where the zone is
    at or west of Greenwich. *)
Lemma UTC_midnight_lt tz d d' :
  westAtMidnight tz d → westAtMidnight tz d' → d < d' →
  Js.UTC tz (d * Js.msPerDay) < Js.UTC tz (d' * Js.msPerDay).
Proof. unfold westAtMidnight, Js.UTC, Js.msPerDay. lia. Qed.

(** The loop visits the days from [s] to [e], one turn each, when local
    midnight is at or west of Greenwich from day [s0] to the day after [e]
    and exists on the days from [s0] to [e]. *)
Lemma bulkLoop_days tz p form (s0 e : Z) :
  s0 <= e →
  (∀ d, s0 <= d <= e + 1 → westAtMidnight tz d) →
  (∀ d, s0 <= d <= e → midnightExists tz d) →
  ∀ (n turns : nat) (s : Z),
  s0 <= s → Z.of_nat n = e - s + 1 → (n <= turns)%nat →
  bulkLoop turns tz p form (Js.UTC tz (s * Js.msPerDay)) (Js.UTC tz (e * Js.msPerDay))
  = Some ((λ d, updatedEntry p form (Js.toISODate (d * Js.msPerDay)))
            <$> seqZ s (e - s + 1)).
Proof.
  intros Hse Hwest Hmid. induction n as [|n IH]; intros turns s Hs0 Hn Hturns.
  - rewrite seqZ_nil by lia.
    assert (Hgt : (Js.UTC tz (s * Js.msPerDay) <=? Js.UTC tz (e * Js.msPerDay)) = false).
    { apply Z.leb_gt. apply UTC_midnight_lt; [apply Hwest..|]; lia. }
    destruct turns; simpl; by rewrite Hgt.
  - destruct turns as [|turns]; [lia|].
    assert (Hle : (Js.UTC tz (s * Js.msPerDay) <=? Js.UTC tz (e * Js.msPerDay)) = true).
    { apply Z.leb_le. destruct (decide (s = e)) as [->|Hne]; [done|].
      apply Z.lt_le_incl, UTC_midnight_lt; [apply Hwest..|]; lia. }
    cbn [bulkLoop]. rewrite Hle.
    rewrite setDate_next, (Hmid s) by lia.
    replace (s * Js.msPerDay + Js.msPerDay) with ((s + 1) * Js.msPerDay) by ring.
    rewrite (IH turns (s + 1)) by lia.
    unfold Js.UTC at 1. rewrite toISODate_local_midnight by (apply Hwest; lia).
    rewrite (seqZ_cons s) by lia. cbn [fmap option_fmap option_map list_fmap].
    repeat f_equal; lia.
Qed.

(** A zone whose clock never changes meets both conditions when its offset
    is at or west of Greenwich. *)
Lemma fixedOffset_midnights tza d :
  - Js.msPerDay < tza <= 0 →
  westAtMidnight (fixedOffset tza) d ∧ midnightExists (fixedOffset tza) d.
Proof.
  intros Htz. split; [exact Htz|].
  unfold midnightExists, Js.LocalTime, Js.UTC. simpl. lia.
Qed.

(** *** The entry written for a day *)

Lemma find_existing (l : list DailyEntry) old :
  distinctDates l → old ∈ l →
  find (λ e, String.eqb (date e) (date old)) l = Some old.
Proof.
  unfold distinctDates. induction l as [|e l IH]; simpl; [by intros _ ?%elem_of_nil|].
  rewrite NoDup_cons. intros [Hnotin Hnd] [->|Hin]%elem_of_cons.
  - by rewrite String.eqb_refl.
  - destruct (String.eqb_spec (date e) (date old)) as [E|_]; [|by apply IH].
    exfalso. apply Hnotin. rewrite E. by apply (list_elem_of_fmap_2 date).
Qed.

Lemma find_missing (l : list DailyEntry) d :
  (∀ old, old ∈ l → date old ≠ d) →
  find (λ e, String.eqb (date e) d) l = None.
Proof.
  induction l as [|e l IH]; simpl; [done|]. intros Hall.
  destruct (String.eqb_spec (date e) d) as [E|_].
  - exfalso. by apply (Hall e); [apply list_elem_of_here|].
  - apply IH. intros old Hin. apply Hall. by apply list_elem_of_further.
Qed.

Lemma getField_updatedEntry p form d key :
  getField key (updatedEntry p form d)
  = Some (bulkValue form (find (λ e, String.eqb (date e) d) (dailyEntries p)) key).
Proof. by destruct key. Qed.

End Bulk.

(** * The claims of the specification *)

Section LedgerClaims.
Import BrokerDashboard.

(** Claim C1.  For every profile whose entries carry pairwise-distinct
    calendar dates, and for any [initialLeads], the balance projection
    holds the entries sorted ascending by date (its result read from the
    oldest entry on) and folds them from the left, starting from
    [initialLeads]: the first entry starts the day with [initialLeads],
    every entry ends the day with its start balance plus [newLeads] plus
    [repiqueLeads] (0 when absent) minus [discardedLeads] minus
    [signedLeads], and that end balance is the start balance of the next
    entry.  On the example of the specification the balances are 100 and 107
    on the first day and 107 and 113 on the second; nothing clamps the
    balance, which goes from 3 to -2 when five leads are discarded. *)
Theorem balance_projection_fold :
  (∀ p : BrokerProfile,
     wellFormedEntries (dailyEntries p) → distinctDates (dailyEntries p) →
     let chron := rev (entriesWithCalculatedBalances p) in
     entry <$> chron ≡ₚ dailyEntries p
     ∧ StronglySorted (λ a b, dayNumber (date a) < dayNumber (date b)) (entry <$> chron)
     ∧ (∀ x, chron !! 0%nat = Some x → startOfDayBalance x = initialLeads p)
     ∧ (∀ x, x ∈ chron →
          endOfDayBalance x
          = startOfDayBalance x + newLeads (entry x) + orZero (repiqueLeads (entry x))
            - discardedLeads (entry x) - signedLeads (entry x))
     ∧ (∀ i x y, chron !! i = Some x → chron !! S i = Some y →
          startOfDayBalance y = endOfDayBalance x))
  ∧ (λ x, (date (entry x), startOfDayBalance x, endOfDayBalance x))
      <$> rev (entriesWithCalculatedBalances sampleProfile)
    = [("2024-03-01", 100, 107); ("2024-03-02", 107, 113)]
  ∧ (λ x, (startOfDayBalance x, endOfDayBalance x))
      <$> entriesWithCalculatedBalances overdrawnProfile
    = [(3, -2)].
Proof.
  split; [|split; vm_compute; reflexivity].
  intros p Hwf Hnd chron. subst chron.
  unfold entriesWithCalculatedBalances. rewrite rev_involutive.
  rewrite entry_mapWithBalance.
  split; [apply Array_sort_Permutation|].
  split; [by apply chronological_strict|].
  split; [apply mapWithBalance_head|].
  split.
  - intros x Hx. rewrite (mapWithBalance_end _ _ _ Hx). unfold leadDelta. lia.
  - apply mapWithBalance_next.
Qed.

(** The example of the specification satisfies the hypotheses of C1. *)
Lemma balance_projection_fold_sample :
  wellFormedEntries (dailyEntries sampleProfile)
  ∧ distinctDates (dailyEntries sampleProfile)
  ∧ ∀ x, rev (entriesWithCalculatedBalances sampleProfile) !! 0%nat = Some x →
         startOfDayBalance x = 100.
Proof.
  assert (Hwf : wellFormedEntries (dailyEntries sampleProfile))
    by (repeat constructor; by eexists).
  assert (Hnd : distinctDates (dailyEntries sampleProfile))
    by (apply (bool_decide_unpack _); vm_compute; exact I).
  split; [exact Hwf|]. split; [exact Hnd|].
  exact (proj1 (proj2 (proj2 (proj1 balance_projection_fold sampleProfile Hwf Hnd)))).
Defined.

(** Claim C2.  For every profile with at least one entry, the end-of-day
    balance of the last chronological entry is the balance reached by
    aggregating the months in order, from the month of the first entry
    through the month of the last one, each month starting from the end
    balance of the month before; it is the [finalLeadsForMonth] that
    [monthlySummary] gives for the month of the last entry.  The chain is
    the one the code computes: the first month starts from [initialLeads]
    and every later month starts from the [finalLeadsForMonth] of its
    predecessor. *)
Theorem last_balance_is_aggregated_month_end
    (p : BrokerProfile) (oldest latest : EntryWithBalance) :
  wellFormedEntries (dailyEntries p) →
  head (csvChronologicalEntries p) = Some oldest →
  last (csvChronologicalEntries p) = Some latest →
  let months := monthsFromTo (date (entry oldest)) (date (entry latest)) in
  let lastMonth := substring 0 7 (date (entry latest)) in
  aggregateMonths p months = endOfDayBalance latest
  ∧ last months = Some lastMonth
  ∧ finalLeadsForMonth (monthlySummary p lastMonth) = endOfDayBalance latest
  ∧ (∀ m, head months = Some m →
       initialLeadsForMonth (monthlySummary p m) = initialLeads p)
  ∧ (∀ i m m', months !! i = Some m → months !! S i = Some m' →
       initialLeadsForMonth (monthlySummary p m')
       = finalLeadsForMonth (monthlySummary p m)).
Proof.
  intros Hwf Hhead Hlast months lastMonth.
  destruct (months_bounded p Hwf oldest latest Hhead Hlast)
    as (Hall & [no Hno] & [nl Hnl] & Hend).
  set (sorted := Js.Array_sort byDate (dailyEntries p)) in *.
  set (k0 := monthIndex (date (entry oldest))) in *.
  set (k1 := monthIndex (date (entry latest))) in *.
  pose proof (monthIndex_range _ _ Hno) as Hk0. fold k0 in Hk0.
  pose proof (monthIndex_range _ _ Hnl) as Hk1. fold k1 in Hk1.
  assert (Hk01 : k0 <= k1).
  { assert (Hin : entry latest ∈ sorted).
    { unfold csvChronologicalEntries, entriesWithCalculatedBalances in Hlast.
      rewrite rev_involutive in Hlast.
      rewrite <- (entry_mapWithBalance (initialLeads p) sorted).
      by apply list_elem_of_fmap_2, last_Some_elem_of. }
    rewrite Forall_forall in Hall. specialize (Hall _ Hin). simpl in Hall. lia. }
  assert (Hzero : sumBefore k0 sorted = 0).
  { unfold sumBefore. rewrite filter_none; [done|].
    eapply Forall_impl; [exact Hall|]. simpl. lia. }
  assert (Hfull : sumBefore (k1 + 1) sorted = sumDelta sorted).
  { unfold sumBefore. rewrite filter_all; [done|].
    eapply Forall_impl; [exact Hall|]. simpl. lia. }
  assert (Hmonths : months = monthOfIndex <$> seqZ k0 (Z.of_nat (Z.to_nat (k1 - k0 + 1)))).
  { unfold months, monthsFromTo. fold k0 k1. by rewrite Z2Nat.id by lia. }
  assert (HlastMonth : lastMonth = monthOfIndex k1).
  { unfold lastMonth, k1. symmetry. by eapply monthOfIndex_date. }
  assert (Hsummary : ∀ k, 0 <= k < 120000 →
            initialLeadsForMonth (monthlySummary p (monthOfIndex k))
            = initialLeads p + sumBefore k sorted
            ∧ finalLeadsForMonth (monthlySummary p (monthOfIndex k))
              = initialLeads p + sumBefore (k + 1) sorted).
  { intros k Hk.
    pose proof (monthOfIndex_month k Hk) as Hm.
    pose proof (summary_initial p _ Hwf Hm) as Hi.
    pose proof (summary_final p _ Hwf Hm) as Hf.
    rewrite (proj2 (monthOfIndex_wellFormed k Hk)) in Hi, Hf. done. }
  assert (Hlookup : ∀ i m, months !! i = Some m →
            m = monthOfIndex (k0 + Z.of_nat i) ∧ k0 + Z.of_nat i <= k1).
  { intros i m. rewrite Hmonths, list_lookup_fmap.
    destruct (seqZ _ _ !! i) as [k|] eqn:E; [|done]. simpl. intros [= <-].
    apply lookup_seqZ in E as [-> ?]. split; [done|lia]. }
  split; [|split; [|split; [|split]]].
  - unfold aggregateMonths. rewrite Hmonths.
    rewrite (aggregate_from p Hwf) by lia. fold sorted.
    rewrite Z2Nat.id by lia.
    replace (k0 + (k1 - k0 + 1)) with (k1 + 1) by lia. lia.
  - rewrite Hmonths, HlastMonth.
    replace (Z.to_nat (k1 - k0 + 1)) with (S (Z.to_nat (k1 - k0))) by lia.
    rewrite seqZ_S, fmap_app. cbn [fmap list_fmap]. rewrite last_snoc.
    do 2 f_equal. lia.
  - rewrite HlastMonth. rewrite (proj2 (Hsummary k1 Hk1)). lia.
  - intros m Hm. rewrite head_lookup in Hm.
    apply Hlookup in Hm as [-> _]. rewrite Z.add_0_r.
    rewrite (proj1 (Hsummary k0 Hk0)). lia.
  - intros i m m' Hm Hm'.
    apply Hlookup in Hm as [-> ?]. apply Hlookup in Hm' as [-> ?].
    rewrite (proj1 (Hsummary (k0 + Z.of_nat (S i)) ltac:(lia))).
    rewrite (proj2 (Hsummary (k0 + Z.of_nat i) ltac:(lia))).
    do 2 f_equal. lia.
Qed.

(** A profile over three months, the second one empty, as an instance of C2. *)
Lemma last_balance_is_aggregated_month_end_sample :
  wellFormedEntries (dailyEntries quarterProfile)
  ∧ aggregateMonths quarterProfile ["2024-01"; "2024-02"; "2024-03"] = 55
  ∧ finalLeadsForMonth (monthlySummary quarterProfile "2024-03") = 55.
Proof.
  assert (Hwf : wellFormedEntries (dailyEntries quarterProfile))
    by (repeat constructor; by eexists).
  split; [exact Hwf|].
  pose proof (last_balance_is_aggregated_month_end quarterProfile
    {| entry := entryOn "2024-01-10" 9 2 (Some 1) 0;
       startOfDayBalance := 40; endOfDayBalance := 48 |}
    {| entry := entryOn "2024-03-05" 6 1 (Some 2) 3;
       startOfDayBalance := 51; endOfDayBalance := 55 |}
    Hwf eq_refl eq_refl) as (Hagg & _ & Hfin & _).
  split; [exact Hagg | exact Hfin].
Defined.

(** Claim C3.  For every profile and every month, the month-start balance
    that [monthlySummary] finds by folding the sorted entries up to the
    first one dated on or after the first day of the month is the
    end-of-day balance that the full projection gives to the last entry
    dated strictly before that day, and [initialLeads] when there is none. *)
Theorem month_start_balance_is_last_balance_before
    (p : BrokerProfile) (selectedMonth : string) :
  wellFormedEntries (dailyEntries p) → wellFormedMonth selectedMonth →
  initialLeadsForMonth (monthlySummary p selectedMonth)
  = from_option endOfDayBalance (initialLeads p)
      (last (filter (λ x, dayNumber (date (entry x))
                          < dayNumber (String.append selectedMonth "-01"))
                    (rev (entriesWithCalculatedBalances p)))).
Proof.
  intros Hwf [[y m] Hm].
  pose proof (firstDay_wellFormed _ _ _ Hm) as Hfirst.
  unfold monthlySummary, entriesWithCalculatedBalances. simpl.
  rewrite rev_involutive.
  assert (Hd : dayNumber (String.append selectedMonth "-01") = Js.MakeDay y m 1)
    by (unfold dayNumber; by rewrite Hfirst).
  rewrite Hd.
  pose proof (chronological_wellFormed _ Hwf) as Hwf'.
  destruct (sorted_split _ (Js.MakeDay y m 1) (chronological_sorted _ Hwf))
    as (pre & post & Hsplit & Hpre & Hpost).
  rewrite Hsplit in *.
  apply Forall_app in Hwf' as [Hwpre Hwpost].
  rewrite (leadBaseBefore_split _ _ _ _ _ Hfirst Hwpre Hwpost Hpre Hpost).
  rewrite mapWithBalance_app, filter_app.
  rewrite filter_all
    by (by apply (Forall_mapWithBalance (λ e, dayNumber (date e) < Js.MakeDay y m 1))).
  rewrite filter_none.
  2:{ apply (Forall_mapWithBalance (λ e, ¬ dayNumber (date e) < Js.MakeDay y m 1)).
      eapply Forall_impl; [exact Hpost|]. simpl. lia. }
  rewrite app_nil_r.
  pose proof (mapWithBalance_last (initialLeads p) pre) as Hlast.
  destruct pre as [|e pre]; simpl in *.
  - lia.
  - destruct (last _) as [x|]; simpl in *; [|done]. by injection Hlast as ->.
Qed.

(** February, between the entries of January and March, as an instance of C3. *)
Lemma month_start_balance_sample :
  wellFormedEntries (dailyEntries quarterProfile)
  ∧ wellFormedMonth "2024-02"
  ∧ initialLeadsForMonth (monthlySummary quarterProfile "2024-02") = 51.
Proof.
  assert (Hwf : wellFormedEntries (dailyEntries quarterProfile))
    by (repeat constructor; by eexists).
  assert (Hm : wellFormedMonth "2024-02") by (by eexists).
  split; [exact Hwf|]. split; [exact Hm|].
  rewrite (month_start_balance_is_last_balance_before quarterProfile "2024-02" Hwf Hm).
  reflexivity.
Defined.

(** Claim C4, amended.  The projection returns its entries most recent
    first: the projector itself reverses the list it has folded in
    chronological order.  The chronological order is what a caller gets
    back by reversing the result, as the CSV export does; that reversed list
    is the sorted list of the profile's entries. *)
Theorem projection_is_most_recent_first (p : BrokerProfile) :
  wellFormedEntries (dailyEntries p) →
  StronglySorted (λ a b, dayNumber (date (entry b)) <= dayNumber (date (entry a)))
                 (entriesWithCalculatedBalances p)
  ∧ StronglySorted (λ a b, dayNumber (date (entry a)) <= dayNumber (date (entry b)))
                   (csvChronologicalEntries p)
  ∧ entry <$> csvChronologicalEntries p = Js.Array_sort byDate (dailyEntries p).
Proof.
  intros Hwf.
  assert (Hasc : StronglySorted
            (λ a b, dayNumber (date (entry a)) <= dayNumber (date (entry b)))
            (mapWithBalance (initialLeads p) (Js.Array_sort byDate (dailyEntries p)))).
  { apply (mapWithBalance_sorted (λ a b, dayNumber (date a) <= dayNumber (date b))).
    by apply chronological_sorted. }
  unfold csvChronologicalEntries, entriesWithCalculatedBalances.
  rewrite rev_involutive, entry_mapWithBalance.
  split; [|done].
  by apply StronglySorted_rev in Hasc.
Qed.

(** The example of the specification as an instance of the amended C4. *)
Lemma projection_is_most_recent_first_sample :
  wellFormedEntries (dailyEntries sampleProfile)
  ∧ entry <$> csvChronologicalEntries sampleProfile
    = Js.Array_sort byDate (dailyEntries sampleProfile).
Proof.
  assert (Hwf : wellFormedEntries (dailyEntries sampleProfile))
    by (repeat constructor; by eexists).
  split; [exact Hwf|].
  exact (proj2 (proj2 (projection_is_most_recent_first sampleProfile Hwf))).
Defined.

(** Claim C4 as stated fails: on the example of the specification the
    result of the projection is not in ascending order of date. *)
Lemma projection_not_chronological :
  ¬ StronglySorted (λ a b, dayNumber (date (entry a)) <= dayNumber (date (entry b)))
                   (entriesWithCalculatedBalances sampleProfile).
Proof.
  intros Hs.
  assert (E : entriesWithCalculatedBalances sampleProfile
              = [ {| entry := entryOn "2024-03-02" 5 0 (Some 3) 2;
                     startOfDayBalance := 107; endOfDayBalance := 113 |};
                  {| entry := entryOn "2024-03-01" 10 2 None 1;
                     startOfDayBalance := 100; endOfDayBalance := 107 |} ])
    by (vm_compute; reflexivity).
  rewrite E in Hs.
  apply StronglySorted_cons in Hs as [Hx _].
  apply Forall_cons in Hx as [Hle _]. cbn [entry date entryOn] in Hle.
  assert (E1 : dayNumber "2024-03-02" = 19784) by (vm_compute; reflexivity).
  assert (E2 : dayNumber "2024-03-01" = 19783) by (vm_compute; reflexivity).
  rewrite E1, E2 in Hle. lia.
Qed.
End LedgerClaims.

Section RankingClaim.
Import BrokerManagement.

(** Claim C5.  The ranking holds exactly the brokers whose total of
    [signedLeads] is strictly positive, each with that total, sorted by
    descending total, and brokers of equal total keep the order they have
    in the store.  Brokers with totals 0, 5, 5 and 3 are ranked as the two
    with 5 in their store order followed by the one with 3. *)
Theorem ranking_is_stable_descending_positive_sales :
  (∀ bs : list BrokerProfile,
     rankedBrokers bs ≡ₚ withTotalSales <$> filter (λ b, 0 < sumSigned b) bs
     ∧ StronglySorted (λ a b, totalSales b <= totalSales a) (rankedBrokers bs)
     ∧ (∀ k, broker <$> filter (λ r, totalSales r = k) (rankedBrokers bs)
             = filter (λ b, sumSigned b = k ∧ 0 < sumSigned b) bs))
  ∧ (λ r, (brokerName (broker r), totalSales r)) <$> rankedBrokers sampleBrokers
    = [("Bia", 5); ("Caio", 5); ("Davi", 3)].
Proof.
  split; [|reflexivity].
  intros bs. rewrite rankedBrokers_unfold.
  set (l := withTotalSales <$> filter (λ b, 0 < sumSigned b) bs).
  assert (Hall : Forall (λ _ : RankedBroker, True) l) by (by apply Forall_forall).
  split; [apply Array_sort_Permutation|]. split.
  - pose proof (Array_sort_sorted _ (λ r, - totalSales r) _ ranking_key l Hall) as Hs.
    eapply StronglySorted_weaken; [|exact Hs]. simpl. intros. lia.
  - intros k. rewrite ranked_stable. unfold l.
    rewrite ties_in_store_order. apply list_filter_filter.
Qed.
End RankingClaim.

Section ImportClaim.
Import Json BrokerManagement.

(** Claim C6, amended.  A document that cannot be parsed, or whose parsed
    value is not an array of elements each with a string [brokerName], a
    numeric [initialLeads] and an array [dailyEntries], is rejected as a
    whole: the store is left as it was and the failure is reported.  A
    document of the right shape replaces the whole store, and success is
    reported, when the user confirms the replacement; when the user
    declines, the store is left as it was. *)
Theorem import_replaces_store_when_valid_and_confirmed
    (brokers : JsValue) (parsed : option JsValue) (confirmed : bool) :
  ((¬ ∃ data, parsed = Some data ∧ wellShaped data) →
     handleFileChange brokers parsed confirmed = (brokers, [AlertImportFailed]))
  ∧ (∀ data, parsed = Some data → wellShaped data →
       handleFileChange brokers parsed confirmed
       = if confirmed then (data, [AlertRestoreSuccess]) else (brokers, [])).
Proof.
  unfold handleFileChange. split.
  - intros Hbad. destruct parsed as [data|]; [|done].
    destruct (isValid data) as [[|]|] eqn:E; try done.
    exfalso. apply Hbad. exists data. split; [done|]. by apply isValid_wellShaped.
  - intros data -> Hok. pose proof Hok as (items & -> & _).
    apply isValid_wellShaped in Hok. rewrite Hok.
    by destruct confirmed.
Qed.

(** An array of strings is rejected and a backup of one profile is restored. *)
Lemma import_replaces_store_when_valid_and_confirmed_sample :
  handleFileChange sampleBackup (Some malformedBackup) true
  = (sampleBackup, [AlertImportFailed])
  ∧ handleFileChange (JsArray []) (Some sampleBackup) true
    = (sampleBackup, [AlertRestoreSuccess]).
Proof.
  split.
  - apply (proj1 (import_replaces_store_when_valid_and_confirmed
                    sampleBackup (Some malformedBackup) true)).
    intros (data & [= <-] & items & [= <-] & Hitems).
    apply Forall_cons in Hitems as [(props & ? & ? & ? & Hobj & _) _].
    discriminate Hobj.
  - apply (proj2 (import_replaces_store_when_valid_and_confirmed
                    (JsArray []) (Some sampleBackup) true) sampleBackup eq_refl).
    eexists. split; [reflexivity|].
    repeat constructor. by eexists _, _, _, _.
Defined.

(** Claim C6 as stated fails: a document of the right shape does not
    replace the store when the user declines the confirmation. *)
Lemma import_declined_keeps_store :
  wellShaped sampleBackup
  ∧ fst (handleFileChange (JsArray []) (Some sampleBackup) false) ≠ sampleBackup.
Proof.
  split.
  - eexists. split; [reflexivity|]. repeat constructor. by eexists _, _, _, _.
  - simpl. discriminate.
Qed.
End ImportClaim.

Section StoreClaims.
Import App.
Context {lc : Js.LowerCase}.

(** Claim C7.  Adding a broker fails with the duplicate-name message exactly
    when the name equals the name of an existing profile once both are put
    in lower case by [toLowerCase], and the store is then unchanged;
    otherwise exactly one profile is appended, with the given name, initial
    leads and goal and no entries, after the existing profiles.  Adding
    "Ana" and then "ana" fails.  The statement is about the method
    [toLowerCase] of the engine, a parameter of the handler: it holds
    whatever that method does to the letters outside ASCII. *)
Theorem add_broker_rejects_duplicate_name :
  (∀ (st : AppState) (name : string) (initial goal : Z),
     let duplicate :=
       ∃ b, b ∈ brokers st ∧ Js.toLowerCase (brokerName b) = Js.toLowerCase name in
     let added := {| brokerName := name; initialLeads := initial;
                     monthlySalesGoal := Some goal; dailyEntries := [] |} in
     (duplicate → handleAddBroker st name initial goal = (st, [AlertDuplicateName]))
     ∧ (¬ duplicate →
          handleAddBroker st name initial goal
          = ({| brokers := brokers st ++ [added];
                selectedBroker := selectedBroker st |}, [])))
  ∧ (let st1 := fst (handleAddBroker {| brokers := []; selectedBroker := None |}
                                     "Ana" 30 4) in
     brokerName <$> brokers st1 = ["Ana"]
     ∧ handleAddBroker st1 "ana" 12 2 = (st1, [AlertDuplicateName])).
Proof.
  split.
  - intros st name initial goal duplicate added.
    unfold handleAddBroker.
    pose proof (existsb_sameName name (brokers st)) as Hex. fold duplicate in Hex.
    destruct (existsb _ _).
    + split; [done|]. intros Hnd. exfalso. by apply Hnd, Hex.
    + split; [|done]. intros Hd. apply Hex in Hd. done.
  - split; [reflexivity|].
    change (fst (handleAddBroker {| brokers := []; selectedBroker := None |} "Ana" 30 4))
      with {| brokers := [{| brokerName := "Ana"; initialLeads := 30;
                             monthlySalesGoal := Some 4; dailyEntries := [] |}];
              selectedBroker := None |}.
    unfold handleAddBroker, sameNameIgnoringCase. cbn [existsb brokers brokerName].
    rewrite !Js.toLowerCase_ascii by reflexivity. reflexivity.
Qed.

(** Claim C8.  A successful update of the profiles named [originalName]
    replaces their name, initial leads and goal only: the store keeps its
    length and order, the entries of every profile are the same list, and a
    profile with another name is unchanged. *)
Theorem update_broker_touches_only_the_named_profile
    (st st' : AppState) (originalName : string) (updatedData : BrokerUpdate)
    (alerts : list Alert) :
  handleUpdateBroker st originalName updatedData = (st', alerts, true) →
  length (brokers st') = length (brokers st)
  ∧ ∀ i b, brokers st !! i = Some b →
      ∃ b', brokers st' !! i = Some b'
            ∧ dailyEntries b' = dailyEntries b
            ∧ (brokerName b = originalName →
                 brokerName b' = newBrokerName updatedData
                 ∧ initialLeads b' = newInitialLeads updatedData
                 ∧ monthlySalesGoal b' = Some (newMonthlySalesGoal updatedData))
            ∧ (brokerName b ≠ originalName → b' = b).
Proof.
  unfold handleUpdateBroker. destruct (_ && _); [done|].
  intros [= <- _]. simpl. split; [apply length_map|].
  intros i b Hb.
  change (map ?f ?l) with (f <$> l). rewrite list_lookup_fmap, Hb. simpl.
  destruct (String.eqb_spec (brokerName b) originalName) as [E|E].
  - eexists. split; [done|]. split; [done|]. split; [done|]. congruence.
  - exists b. split; [done|]. split; [done|]. split; [congruence|done].
Qed.

(** Claim C9.  When no profile of the store has two entries with the same
    date, this still holds after saving an entry and after deleting the
    entry of a date.  Saving replaces the entry that has the date of the new
    one when there is one and appends the new entry otherwise; deleting
    removes the entries of the given date and no other. *)
Theorem entry_operations_keep_one_entry_per_date (st : AppState) :
  oneEntryPerDate st →
  (∀ e, oneEntryPerDate (handleSaveEntry st e))
  ∧ (∀ d, oneEntryPerDate (handleDeleteEntry st d))
  ∧ (∀ b e, b ∈ brokers st →
       (date e ∉ date <$> dailyEntries b →
          dailyEntries (saveEntryIn b e) = dailyEntries b ++ [e])
       ∧ (∀ i old, dailyEntries b !! i = Some old → date old = date e →
            dailyEntries (saveEntryIn b e) = <[i := e]> (dailyEntries b)))
  ∧ (∀ b d e, e ∈ dailyEntries (deleteEntryIn b d) ↔ e ∈ dailyEntries b ∧ date e ≠ d).
Proof.
  intros Hinv. split; [|split; [|split]].
  - intros e. apply mapSelected_invariant; [|done].
    intros b. apply saveEntryIn_distinct.
  - intros d. apply mapSelected_invariant; [|done].
    intros b. apply deleteEntryIn_distinct.
  - intros b e Hb. split; [apply saveEntryIn_append|].
    intros i old. apply saveEntryIn_replace.
    destruct Hinv as [Hall _]. rewrite Forall_forall in Hall. by apply Hall.
  - intros. apply deleteEntryIn_elem_of.
Qed.

(** A store with a selected profile as an instance of C9. *)
Lemma entry_operations_keep_one_entry_per_date_sample :
  let st := {| brokers := [sampleProfile; overdrawnProfile];
               selectedBroker := Some sampleProfile |} in
  oneEntryPerDate st
  ∧ oneEntryPerDate (handleSaveEntry st (entryOn "2024-03-01" 8 0 None 0))
  ∧ oneEntryPerDate (handleDeleteEntry st "2024-03-02").
Proof.
  intros st.
  assert (Hinv : oneEntryPerDate st).
  { split; [|apply (bool_decide_unpack _); vm_compute; exact I].
    repeat constructor; apply (bool_decide_unpack _); vm_compute; exact I. }
  split; [exact Hinv|].
  pose proof (entry_operations_keep_one_entry_per_date st Hinv) as (Hsave & Hdel & _).
  split; [apply Hsave | apply Hdel].
Defined.
End StoreClaims.

(** Instances of C7 and C8, with names written in ASCII. *)
Section StoreClaimsExamples.
Import App.
#[local] Existing Instance asciiNames.

(** A refused and an accepted addition as instances of C7. *)
Lemma add_broker_rejects_duplicate_name_sample :
  let st := {| brokers := [brokerWith "Ana" 30 []]; selectedBroker := None |} in
  handleAddBroker st "ANA" 5 1 = (st, [AlertDuplicateName])
  ∧ brokerName <$> brokers (fst (handleAddBroker st "Bia" 5 1)) = ["Ana"; "Bia"].
Proof.
  intros st. split.
  - apply (proj1 add_broker_rejects_duplicate_name st "ANA" 5 1).
    exists (brokerWith "Ana" 30 []). split; [apply list_elem_of_here|reflexivity].
  - rewrite (proj2 (proj1 add_broker_rejects_duplicate_name st "Bia" 5 1)).
    + reflexivity.
    + intros (b & Hin & Heq). apply list_elem_of_singleton in Hin. subst b.
      discriminate Heq.
Defined.

(** A rename in a store of two profiles as an instance of C8. *)
Lemma update_broker_touches_only_the_named_profile_sample :
  let st := {| brokers := [sampleProfile; overdrawnProfile]; selectedBroker := None |} in
  let updatedData := {| newBrokerName := "Ana Lima"; newInitialLeads := 120;
                        newMonthlySalesGoal := 6 |} in
  handleUpdateBroker st "Ana" updatedData
  = ({| brokers := [{| brokerName := "Ana Lima"; initialLeads := 120;
                       monthlySalesGoal := Some 6;
                       dailyEntries := dailyEntries sampleProfile |};
                    overdrawnProfile];
        selectedBroker := None |}, [], true)
  ∧ length (brokers (fst (fst (handleUpdateBroker st "Ana" updatedData)))) = 2%nat.
Proof.
  intros st updatedData.
  assert (Hrun : handleUpdateBroker st "Ana" updatedData
                 = (fst (fst (handleUpdateBroker st "Ana" updatedData)), [], true))
    by reflexivity.
  split; [reflexivity|].
  exact (proj1 (update_broker_touches_only_the_named_profile _ _ _ _ _ Hrun)).
Defined.

End StoreClaimsExamples.

Section BulkClaim.
Import BrokerDashboard.

(** Claim C10, amended.  Take a bulk edit between two calendar dates with the
    start not after the end.  When a field of the form is flagged as
    invalid, nothing is written and the user is asked to correct the fields.
    When no field is flagged, in a time zone that at local midnight of
    every day from the start date to the day after the end date is at or
    west of Greenwich (less than a day behind it), and in which local
    midnight of every day from the start date to the end date is a time of
    the clock (no change of the clock skips it), and given turns enough for
    the loop, the handler calls [onSaveEntry] exactly once for every
    calendar day from the start date through the end date, in that order.
    Every counter of the entry written for a day is the number entered in
    the form when one was entered, otherwise the counter of the entry the
    profile already has for that day (0 when that counter is absent),
    otherwise 0. *)
Theorem bulk_save_writes_each_day_once
    (tz : Js.TimeZone) (p : BrokerProfile) (form : BulkForm) (s e : Z) (turns : nat) :
  Js.dayOfDate (bulkStartDate form) = Some s →
  Js.dayOfDate (bulkEndDate form) = Some e →
  s <= e →
  (someError (bulkErrors form) = true →
     handleBulkSave turns tz p form
     = Some {| savedEntries := []; shown := AlertFixErrors; formAfter := None |})
  ∧ (someError (bulkErrors form) = false →
     (∀ d, s <= d <= e + 1 → westAtMidnight tz d) →
     (∀ d, s <= d <= e → midnightExists tz d) →
     distinctDates (dailyEntries p) →
     (Z.to_nat (e - s + 1) <= turns)%nat →
     ∃ out, handleBulkSave turns tz p form = Some out
       ∧ shown out = AlertBulkSaved
       ∧ Forall2 (λ d x, Js.dayOfDate (date x) = Some d)
                 (seqZ s (e - s + 1)) (savedEntries out)
       ∧ Forall (λ x, ∀ key,
                   let typed v :=
                     match bulkDailyData form key with Num n => n | _ => v end in
                   (∀ old, old ∈ dailyEntries p → date old = date x →
                      getField key x = Some (typed (orZero (getField key old))))
                   ∧ ((∀ old, old ∈ dailyEntries p → date old ≠ date x) →
                      getField key x = Some (typed 0)))
                (savedEntries out)).
Proof.
  intros Hs He Hse.
  assert (Hguard : (e * Js.msPerDay <? s * Js.msPerDay) = false)
    by (apply Z.ltb_ge; unfold Js.msPerDay; lia).
  unfold handleBulkSave, Js.Date_getTime, Js.Date_getTime_local.
  rewrite Hs, He. cbn [fmap option_fmap option_map]. rewrite Hguard. split.
  - by intros ->.
  - intros -> Hwest Hmid Hnd Hturns.
    rewrite (bulkLoop_days tz p form s e Hse Hwest Hmid (Z.to_nat (e - s + 1)))
      by (done || lia).
    simpl. eexists. split; [reflexivity|]. simpl. split; [done|]. split.
    + apply Forall2_fmap_r, Forall_Forall2_diag, Forall_forall.
      intros d Hd%elem_of_seqZ. simpl.
      apply (dayOfDate_toISODate _ _ s e _ Hs He). lia.
    + apply Forall_fmap, Forall_forall. intros d _. unfold compose.
      intros key. cbv zeta.
      rewrite getField_updatedEntry. unfold bulkValue. cbn [date updatedEntry]. split.
      * intros old Hin Hd. rewrite <- Hd, (find_existing _ _ Hnd Hin). simpl.
        by destruct (bulkDailyData form key).
      * intros Hnone. rewrite (find_missing _ _ Hnone). simpl.
        by destruct (bulkDailyData form key).
Qed.

(** Four days across the end of February 2024 as an instance of C10, in
    Brasilia. *)
Lemma bulk_save_writes_each_day_once_sample :
  ∃ out, handleBulkSave 4 Brasilia sampleProfile sampleBulkForm = Some out
    ∧ (λ x, (date x, newLeads x, signedLeads x)) <$> savedEntries out
      = [("2024-02-28", 7, 0); ("2024-02-29", 7, 0);
         ("2024-03-01", 7, 1); ("2024-03-02", 7, 2)].
Proof.
  assert (Htz : - Js.msPerDay < tzaBrasilia <= 0)
    by (unfold tzaBrasilia, Js.msPerDay; lia).
  destruct (proj2 (bulk_save_writes_each_day_once Brasilia sampleProfile
                     sampleBulkForm 19781 19784 4 eq_refl eq_refl ltac:(lia)))
    as (out & Hout & _).
  - reflexivity.
  - intros d _. exact (proj1 (fixedOffset_midnights tzaBrasilia d Htz)).
  - intros d _. exact (proj2 (fixedOffset_midnights tzaBrasilia d Htz)).
  - apply (bool_decide_unpack _). vm_compute. exact I.
  - vm_compute. lia.
  - exists out. split; [exact Hout|].
    vm_compute in Hout. injection Hout as <-. reflexivity.
Defined.

(** Claim C10 as stated fails: with a field flagged as invalid nothing is
    saved, although the start date is not after the end date. *)
Lemma bulk_save_blocked_by_field_error :
  Js.dayOfDate (bulkStartDate flaggedBulkForm) = Some 19781
  ∧ Js.dayOfDate (bulkEndDate flaggedBulkForm) = Some 19784
  ∧ handleBulkSave 4 Brasilia sampleProfile flaggedBulkForm
    = Some {| savedEntries := []; shown := AlertFixErrors; formAfter := None |}.
Proof. split; [|split]; reflexivity. Qed.

(** East of Greenwich the local midnight is still the day before in UTC, and
    the dates written are one day early. *)
Remark bulk_save_east_of_greenwich :
  (λ out, date <$> savedEntries out)
    <$> handleBulkSave 4 LisbonInSummer sampleProfile sampleBulkForm
  = Some ["2024-02-27"; "2024-02-28"; "2024-02-29"; "2024-03-01"].
Proof. vm_compute. reflexivity. Qed.

(** Where a change of the clock skips local midnight the loop stops a day
    early: in Santiago the clock went forward at midnight of 8 September
    2024, and an edit from the 7th to the 9th writes the 7th and the 8th
    only, the loop being at 01:00 of the 9th after its second turn. *)
Remark bulk_save_across_a_skipped_midnight :
  ¬ midnightExists Santiago2024 19974
  ∧ (λ out, date <$> savedEntries out)
      <$> handleBulkSave 3 Santiago2024 sampleProfile
            (initialBulkForm "2024-09-07" "2024-09-09")
    = Some ["2024-09-07"; "2024-09-08"].
Proof.
  split; [|vm_compute; reflexivity].
  unfold midnightExists. vm_compute. discriminate.
Qed.
End BulkClaim.

(** * Further properties of the store *)

Section StoreInvariants.
Import App.
Context {lc : Js.LowerCase}.

Lemma uniqueNames_exact (bs : list BrokerProfile) b b' :
  uniqueNames bs → b ∈ bs → b' ∈ bs → brokerName b = brokerName b' → b = b'.
Proof.
  unfold uniqueNames. induction bs as [|x bs IH]; [by intros _ ?%elem_of_nil|].
  rewrite fmap_cons, NoDup_cons. intros [Hx Hnd] Hb Hb' Heq.
  apply elem_of_cons in Hb as [->|Hb], Hb' as [->|Hb'].
  - done.
  - exfalso. apply Hx. rewrite Heq.
    by apply (list_elem_of_fmap_2 (λ b, Js.toLowerCase (brokerName b))).
  - exfalso. apply Hx. rewrite <- Heq.
    by apply (list_elem_of_fmap_2 (λ b, Js.toLowerCase (brokerName b))).
  - by apply IH.
Qed.

Lemma uniqueNames_add (bs : list BrokerProfile) b :
  uniqueNames bs →
  (¬ ∃ b', b' ∈ bs ∧ Js.toLowerCase (brokerName b') = Js.toLowerCase (brokerName b)) →
  uniqueNames (bs ++ [b]).
Proof.
  unfold uniqueNames. intros Hnd Hfresh.
  rewrite fmap_app. apply NoDup_app. split; [done|]. split; [|apply NoDup_singleton].
  intros n (b' & -> & Hin)%list_elem_of_fmap Hn%list_elem_of_singleton.
  apply Hfresh. by exists b'.
Qed.

(** Renaming the profiles of one name to a name that is free, or that only
    differs from the old one by case, keeps the names unique. *)
Lemma uniqueNames_rename (bs : list BrokerProfile) originalName updatedData :
  uniqueNames bs →
  (Js.toLowerCase originalName = Js.toLowerCase (newBrokerName updatedData)
   ∨ ¬ ∃ b, b ∈ bs
            ∧ Js.toLowerCase (brokerName b) = Js.toLowerCase (newBrokerName updatedData)) →
  uniqueNames (map (λ broker, if String.eqb (brokerName broker) originalName
                              then spreadUpdate broker updatedData else broker) bs).
Proof.
  unfold uniqueNames. intros Hnd Hok.
  change (map ?f ?l) with (f <$> l). rewrite <- list_fmap_compose.
  destruct Hok as [Hsame|Hfree].
  - erewrite list_fmap_ext; [exact Hnd|]. intros i b _. simpl.
    destruct (String.eqb_spec (brokerName b) originalName) as [->|]; [|done].
    simpl. congruence.
  - induction bs as [|b bs IH]; [constructor|].
    rewrite fmap_cons in *. apply NoDup_cons in Hnd as [Hb Hnd].
    assert (Hfree' : ¬ ∃ b0, b0 ∈ bs ∧ Js.toLowerCase (brokerName b0)
                                       = Js.toLowerCase (newBrokerName updatedData)).
    { intros (b0 & Hin & Heq). apply Hfree. exists b0.
      split; [by apply list_elem_of_further|done]. }
    apply NoDup_cons. split; [|by apply IH].
    intros (b' & Heq & Hin)%list_elem_of_fmap. simpl in Heq.
    destruct (String.eqb_spec (brokerName b) originalName) as [Eb|Eb],
             (String.eqb_spec (brokerName b') originalName) as [Eb'|Eb']; simpl in Heq.
    + apply Hb. rewrite Eb, <- Eb'.
      by apply (list_elem_of_fmap_2 (λ b, Js.toLowerCase (brokerName b))).
    + apply Hfree. exists b'. split; [by apply list_elem_of_further|done].
    + apply Hfree. exists b. split; [apply list_elem_of_here|done].
    + apply Hb. rewrite Heq.
      by apply (list_elem_of_fmap_2 (λ b, Js.toLowerCase (brokerName b))).
Qed.

Lemma uniqueNames_filter (f : BrokerProfile → bool) bs :
  uniqueNames bs → uniqueNames (List.filter f bs).
Proof.
  unfold uniqueNames. intros Hnd. eapply sublist_NoDup; [exact Hnd|].
  clear Hnd. apply fmap_sublist. induction bs as [|b bs IH]; simpl; [constructor|].
  destruct (f b); [by apply sublist_skip|by apply sublist_cons].
Qed.

(** A map that keeps the names keeps them unique. *)
Lemma uniqueNames_map (g : BrokerProfile → BrokerProfile) bs :
  (∀ b, brokerName (g b) = brokerName b) →
  uniqueNames bs → uniqueNames (map g bs).
Proof.
  unfold uniqueNames. intros Hg Hnd.
  change (map g bs) with (g <$> bs). rewrite <- list_fmap_compose.
  erewrite list_fmap_ext; [exact Hnd|]. intros i b _. simpl. by rewrite Hg.
Qed.

Lemma handleUpdateBroker_cases st originalName updatedData :
  let taken :=
    Js.toLowerCase originalName ≠ Js.toLowerCase (newBrokerName updatedData)
    ∧ ∃ b, b ∈ brokers st
           ∧ Js.toLowerCase (brokerName b) = Js.toLowerCase (newBrokerName updatedData) in
  (taken ∧ handleUpdateBroker st originalName updatedData = (st, [AlertDuplicateName], false))
  ∨ (¬ taken ∧ ∃ st', handleUpdateBroker st originalName updatedData = (st', [], true)
       ∧ brokers st' = map (λ broker, if String.eqb (brokerName broker) originalName
                                      then spreadUpdate broker updatedData else broker)
                           (brokers st)).
Proof.
  intros taken. unfold handleUpdateBroker.
  pose proof (existsb_sameName (newBrokerName updatedData) (brokers st)) as Hex.
  destruct (sameNameIgnoringCase originalName (newBrokerName updatedData)) eqn:E;
    unfold sameNameIgnoringCase in E;
    [apply String.eqb_eq in E | apply String.eqb_neq in E]; simpl.
  - right. split; [by intros [? _]|]. eexists. split; [reflexivity|done].
  - destruct (existsb _ _).
    + left. split; [|done]. split; [done|]. by apply Hex.
    + right. split.
      * intros [_ Hb]. apply Hex in Hb. done.
      * eexists. split; [reflexivity|done].
Qed.

Lemma find_eqb_Some {A} (f : A → bool) (l : list A) x :
  find f l = Some x → x ∈ l ∧ f x = true.
Proof. intros [Hin Hf]%find_some. by rewrite list_elem_of_In. Qed.

Lemma find_eqb_None {A} (f : A → bool) (l : list A) x :
  find f l = None → x ∈ l → f x = false.
Proof.
  intros Hnone Hin. rewrite list_elem_of_In in Hin.
  exact (find_none f l Hnone x Hin).
Qed.

Lemma mapSelected_brokerNames (f : BrokerProfile → BrokerProfile) st :
  (∀ b, brokerName (f b) = brokerName b) →
  uniqueNames (brokers st) → uniqueNames (brokers (mapSelected f st)).
Proof.
  intros Hf Hu. unfold mapSelected. destruct (selectedBroker st) as [sel|]; [|done].
  simpl. apply uniqueNames_map; [|done].
  intros b. by destruct (String.eqb _ _).
Qed.

Lemma mapSelected_selectedInStore (f : BrokerProfile → BrokerProfile) st :
  selectedInStore st → selectedInStore (mapSelected f st).
Proof.
  unfold selectedInStore, mapSelected.
  destruct (selectedBroker st) as [sel|] eqn:Es; [|by rewrite Es].
  simpl. intros Hsel.
  destruct (last _) as [b|] eqn:El; simpl.
  - apply last_Some_elem_of in El.
    rewrite list_elem_of_In, filter_In, <- list_elem_of_In in El.
    destruct El as [Hin Hb].
    change (map ?g ?l) with (g <$> l). apply list_elem_of_fmap.
    exists b. by rewrite Hb.
  - apply last_None in El.
    assert (Hin : sel ∈ List.filter (λ broker, String.eqb (brokerName broker) (brokerName sel))
                                    (brokers st)).
    { rewrite list_elem_of_In, filter_In, <- list_elem_of_In.
      split; [done|apply String.eqb_refl]. }
    rewrite El in Hin. by apply elem_of_nil in Hin.
Qed.

Lemma perform_consistent st a : consistentStore st → consistentStore (perform st a).
Proof.
  intros [Hu Hsel]. destruct a as [name initial goal|originalName updatedData
                                  |confirmed name|name| |e|d]; simpl.
  - unfold handleAddBroker.
    pose proof (existsb_sameName name (brokers st)) as Hex.
    destruct (existsb _ _); [done|]. simpl. split; simpl.
    + apply uniqueNames_add; [done|]. simpl. intros Hb. apply Hex in Hb. done.
    + unfold selectedInStore in *. simpl.
      destruct (selectedBroker st); simpl in *; [|done].
      apply elem_of_app. by left.
  - destruct (handleUpdateBroker_cases st originalName updatedData)
      as [[_ ->]|[Hfree (st' & Hrun & Hbs)]]; [done|].
    rewrite Hrun. simpl. split.
    + rewrite Hbs. apply uniqueNames_rename; [done|].
      destruct (decide (Js.toLowerCase originalName
                        = Js.toLowerCase (newBrokerName updatedData))); [by left|].
      right. intros Hb. by apply Hfree.
    + unfold handleUpdateBroker in Hrun.
      destruct (_ && _); [done|]. injection Hrun as <-.
      unfold selectedInStore in *. simpl.
      destruct (selectedBroker st) as [sel|]; simpl in *; [|done].
      destruct (String.eqb_spec (brokerName sel) originalName) as [E|E]; simpl.
      * destruct (find _ _) as [u|] eqn:Ef; simpl.
        -- by apply find_eqb_Some in Ef as [? _].
        -- exfalso.
           assert (Hin : spreadUpdate sel updatedData
                         ∈ map (λ broker, if String.eqb (brokerName broker) originalName
                                          then spreadUpdate broker updatedData else broker)
                               (brokers st)).
           { change (map ?g ?l) with (g <$> l). apply list_elem_of_fmap.
             exists sel. rewrite (proj2 (String.eqb_eq _ _) E). done. }
           pose proof (find_eqb_None _ _ _ Ef Hin) as Hne. simpl in Hne.
           by rewrite String.eqb_refl in Hne.
      * change (map ?g ?l) with (g <$> l). apply list_elem_of_fmap.
        exists sel. rewrite (proj2 (String.eqb_neq _ _) E). done.
  - unfold handleDeleteBroker. destruct confirmed; [|done]. split; simpl.
    + by apply uniqueNames_filter.
    + unfold selectedInStore in *. simpl.
      destruct (selectedBroker st) as [sel|]; simpl in *; [|done].
      destruct (String.eqb (brokerName sel) name) eqn:E; simpl; [done|].
      rewrite list_elem_of_In, filter_In, <- list_elem_of_In. by rewrite E.
  - unfold handleSelectBroker. destruct (find _ _) as [b|] eqn:Ef; [|done].
    split; [done|]. unfold selectedInStore. simpl.
    by apply find_eqb_Some in Ef as [? _].
  - split; [done|]. by unfold selectedInStore.
  - split; [by apply mapSelected_brokerNames|by apply mapSelected_selectedInStore].
  - split; [by apply mapSelected_brokerNames|by apply mapSelected_selectedInStore].
Qed.

End StoreInvariants.

Section StoreExtras.
Import App.
Context {lc : Js.LowerCase}.

(** Property X1.  [handleUpdateBroker] refuses an update exactly when the new
    name differs from the original one up to case and some profile of the
    store already has the new name up to case: the store and the selected
    profile are then left as they were, the duplicate-name message is shown
    and the handler returns [false].  In every other case no message is
    shown and the handler returns [true].  Two names are the same up to
    case when [toLowerCase] gives the same string for both; the method is a
    parameter of the handler and the statement holds for every script. *)
Theorem update_broker_rejects_taken_name
    (st : AppState) (originalName : string) (updatedData : BrokerUpdate) :
  let taken :=
    Js.toLowerCase originalName ≠ Js.toLowerCase (newBrokerName updatedData)
    ∧ ∃ b, b ∈ brokers st
           ∧ Js.toLowerCase (brokerName b) = Js.toLowerCase (newBrokerName updatedData) in
  (taken → handleUpdateBroker st originalName updatedData = (st, [AlertDuplicateName], false))
  ∧ (¬ taken → ∃ st', handleUpdateBroker st originalName updatedData = (st', [], true)).
Proof.
  intros taken.
  destruct (handleUpdateBroker_cases st originalName updatedData)
    as [[Ht Hrun]|[Hnt (st' & Hrun & _)]]; fold taken in Ht || fold taken in Hnt.
  - split; [done|]. intros Hn. by destruct Hn.
  - split; [intros Ht; by destruct Hnt|]. intros _. by exists st'.
Qed.

(** Property X2.  Whatever a user does (adding, updating or deleting a broker,
    opening or leaving a dashboard, saving or deleting an entry, in any
    order and any number of times), a store whose names are unique up to
    case and whose selected profile is one of its profiles stays such a
    store.  Uniqueness up to case is that of the handlers: no two profiles
    have names to which [toLowerCase], a parameter of the handlers, gives
    the same string. *)
Theorem store_stays_consistent (st : AppState) (actions : list Action) :
  consistentStore st → consistentStore (foldl perform st actions).
Proof.
  revert st. induction actions as [|a actions IH]; intros st Hc; simpl; [done|].
  by apply IH, perform_consistent.
Qed.

End StoreExtras.

(** Instances of X1 and X2, with names written in ASCII. *)
Section StoreExtrasExamples.
Import App.
#[local] Existing Instance asciiNames.

(** The name of another broker, in capitals, is refused. *)
Lemma update_broker_rejects_taken_name_sample :
  handleUpdateBroker sampleStore "Ana"
    {| newBrokerName := "BIA"; newInitialLeads := 10; newMonthlySalesGoal := 0 |}
  = (sampleStore, [AlertDuplicateName], false).
Proof.
  apply (proj1 (update_broker_rejects_taken_name sampleStore "Ana"
                  {| newBrokerName := "BIA"; newInitialLeads := 10;
                     newMonthlySalesGoal := 0 |})).
  split; [vm_compute; discriminate|].
  exists sampleSelected. split; [|reflexivity].
  apply list_elem_of_further, list_elem_of_here.
Defined.

(** Three actions on the sample store. *)
Lemma store_stays_consistent_sample :
  consistentStore
    (foldl perform sampleStore
       [AddBroker "ana" 5 0; SaveEntry sampleNewEntry; DeleteBroker true "Bia"]).
Proof.
  apply store_stays_consistent. split.
  - apply (bool_decide_unpack _). vm_compute. exact I.
  - apply list_elem_of_further, list_elem_of_here.
Defined.

End StoreExtrasExamples.

(** * Further properties of the entries of a profile *)

Section EntryLookup.
Import App.

Local Abbreviation upsert l e :=
  (match list_find (λ x : DailyEntry, date x = date e) l with
   | Some (existingIndex, _) => <[existingIndex := e]> l
   | None => l ++ [e]
   end).

Lemma upsert_cons (x e : DailyEntry) (l : list DailyEntry) :
  upsert (x :: l) e = if decide (date x = date e) then e :: l else x :: upsert l e.
Proof.
  cbn [list_find]. destruct (decide (date x = date e)); [done|].
  by destruct (list_find _ l) as [[i y]|].
Qed.

Lemma entryOf_upsert_same (e : DailyEntry) (l : list DailyEntry) :
  entryOf (date e) (upsert l e) = Some e.
Proof.
  induction l as [|x l IH].
  - simpl. unfold entryOf. simpl. by rewrite String.eqb_refl.
  - rewrite upsert_cons. destruct (decide (date x = date e)) as [E|E].
    + unfold entryOf. simpl. by rewrite String.eqb_refl.
    + unfold entryOf in *. simpl.
      by rewrite (proj2 (String.eqb_neq _ _) E).
Qed.

Lemma entryOf_upsert_other (e : DailyEntry) (l : list DailyEntry) d :
  d ≠ date e → entryOf d (upsert l e) = entryOf d l.
Proof.
  intros Hd. induction l as [|x l IH].
  - simpl. unfold entryOf. simpl.
    by rewrite (proj2 (String.eqb_neq (date e) d)) by done.
  - rewrite upsert_cons. destruct (decide (date x = date e)) as [E|E].
    + unfold entryOf. simpl.
      rewrite (proj2 (String.eqb_neq (date e) d)) by done.
      by rewrite (proj2 (String.eqb_neq (date x) d)) by congruence.
    + unfold entryOf in *. simpl. by rewrite IH.
Qed.

Lemma upsert_idempotent (e : DailyEntry) (l : list DailyEntry) :
  upsert (upsert l e) e = upsert l e.
Proof.
  induction l as [|x l IH].
  - simpl. by rewrite decide_True.
  - rewrite upsert_cons. destruct (decide (date x = date e)) as [E|E].
    + rewrite upsert_cons. by rewrite decide_True.
    + rewrite upsert_cons, decide_False by done. by rewrite IH.
Qed.

Lemma filter_upsert_fresh (e : DailyEntry) (l : list DailyEntry) :
  date e ∉ date <$> l → filter (λ x, date x ≠ date e) (upsert l e) = l.
Proof.
  induction l as [|x l IH]; intros Hfresh.
  - simpl. by rewrite filter_cons_False by (intros H; by apply H).
  - rewrite fmap_cons, not_elem_of_cons in Hfresh. destruct Hfresh as [Hx Hl].
    rewrite upsert_cons, decide_False by done.
    rewrite filter_cons_True by done. by rewrite IH.
Qed.

Lemma entryOf_filter (l : list DailyEntry) d d' :
  entryOf d' (filter (λ x, date x ≠ d) l)
  = if decide (d' = d) then None else entryOf d' l.
Proof.
  unfold entryOf. induction l as [|x l IH]; simpl.
  - by destruct (decide _).
  - rewrite filter_cons. destruct (decide (date x ≠ d)) as [E|E]; simpl.
    + rewrite IH. destruct (String.eqb_spec (date x) d') as [Ex|Ex]; [|done].
      rewrite decide_False by congruence. done.
    + rewrite IH. apply dec_stable in E.
      destruct (decide (d' = d)) as [->|Hne]; [done|].
      by rewrite (proj2 (String.eqb_neq (date x) d')) by congruence.
Qed.

End EntryLookup.

Section SelectedProfile.
Import App.
Context {lc : Js.LowerCase}.

Lemma last_filter_selected (bs : list BrokerProfile) sel :
  uniqueNames bs → sel ∈ bs →
  last (List.filter (λ broker, String.eqb (brokerName broker) (brokerName sel)) bs)
  = Some sel.
Proof.
  intros Hu Hin.
  destruct (last _) as [b|] eqn:El.
  - apply last_Some_elem_of in El.
    rewrite list_elem_of_In, filter_In, <- list_elem_of_In in El.
    destruct El as [Hb Hname%String.eqb_eq].
    f_equal. by eapply uniqueNames_exact.
  - apply last_None in El.
    assert (Hs : sel ∈ List.filter (λ broker, String.eqb (brokerName broker) (brokerName sel)) bs).
    { rewrite list_elem_of_In, filter_In, <- list_elem_of_In.
      split; [done|apply String.eqb_refl]. }
    rewrite El in Hs. by apply elem_of_nil in Hs.
Qed.

Lemma map_selected_insert (f : BrokerProfile → BrokerProfile)
    (bs : list BrokerProfile) sel i :
  uniqueNames bs → bs !! i = Some sel →
  map (λ broker, if String.eqb (brokerName broker) (brokerName sel)
                 then f broker else broker) bs
  = <[i := f sel]> bs.
Proof.
  intros Hu Hi. change (map ?g ?l) with (g <$> l).
  apply list_eq. intros j. rewrite list_lookup_fmap.
  destruct (decide (i = j)) as [<-|Hij].
  - rewrite list_lookup_insert_eq by (by eapply lookup_lt_Some).
    rewrite Hi. simpl. by rewrite String.eqb_refl.
  - rewrite list_lookup_insert_ne by done.
    destruct (bs !! j) as [b|] eqn:Hj; simpl; [|done].
    destruct (String.eqb_spec (brokerName b) (brokerName sel)) as [E|E]; [|done].
    exfalso. apply Hij.
    assert (b = sel) as ->.
    { apply (uniqueNames_exact bs); [done|by eapply list_elem_of_lookup_2..|done]. }
    unfold uniqueNames in Hu.
    eapply (NoDup_lookup _ i j _ Hu); rewrite list_lookup_fmap; [by rewrite Hi|by rewrite Hj].
Qed.

Lemma mapSelected_selected (f : BrokerProfile → BrokerProfile) st sel :
  consistentStore st → selectedBroker st = Some sel →
  selectedBroker (mapSelected f st) = Some (f sel)
  ∧ ∃ i, brokers st !! i = Some sel
         ∧ brokers (mapSelected f st) = <[i := f sel]> (brokers st).
Proof.
  intros [Hu Hs] Hsel. unfold selectedInStore in Hs. rewrite Hsel in Hs. simpl in Hs.
  unfold mapSelected. rewrite Hsel. simpl.
  rewrite last_filter_selected by done. split; [done|].
  apply list_elem_of_lookup in Hs as [i Hi]. exists i. split; [done|].
  by apply map_selected_insert.
Qed.

Lemma mapSelected_idempotent (f : BrokerProfile → BrokerProfile) st :
  (∀ b, brokerName (f b) = brokerName b) → (∀ b, f (f b) = f b) →
  mapSelected f (mapSelected f st) = mapSelected f st.
Proof.
  intros Hname Hidem.
  destruct (selectedBroker st) as [sel|] eqn:Hsel.
  2:{ unfold mapSelected. by rewrite !Hsel. }
  set (isSel := λ broker : BrokerProfile, String.eqb (brokerName broker) (brokerName sel)).
  set (g := λ broker, if isSel broker then f broker else broker).
  assert (Hst : mapSelected f st
                = {| brokers := map g (brokers st);
                     selectedBroker :=
                       match last (List.filter isSel (brokers st)) with
                       | Some broker => Some (f broker)
                       | None => Some sel
                       end |})
    by (unfold mapSelected; by rewrite Hsel).
  rewrite Hst.
  assert (Hg : ∀ b, isSel (g b) = isSel b).
  { intros b. unfold g, isSel.
    destruct (String.eqb (brokerName b) (brokerName sel)) eqn:E; [|done].
    by rewrite Hname. }
  assert (Hgg : ∀ b, g (g b) = g b).
  { intros b. unfold g at 1. rewrite Hg. unfold g.
    destruct (isSel b); [apply Hidem|done]. }
  assert (Hfilter : ∀ l, List.filter isSel (map g l) = map g (List.filter isSel l)).
  { induction l as [|b l IH]; simpl; [done|]. rewrite Hg.
    destruct (isSel b); simpl; by rewrite IH. }
  assert (Hlast : ∀ l, last (map g l) = g <$> last l).
  { intros l. change (map g l) with (g <$> l). apply fmap_last. }
  destruct (last (List.filter isSel (brokers st))) as [b|] eqn:El.
  - assert (Hb : isSel b = true).
    { apply last_Some_elem_of in El.
      rewrite list_elem_of_In, filter_In in El. tauto. }
    assert (Hsame : ∀ broker, String.eqb (brokerName broker) (brokerName (f b))
                              = isSel broker).
    { intros broker. rewrite Hname. unfold isSel.
      apply String.eqb_eq in Hb. by rewrite Hb. }
    unfold mapSelected. cbn [selectedBroker brokers].
    rewrite (map_ext _ g) by (intros broker; by rewrite Hsame).
    rewrite map_map, (map_ext _ g) by done.
    f_equal.
    rewrite (filter_ext _ isSel) by done.
    rewrite Hfilter, Hlast, El. simpl. unfold g. by rewrite Hb, Hidem.
  - unfold mapSelected. cbn [selectedBroker brokers].
    fold isSel. fold g.
    rewrite map_map, (map_ext _ g) by done.
    f_equal. by rewrite Hfilter, Hlast, El.
Qed.

Lemma entryOf_saveEntryIn (b : BrokerProfile) (e : DailyEntry) d :
  entryOf d (dailyEntries (saveEntryIn b e))
  = if decide (d = date e) then Some e else entryOf d (dailyEntries b).
Proof.
  unfold saveEntryIn. cbn [dailyEntries].
  destruct (decide (d = date e)) as [->|Hne].
  - apply entryOf_upsert_same.
  - by apply entryOf_upsert_other.
Qed.

Lemma entryOf_foldl_saveEntryIn (b : BrokerProfile) (es : list DailyEntry) d :
  entryOf d (dailyEntries (foldl saveEntryIn b es))
  = match entryOf d (rev es) with
    | Some e => Some e
    | None => entryOf d (dailyEntries b)
    end.
Proof.
  revert b. induction es as [|e es IH] using rev_ind; intros b; [done|].
  rewrite foldl_app, rev_app_distr. cbn [foldl rev app].
  rewrite entryOf_saveEntryIn.
  unfold entryOf at 2. cbn [find]. fold (entryOf d (rev es)).
  destruct (decide (d = date e)) as [->|Hne].
  - by rewrite String.eqb_refl.
  - rewrite (proj2 (String.eqb_neq (date e) d)) by done. apply IH.
Qed.

End SelectedProfile.

Section EntryExtras.
Import App.
Context {lc : Js.LowerCase}.

(** Property X3.  After [saveEntryIn b e] the entry found for the date of [e]
    is [e] and the entry found for any other date is the one found before;
    after [deleteEntryIn b d] no entry is found for [d] and the entry found
    for any other date is the one found before. *)
Theorem entry_lookup_after_save_and_delete (b : BrokerProfile) (e : DailyEntry) (d : string) :
  (∀ d', entryOf d' (dailyEntries (saveEntryIn b e))
         = if decide (d' = date e) then Some e else entryOf d' (dailyEntries b))
  ∧ (∀ d', entryOf d' (dailyEntries (deleteEntryIn b d))
           = if decide (d' = d) then None else entryOf d' (dailyEntries b)).
Proof.
  split; intros d'.
  - apply entryOf_saveEntryIn.
  - apply entryOf_filter.
Qed.

(** Property X4.  After a series of saves on a profile, the entry found for a
    date is the last entry of the series with that date, and the entry the
    profile had for that date when the series has none. *)
Theorem successive_saves_last_write_wins (b : BrokerProfile) (es : list DailyEntry) (d : string) :
  entryOf d (dailyEntries (foldl saveEntryIn b es))
  = match entryOf d (rev es) with
    | Some e => Some e
    | None => entryOf d (dailyEntries b)
    end.
Proof. apply entryOf_foldl_saveEntryIn. Qed.

(** Property X5.  [handleSaveEntry] and [handleDeleteEntry] are idempotent:
    saving the same entry twice, or deleting the same date twice, leaves the
    store and the selected profile as after the first time. *)
Theorem saving_or_deleting_twice_is_once (st : AppState) (e : DailyEntry) (d : string) :
  handleSaveEntry (handleSaveEntry st e) e = handleSaveEntry st e
  ∧ handleDeleteEntry (handleDeleteEntry st d) d = handleDeleteEntry st d.
Proof.
  split; apply mapSelected_idempotent; try done.
  - intros b. unfold saveEntryIn at 1. cbn [brokerName initialLeads monthlySalesGoal dailyEntries saveEntryIn].
    unfold saveEntryIn. f_equal. apply upsert_idempotent.
  - intros b. unfold deleteEntryIn. simpl. f_equal.
    rewrite list_filter_filter. apply list_filter_iff. tauto.
Qed.

(** Property X6.  Saving an entry for a date the profile has no entry for, and
    then deleting that date, gives back the profile as it was, its entries
    in the same order. *)
Theorem deleting_a_new_entry_restores_the_profile (b : BrokerProfile) (e : DailyEntry) :
  date e ∉ date <$> dailyEntries b →
  deleteEntryIn (saveEntryIn b e) (date e) = b.
Proof.
  intros Hfresh. unfold deleteEntryIn, saveEntryIn. simpl.
  rewrite filter_upsert_fresh by done. by destruct b.
Qed.

(** A new day added to the sample profile and deleted again. *)
Lemma deleting_a_new_entry_restores_the_profile_sample :
  deleteEntryIn (saveEntryIn sampleProfile sampleNewEntry) "2024-03-03" = sampleProfile.
Proof.
  apply (deleting_a_new_entry_restores_the_profile sampleProfile sampleNewEntry).
  apply (bool_decide_unpack _). vm_compute. exact I.
Defined.

(** Property X7.  In a store whose names are unique up to case and whose
    selected profile is one of its profiles, [handleSaveEntry] and
    [handleDeleteEntry] rewrite that profile at its place in the store and
    nothing else, and the selected profile becomes the rewritten profile, so
    that the dashboard and the store hold the same entries. *)
Theorem entry_handlers_write_the_selected_profile
    (st : AppState) (sel : BrokerProfile) (e : DailyEntry) (d : string) :
  consistentStore st → selectedBroker st = Some sel →
  (selectedBroker (handleSaveEntry st e) = Some (saveEntryIn sel e)
   ∧ ∃ i, brokers st !! i = Some sel
          ∧ brokers (handleSaveEntry st e) = <[i := saveEntryIn sel e]> (brokers st))
  ∧ (selectedBroker (handleDeleteEntry st d) = Some (deleteEntryIn sel d)
     ∧ ∃ i, brokers st !! i = Some sel
            ∧ brokers (handleDeleteEntry st d) = <[i := deleteEntryIn sel d]> (brokers st)).
Proof.
  intros Hc Hsel. split.
  - exact (mapSelected_selected (λ broker, saveEntryIn broker e) st sel Hc Hsel).
  - exact (mapSelected_selected (λ broker, deleteEntryIn broker d) st sel Hc Hsel).
Qed.

End EntryExtras.

(** An instance of X7, with names written in ASCII. *)
Section EntryExtrasExamples.
Import App.
#[local] Existing Instance asciiNames.

(** An entry saved and a date deleted with the second broker's dashboard open. *)
Lemma entry_handlers_write_the_selected_profile_sample :
  selectedBroker (handleSaveEntry sampleStore sampleNewEntry)
  = Some (saveEntryIn sampleSelected sampleNewEntry)
  ∧ selectedBroker (handleDeleteEntry sampleStore "2024-03-01")
    = Some (deleteEntryIn sampleSelected "2024-03-01").
Proof.
  assert (Hc : consistentStore sampleStore).
  { split.
    - apply (bool_decide_unpack _). vm_compute. exact I.
    - apply list_elem_of_further, list_elem_of_here. }
  destruct (entry_handlers_write_the_selected_profile sampleStore sampleSelected
              sampleNewEntry "2024-03-01" Hc eq_refl) as [[Hs _] [Hd _]].
  split; [exact Hs|exact Hd].
Defined.

End EntryExtrasExamples.

(** * Further properties of the projection and of the monthly summary *)

Section StorageOrder.
Import BrokerDashboard.

Lemma wellFormedEntries_perm l l' :
  l ≡ₚ l' → wellFormedEntries l → wellFormedEntries l'.
Proof. unfold wellFormedEntries. by intros ->. Qed.

Lemma distinctDates_perm l l' : l ≡ₚ l' → distinctDates l → distinctDates l'.
Proof.
  unfold distinctDates. intros Hp.
  change (map date l) with (date <$> l). change (map date l') with (date <$> l').
  by rewrite Hp.
Qed.

(** A list of distinct well-formed dates has one chronological order. *)
Lemma chronological_perm l l' :
  wellFormedEntries l → distinctDates l → l ≡ₚ l' →
  Js.Array_sort byDate l = Js.Array_sort byDate l'.
Proof.
  intros Hwf Hnd Hp.
  pose proof (wellFormedEntries_perm _ _ Hp Hwf) as Hwf'.
  pose proof (distinctDates_perm _ _ Hp Hnd) as Hnd'.
  apply (StronglySorted_unique_strong
           (λ a b, dayNumber (date a) < dayNumber (date b))).
  - intros. lia.
  - by apply chronological_strict.
  - by apply chronological_strict.
  - by rewrite !Array_sort_Permutation.
Qed.

Lemma sumDelta_perm l l' : l ≡ₚ l' → sumDelta l = sumDelta l'.
Proof. induction 1; simpl; lia. Qed.

Lemma sum_filter_perm (f : DailyEntry → Z) (g : DailyEntry → bool) l l' :
  l ≡ₚ l' →
  foldl (λ s e, s + f e) 0 (List.filter g l) = foldl (λ s e, s + f e) 0 (List.filter g l').
Proof.
  intros Hp. rewrite !foldl_add. f_equal.
  induction Hp as [|x l l' Hp IH|x y l|l l' l'' _ IH1 _ IH2]; simpl.
  - done.
  - destruct (g x); simpl; lia.
  - destruct (g x), (g y); simpl; lia.
  - lia.
Qed.

Lemma sumBefore_perm k l l' : l ≡ₚ l' → sumBefore k l = sumBefore k l'.
Proof. intros Hp. unfold sumBefore. apply sumDelta_perm. by rewrite Hp. Qed.

Lemma List_filter_nil {A} (g : A → bool) (l : list A) :
  Forall (λ x, g x = false) l → List.filter g l = [].
Proof. induction 1 as [|x l Hx Hl IH]; simpl; [done|]. by rewrite Hx. Qed.

End StorageOrder.

Section StorageOrderExtras.
Import BrokerDashboard.

(** Property X8.  The balance projection does not depend on the order in which
    a profile stores its entries: two profiles with the same initial leads
    whose entries, of well-formed and pairwise distinct dates, are the same
    up to order have the same [entriesWithCalculatedBalances]. *)
Theorem projection_ignores_storage_order (p p' : BrokerProfile) :
  wellFormedEntries (dailyEntries p) → distinctDates (dailyEntries p) →
  initialLeads p = initialLeads p' → dailyEntries p ≡ₚ dailyEntries p' →
  entriesWithCalculatedBalances p = entriesWithCalculatedBalances p'.
Proof.
  intros Hwf Hnd Hinit Hp. unfold entriesWithCalculatedBalances.
  by rewrite (chronological_perm _ _ Hwf Hnd Hp), Hinit.
Qed.

(** The sample profile and the same entries stored in the reverse order. *)
Lemma projection_ignores_storage_order_sample :
  entriesWithCalculatedBalances sampleProfile
  = entriesWithCalculatedBalances
      (brokerWith "Ana" 100 (rev (dailyEntries sampleProfile))).
Proof.
  apply projection_ignores_storage_order.
  - repeat constructor; by eexists.
  - apply (bool_decide_unpack _). vm_compute. exact I.
  - reflexivity.
  - apply Permutation_rev.
Defined.

(** Property X9.  The monthly summary does not depend on the order in which a
    profile stores its entries: for a month [YYYY-MM], two profiles with the
    same initial leads whose entries, of well-formed dates, are the same up
    to order have the same [monthlySummary]. *)
Theorem monthly_summary_ignores_storage_order (p p' : BrokerProfile) (m : string) :
  wellFormedEntries (dailyEntries p) → wellFormedMonth m →
  initialLeads p = initialLeads p' → dailyEntries p ≡ₚ dailyEntries p' →
  monthlySummary p m = monthlySummary p' m.
Proof.
  intros Hwf Hm Hinit Hp.
  pose proof (wellFormedEntries_perm _ _ Hp Hwf) as Hwf'.
  assert (Hs : Js.Array_sort byDate (dailyEntries p)
               ≡ₚ Js.Array_sort byDate (dailyEntries p'))
    by (by rewrite !Array_sort_Permutation).
  pose proof (summary_initial p m Hwf Hm) as Hi.
  pose proof (summary_initial p' m Hwf' Hm) as Hi'.
  rewrite (sumBefore_perm _ _ _ Hs), Hinit, <- Hi' in Hi.
  unfold monthlySummary in *. cbn [initialLeadsForMonth] in Hi.
  rewrite Hi.
  rewrite (sum_filter_perm newLeads _ _ _ Hs).
  rewrite (sum_filter_perm (λ e, orZero (repiqueLeads e)) _ _ _ Hs).
  rewrite (sum_filter_perm signedLeads _ _ _ Hs).
  rewrite (sum_filter_perm discardedLeads _ _ _ Hs).
  done.
Qed.

(** A profile of three months and the same entries stored in the reverse order. *)
Lemma monthly_summary_ignores_storage_order_sample :
  monthlySummary quarterProfile "2024-03"
  = monthlySummary (brokerWith "Bia" 40 (rev (dailyEntries quarterProfile))) "2024-03".
Proof.
  apply monthly_summary_ignores_storage_order.
  - repeat constructor; by eexists.
  - by eexists.
  - reflexivity.
  - apply Permutation_rev.
Defined.

(** Property X10.  For a month in which the profile has no entry,
    [monthlySummary] gives four sums equal to 0 and a final balance equal to
    the balance at the start of the month. *)
Theorem month_without_entries_keeps_the_balance (p : BrokerProfile) (m : string) :
  Forall (λ e, Js.startsWith (date e) m = false) (dailyEntries p) →
  monthNewLeads (monthlySummary p m) = 0
  ∧ monthRepiqueLeads (monthlySummary p m) = 0
  ∧ monthSignedLeads (monthlySummary p m) = 0
  ∧ monthDiscardedLeads (monthlySummary p m) = 0
  ∧ finalLeadsForMonth (monthlySummary p m) = initialLeadsForMonth (monthlySummary p m).
Proof.
  intros Hnone.
  assert (Hf : List.filter (λ e, Js.startsWith (date e) m)
                           (Js.Array_sort byDate (dailyEntries p)) = []).
  { apply List_filter_nil. by rewrite Array_sort_Permutation. }
  unfold monthlySummary. simpl. rewrite Hf. simpl. repeat split; lia.
Qed.

(** February 2024 of a profile with entries in January and March. *)
Lemma month_without_entries_keeps_the_balance_sample :
  finalLeadsForMonth (monthlySummary quarterProfile "2024-02") = 51.
Proof.
  destruct (month_without_entries_keeps_the_balance quarterProfile "2024-02")
    as (_ & _ & _ & _ & ->).
  - repeat constructor.
  - vm_compute. reflexivity.
Defined.

End StorageOrderExtras.

(** * Further properties of the monthly report and of the CSV export *)

Section MonthSlice.
Import BrokerDashboard.

Lemma sorted_split_by {A} (key : A → Z) (l : list A) (k : Z) :
  StronglySorted (λ a b, key a <= key b) l →
  ∃ pre post, l = pre ++ post
    ∧ Forall (λ x, key x < k) pre ∧ Forall (λ x, k <= key x) post.
Proof.
  induction 1 as [|x l Hs IH Hx].
  - by exists [], [].
  - destruct (Z.lt_ge_cases (key x) k) as [Hlt|Hge].
    + destruct IH as (pre & post & -> & Hpre & Hpost).
      exists (x :: pre), post. split; [done|]. split; [by constructor|done].
    + exists [], (x :: l). split; [done|]. split; [constructor|].
      constructor; [done|]. eapply Forall_impl; [exact Hx|]. simpl. lia.
Qed.

Lemma sorted_by_month l :
  wellFormedEntries l →
  StronglySorted (λ a b, dayNumber (date a) <= dayNumber (date b)) l →
  StronglySorted (λ a b, monthIndex (date a) <= monthIndex (date b)) l.
Proof.
  intros Hwf Hs. induction Hs as [|x l Hs IH Hx]; [constructor|].
  apply Forall_cons in Hwf as [[n Hn] Hwf].
  constructor; [by apply IH|].
  apply Forall_forall. intros y Hy.
  rewrite Forall_forall in Hx. specialize (Hx y Hy). simpl in Hx.
  unfold wellFormedEntries in Hwf. rewrite Forall_forall in Hwf.
  destruct (Hwf y Hy) as [n' Hn'].
  unfold dayNumber in Hx. rewrite Hn, Hn' in Hx. simpl in Hx.
  by eapply monthIndex_mono.
Qed.

(** The chronological list is the months before, the month, the months after. *)
Lemma month_split l k :
  wellFormedEntries l →
  StronglySorted (λ a b, dayNumber (date a) <= dayNumber (date b)) l →
  ∃ before during after, l = before ++ during ++ after
    ∧ Forall (λ e, monthIndex (date e) < k) before
    ∧ Forall (λ e, monthIndex (date e) = k) during
    ∧ Forall (λ e, k < monthIndex (date e)) after.
Proof.
  intros Hwf Hs. pose proof (sorted_by_month _ Hwf Hs) as Hm.
  destruct (sorted_split_by (λ e, monthIndex (date e)) l k Hm)
    as (before & rest & -> & Hbefore & Hrest).
  apply StronglySorted_app_1_r in Hm.
  destruct (sorted_split_by (λ e, monthIndex (date e)) rest (k + 1) Hm)
    as (during & after & -> & Hduring & Hafter).
  exists before, during, after. split; [done|]. split; [done|].
  apply Forall_app in Hrest as [Hd _]. split.
  - apply Forall_forall. intros e He.
    rewrite Forall_forall in Hd, Hduring.
    specialize (Hd e He). specialize (Hduring e He). simpl in *. lia.
  - eapply Forall_impl; [exact Hafter|]. simpl. lia.
Qed.

Lemma sorted_NoDup {A} (key : A → Z) (l : list A) :
  StronglySorted (λ a b, key a < key b) l → NoDup (key <$> l).
Proof.
  induction 1 as [|x l Hs IH Hx]; [constructor|].
  rewrite fmap_cons. apply NoDup_cons. split; [|done].
  intros (y & Heq & Hy)%list_elem_of_fmap.
  rewrite Forall_forall in Hx. specialize (Hx y Hy). simpl in Hx. lia.
Qed.

Lemma sorted_filter {A} (R : relation A) (Q : A → Prop) `{!∀ x, Decision (Q x)} l :
  StronglySorted R l → StronglySorted R (filter Q l).
Proof.
  induction 1 as [|x l Hs IH Hx]; [constructor|].
  rewrite filter_cons. destruct (decide (Q x)); [|done].
  constructor; [done|]. rewrite Forall_forall in *.
  intros y [_ Hy]%list_elem_of_filter. by apply Hx.
Qed.

Lemma List_filter_rev {A} (g : A → bool) (l : list A) :
  List.filter g (rev l) = rev (List.filter g l).
Proof.
  induction l as [|x l IH]; simpl; [done|].
  rewrite List.filter_app, IH. simpl.
  destruct (g x); simpl; [done|by rewrite app_nil_r].
Qed.

(** Sorting the reverse of a strictly sorted list gives the list back. *)
Lemma sort_rev_sorted {A} (cmp : A → A → Z) (key : A → Z) (P : A → Prop) (l : list A) :
  (∀ x y, P x → P y → (cmp x y <= 0 ↔ key x <= key y)) →
  Forall P l → StronglySorted (λ a b, key a < key b) l →
  Js.Array_sort cmp (rev l) = l.
Proof.
  intros Hcmp HP Hs.
  apply (StronglySorted_unique_strong (λ a b, key a < key b)).
  - intros. lia.
  - apply (Array_sort_strict cmp key P Hcmp).
    + eapply Forall_forall. intros x Hx. rewrite Forall_forall in HP. apply HP.
      by rewrite list_elem_of_In, in_rev, <- list_elem_of_In.
    + rewrite <- (Permutation_rev l). by apply sorted_NoDup.
  - done.
  - by rewrite Array_sort_Permutation, <- Permutation_rev.
Qed.

End MonthSlice.

Section ReportExtras.
Import BrokerDashboard.

Lemma sumBefore_split k before during after :
  Forall (λ e, monthIndex (date e) < k) before →
  Forall (λ e, monthIndex (date e) = k) during →
  Forall (λ e, k < monthIndex (date e)) after →
  sumBefore k (before ++ during ++ after) = sumDelta before
  ∧ sumBefore (k + 1) (before ++ during ++ after) = sumDelta before + sumDelta during.
Proof.
  intros Hb Hd Ha. unfold sumBefore. rewrite !filter_app, !sumDelta_app. split.
  - rewrite (filter_all _ before) by done.
    rewrite (filter_none _ during), (filter_none _ after); [simpl; lia|..].
    + eapply Forall_impl; [exact Ha|]. simpl. lia.
    + eapply Forall_impl; [exact Hd|]. simpl. lia.
  - rewrite (filter_all _ before), (filter_all _ during), (filter_none _ after);
      [simpl; lia|..].
    + eapply Forall_impl; [exact Ha|]. simpl. lia.
    + eapply Forall_impl; [exact Hd|]. simpl. lia.
    + eapply Forall_impl; [exact Hb|]. simpl. lia.
Qed.

(** Property X11.  For a profile with well-formed, pairwise distinct dates and
    a month [YYYY-MM], [reportEntries] is the slice of the chronological
    projection (the one the CSV export writes) made of the entries of that
    month, in the same order; when the month has entries, the balance at the
    start of its first row is the [initialLeadsForMonth] of the monthly
    summary and the balance at the end of its last row is the
    [finalLeadsForMonth], so that the table of the report and the summary
    cards above it agree. *)
Theorem report_entries_are_the_month_in_order (p : BrokerProfile) (m : string) :
  wellFormedEntries (dailyEntries p) → distinctDates (dailyEntries p) →
  wellFormedMonth m →
  reportEntries p m = filter (inMonth m) (csvChronologicalEntries p)
  ∧ from_option startOfDayBalance (initialLeadsForMonth (monthlySummary p m))
                (head (reportEntries p m))
    = initialLeadsForMonth (monthlySummary p m)
  ∧ from_option endOfDayBalance (finalLeadsForMonth (monthlySummary p m))
                (last (reportEntries p m))
    = finalLeadsForMonth (monthlySummary p m).
Proof.
  intros Hwf Hnd Hm.
  pose proof (chronological_wellFormed _ Hwf) as Hwfs.
  pose proof (chronological_strict _ Hwf Hnd) as Hstrict.
  pose proof (chronological_sorted _ Hwf) as Hsorted.
  set (sorted := Js.Array_sort byDate (dailyEntries p)) in *.
  set (chron := mapWithBalance (initialLeads p) sorted).
  assert (Hcsv : csvChronologicalEntries p = chron).
  { unfold csvChronologicalEntries, entriesWithCalculatedBalances.
    by rewrite rev_involutive. }
  assert (Hwfc : Forall (λ x, wellFormedDate (date (entry x))) chron)
    by (by apply (Forall_mapWithBalance (λ e, wellFormedDate (date e)))).
  assert (Hreport : reportEntries p m = filter (inMonth m) chron).
  { unfold reportEntries, entriesWithCalculatedBalances. fold sorted. fold chron.
    rewrite List_filter_rev.
    rewrite (List_filter_decide _ (inMonth m)).
    2:{ eapply Forall_impl; [exact Hwfc|]. intros x [n Hn]. simpl.
        destruct (before_month _ _ _ Hn Hm) as (_ & -> & _).
        unfold inMonth. apply Z.eqb_eq. }
    apply (sort_rev_sorted _ (λ x, dayNumber (date (entry x)))
             (λ x, wellFormedDate (date (entry x)))).
    - intros x y Hx Hy. by apply byDate_key.
    - rewrite Forall_forall in Hwfc. apply Forall_forall.
      intros x [_ Hx]%list_elem_of_filter. by apply Hwfc.
    - apply sorted_filter.
      by apply (mapWithBalance_sorted (λ a b, dayNumber (date a) < dayNumber (date b))). }
  rewrite Hcsv. split; [done|]. rewrite Hreport.
  destruct (month_split sorted (monthIndex m) Hwfs Hsorted)
    as (before & during & after & Hsplit & Hb & Hd & Ha).
  pose proof (summary_initial p m Hwf Hm) as Hi.
  pose proof (summary_final p m Hwf Hm) as Hf.
  fold sorted in Hi, Hf. rewrite Hsplit in Hi, Hf.
  destruct (sumBefore_split _ _ _ _ Hb Hd Ha) as [Hs1 Hs2].
  rewrite Hs1 in Hi. rewrite Hs2 in Hf.
  assert (Hslice : filter (inMonth m) chron
                   = mapWithBalance (initialLeads p + sumDelta before) during).
  { unfold chron. rewrite Hsplit, !mapWithBalance_app, !filter_app.
    rewrite (filter_none _ (mapWithBalance _ before)).
    2:{ apply (Forall_mapWithBalance (λ e, ¬ monthIndex (date e) = monthIndex m)).
        eapply Forall_impl; [exact Hb|]. simpl. lia. }
    rewrite (filter_all _ (mapWithBalance _ during))
      by (by apply (Forall_mapWithBalance (λ e, monthIndex (date e) = monthIndex m))).
    rewrite (filter_none _ (mapWithBalance _ after)).
    2:{ apply (Forall_mapWithBalance (λ e, ¬ monthIndex (date e) = monthIndex m)).
        eapply Forall_impl; [exact Ha|]. simpl. lia. }
    by rewrite app_nil_r. }
  rewrite Hslice, Hi, Hf. split.
  - rewrite head_lookup.
    destruct (mapWithBalance _ during !! 0%nat) as [x|] eqn:E; simpl; [|done].
    by apply mapWithBalance_head in E.
  - pose proof (mapWithBalance_last (initialLeads p + sumDelta before) during) as Hl.
    destruct (last _) as [x|]; cbn [from_option fmap option_fmap option_map] in *; [|done].
    destruct during as [|e during]; [done|]. injection Hl as Hl. rewrite Hl. simpl. lia.
Qed.

(** The two entries of January 2024. *)
Lemma report_entries_are_the_month_in_order_sample :
  reportEntries quarterProfile "2024-01"
  = filter (inMonth "2024-01") (csvChronologicalEntries quarterProfile)
  ∧ (date ∘ entry) <$> reportEntries quarterProfile "2024-01"
    = ["2024-01-10"; "2024-01-31"].
Proof.
  split; [|vm_compute; reflexivity].
  apply (proj1 (report_entries_are_the_month_in_order quarterProfile "2024-01"
                  ltac:(repeat constructor; by eexists)
                  ltac:(apply (bool_decide_unpack _); vm_compute; exact I)
                  ltac:(by eexists))).
Defined.

(** Property X12.  [handleGenerateCsv] reports that there is nothing to export
    when the profile has no entry.  Otherwise it writes one row per entry,
    each of thirteen numbers; the first number of the first row is the
    initial leads of the profile, the first number of every later row is
    the last number of the row before it (a day starts from the balance the
    day before ended with), and the rows are in chronological order when the
    dates are well formed. *)
Theorem csv_rows_follow_the_chronological_fold (p : BrokerProfile) :
  (dailyEntries p = [] → handleGenerateCsv p = inl [AlertNothingToExport])
  ∧ (dailyEntries p ≠ [] →
       ∃ rows, handleGenerateCsv p = inr rows
         ∧ length rows = length (dailyEntries p)
         ∧ Forall (λ row, length row.2 = 13%nat) rows
         ∧ (∀ row, head rows = Some row → head row.2 = Some (initialLeads p))
         ∧ (∀ i row next, rows !! i = Some row → rows !! S i = Some next →
              head next.2 = last row.2)
         ∧ (wellFormedEntries (dailyEntries p) →
              StronglySorted (λ a b, dayNumber a <= dayNumber b) (fst <$> rows))).
Proof.
  unfold handleGenerateCsv. split.
  - intros ->. done.
  - intros Hne. rewrite bool_decide_eq_false_2 by done.
    eexists. split; [reflexivity|].
    unfold csvChronologicalEntries, entriesWithCalculatedBalances.
    rewrite rev_involutive.
    set (sorted := Js.Array_sort byDate (dailyEntries p)).
    change (map csvRow ?l) with (csvRow <$> l).
    split; [|split; [|split; [|split]]].
    + rewrite length_fmap, <- (length_fmap entry), entry_mapWithBalance.
      apply Permutation_length, Array_sort_Permutation.
    + apply Forall_fmap, Forall_forall. intros x _. simpl. done.
    + intros row. rewrite head_lookup, list_lookup_fmap.
      destruct (mapWithBalance _ _ !! 0%nat) as [x|] eqn:E; simpl; [|done].
      intros [= <-]. simpl. f_equal. by apply mapWithBalance_head in E.
    + intros i row next. rewrite !list_lookup_fmap.
      destruct (mapWithBalance _ _ !! i) as [x|] eqn:Ex; simpl; [|done].
      destruct (mapWithBalance _ _ !! S i) as [y|] eqn:Ey; simpl; [|done].
      intros [= <-] [= <-]. simpl.
      by rewrite (mapWithBalance_next _ _ _ _ _ Ex Ey).
    + intros Hwf. rewrite <- list_fmap_compose.
      apply (StronglySorted_fmap _ (λ x y, dayNumber (date (entry x))
                                           <= dayNumber (date (entry y)))).
      * done.
      * apply (mapWithBalance_sorted (λ a b, dayNumber (date a) <= dayNumber (date b))).
        by apply chronological_sorted.
Qed.

(** The two rows of the sample profile. *)
Lemma csv_rows_follow_the_chronological_fold_sample :
  ∃ rows, handleGenerateCsv sampleProfile = inr rows ∧ length rows = 2%nat.
Proof.
  destruct (proj2 (csv_rows_follow_the_chronological_fold sampleProfile))
    as (rows & Hrows & Hlen & _); [discriminate|].
  exists rows. split; [exact Hrows|exact Hlen].
Defined.

End ReportExtras.

(** * Further properties of the bulk edit *)

Section BulkForms.
Import App BrokerDashboard.

Lemma fieldOrder_complete key : key ∈ fieldOrder.
Proof.
  destruct key; unfold fieldOrder;
    repeat (first [apply list_elem_of_here | apply list_elem_of_further]).
Qed.

Lemma someError_false (errs : Field → option bool) :
  someError errs = false ↔ ∀ key, errs key ≠ Some true.
Proof.
  unfold someError. split.
  - intros Hex key Hkey.
    assert (existsb (λ key, default false (errs key)) fieldOrder = true) as E; [|congruence].
    apply existsb_exists. exists key. split.
    + apply list_elem_of_In, fieldOrder_complete.
    + by rewrite Hkey.
  - intros Hall. apply not_true_is_false. intros (key & _ & Hkey)%existsb_exists.
    apply (Hall key). by destruct (errs key) as [[]|].
Qed.

(** A negative number in the bulk form carries its flag. *)
Lemma bulkFormAfter_flags form inputs :
  (∀ key n, bulkDailyData form key = Num n → n < 0 → bulkErrors form key = Some true) →
  ∀ key n, bulkDailyData (bulkFormAfter form inputs) key = Num n → n < 0 →
           bulkErrors (bulkFormAfter form inputs) key = Some true.
Proof.
  unfold bulkFormAfter. induction inputs as [|[field value] inputs IH] using rev_ind;
    intros Hform key n; [apply Hform|].
  rewrite foldl_app. cbn [foldl fst snd handleBulkNumberChange bulkDailyData bulkErrors].
  case_bool_decide as Hk.
  - destruct value as [v|]; [|done]. intros [= ->] Hn.
    by rewrite (proj2 (Z.ltb_lt _ _) Hn).
  - by apply IH.
Qed.

Lemma bulkFormAfter_dates form inputs :
  bulkStartDate (bulkFormAfter form inputs) = bulkStartDate form
  ∧ bulkEndDate (bulkFormAfter form inputs) = bulkEndDate form.
Proof.
  unfold bulkFormAfter. induction inputs as [|[field value] inputs IH] using rev_ind; [done|].
  by rewrite foldl_app.
Qed.

(** Every entry the loop saves is the entry written for some date. *)
Lemma bulkLoop_entries turns tz p form : ∀ currentDate endDate l,
  bulkLoop turns tz p form currentDate endDate = Some l →
  Forall (λ x, ∃ dateString, x = updatedEntry p form dateString) l.
Proof.
  induction turns as [|turns IH]; intros currentDate endDate l; simpl.
  - destruct (currentDate <=? endDate); [done|]. by intros [= <-].
  - destruct (currentDate <=? endDate); [|by intros [= <-]].
    destruct (bulkLoop turns _ _ _ _ _) as [rest|] eqn:E; [|done].
    intros [= <-]. constructor; [by eexists|]. by eapply IH.
Qed.

Lemma handleBulkSave_entries turns tz p form out :
  handleBulkSave turns tz p form = Some out →
  Forall (λ x, ∃ dateString, x = updatedEntry p form dateString) (savedEntries out)
  ∧ (savedEntries out ≠ [] → someError (bulkErrors form) = false).
Proof.
  unfold handleBulkSave, Js.Date_getTime, Js.Date_getTime_local.
  destruct (Js.dayOfDate (bulkStartDate form)) as [s|];
    destruct (Js.dayOfDate (bulkEndDate form)) as [e|]; simpl;
    try destruct (_ <? _); try (by intros [= <-]);
    destruct (someError (bulkErrors form)); try (by intros [= <-]).
  destruct (bulkLoop _ _ _ _ _ _) as [l|] eqn:El; [|done]. intros [= <-]. simpl.
  split; [|done]. by eapply bulkLoop_entries.
Qed.

End BulkForms.

Section BulkStore.
Import App BrokerDashboard.
Context {lc : Js.LowerCase}.

(** A series of saves on a consistent store is the same series on the
    selected profile. *)
Lemma foldl_handleSaveEntry st sel es :
  consistentStore st → selectedBroker st = Some sel →
  consistentStore (foldl handleSaveEntry st es)
  ∧ selectedBroker (foldl handleSaveEntry st es) = Some (foldl saveEntryIn sel es).
Proof.
  revert st sel. induction es as [|e es IH]; intros st sel Hc Hsel; [done|].
  cbn [foldl]. apply IH.
  - exact (perform_consistent st (SaveEntry e) Hc).
  - exact (proj1 (mapSelected_selected (λ broker, saveEntryIn broker e) st sel Hc Hsel)).
Qed.

Lemma foldl_saveEntryIn_distinct b es :
  distinctDates (dailyEntries b) → distinctDates (dailyEntries (foldl saveEntryIn b es)).
Proof.
  revert b. induction es as [|e es IH]; intros b Hb; [done|].
  cbn [foldl]. by apply IH, saveEntryIn_distinct.
Qed.

Lemma foldl_saveEntryIn_profile b es :
  brokerName (foldl saveEntryIn b es) = brokerName b
  ∧ initialLeads (foldl saveEntryIn b es) = initialLeads b
  ∧ monthlySalesGoal (foldl saveEntryIn b es) = monthlySalesGoal b.
Proof.
  revert b. induction es as [|e es IH]; intros b; [done|].
  cbn [foldl]. by destruct (IH (saveEntryIn b e)) as (-> & -> & ->).
Qed.

(** The entry a run of days holds for a date. *)
Lemma entryOf_days_in (f : string → DailyEntry) (days : list Z) day :
  (∀ ds, date (f ds) = ds) → day ∈ days →
  entryOf (Js.toISODate (day * Js.msPerDay))
          (rev ((λ day, f (Js.toISODate (day * Js.msPerDay))) <$> days))
  = Some (f (Js.toISODate (day * Js.msPerDay))).
Proof.
  intros Hf Hin. unfold entryOf.
  induction days as [|day' days IH] using rev_ind; [by apply elem_of_nil in Hin|].
  rewrite fmap_app, rev_app_distr. cbn [fmap list_fmap rev app find].
  rewrite Hf.
  destruct (String.eqb_spec (Js.toISODate (day' * Js.msPerDay))
                            (Js.toISODate (day * Js.msPerDay))) as [E|Hne].
  - by rewrite E.
  - apply IH. apply elem_of_app in Hin as [Hin|Hin%list_elem_of_singleton]; [done|].
    by subst.
Qed.

Lemma entryOf_days_out (f : string → DailyEntry) (days : list Z) d :
  (∀ ds, date (f ds) = ds) →
  (∀ day, day ∈ days → d ≠ Js.toISODate (day * Js.msPerDay)) →
  entryOf d (rev ((λ day, f (Js.toISODate (day * Js.msPerDay))) <$> days)) = None.
Proof.
  intros Hf Hd. apply find_missing. intros old Hin%list_elem_of_In%in_rev%list_elem_of_In%list_elem_of_fmap.
  destruct Hin as (day & -> & Hin). rewrite Hf. intros <-. by apply (Hd day).
Qed.

End BulkStore.

Section BulkExtras.
Import App BrokerDashboard.
Context {lc : Js.LowerCase}.

(** Property X13.  Whatever is typed in the fields of the bulk form, from the
    empty form on, every number of the form that [handleBulkSave] writes to
    an entry is non-negative: when the save goes through, an entry it saves
    holds each number of the form in its field, and that number is not
    negative, a negative number keeping its field flagged and the save
    refused until the field is typed again. *)
Theorem bulk_edit_never_saves_a_negative_number
    (startDate endDate : string) (inputs : list (Field * option Z))
    (turns : nat) (tz : Js.TimeZone) (p : BrokerProfile) (out : BulkOutcome) :
  let form := bulkFormAfter (initialBulkForm startDate endDate) inputs in
  handleBulkSave turns tz p form = Some out →
  Forall (λ x, ∀ key n, bulkDailyData form key = Num n →
                        getField key x = Some n ∧ 0 <= n)
         (savedEntries out).
Proof.
  intros form Hout. destruct (handleBulkSave_entries _ _ _ _ _ Hout) as [Hall Herr].
  destruct (savedEntries out) as [|x0 l] eqn:El; [done|].
  specialize (Herr ltac:(done)).
  eapply Forall_impl; [exact Hall|]. intros x [ds ->] key n Hkey. split.
  - rewrite getField_updatedEntry. unfold bulkValue. by rewrite Hkey.
  - destruct (Z.lt_ge_cases n 0) as [Hneg|]; [|done]. exfalso.
    apply (proj1 (someError_false _) Herr key).
    by apply (bulkFormAfter_flags (initialBulkForm startDate endDate) inputs) with n.
Qed.

(** A negative number typed and then corrected. *)
Lemma bulk_edit_never_saves_a_negative_number_sample :
  ∃ out,
    handleBulkSave 4 Brasilia sampleProfile
      (bulkFormAfter (initialBulkForm "2024-02-28" "2024-03-02")
         [(NewLeads, Some (-7)); (NewLeads, Some 7)]) = Some out
    ∧ Forall (λ x, getField NewLeads x = Some 7) (savedEntries out).
Proof.
  eexists. split; [vm_compute; reflexivity|].
  eapply Forall_impl.
  - apply (bulk_edit_never_saves_a_negative_number "2024-02-28" "2024-03-02"
             [(NewLeads, Some (-7)); (NewLeads, Some 7)] 4 Brasilia sampleProfile).
    vm_compute. reflexivity.
  - intros x Hx. exact (proj1 (Hx NewLeads 7 eq_refl)).
Defined.

(** Property X14.  [handleBulkSave] saves nothing and shows the date-order
    message whenever the start date is a later calendar date than the end
    date, whether or not a field is flagged.  When one of the two dates is
    not a calendar date (a cleared date input), the loop takes no turn:
    nothing is saved, and the handler shows the message asking to correct
    the fields when one is flagged, and otherwise the success message, with
    the form emptied. *)
Theorem bulk_save_guards (turns : nat) (tz : Js.TimeZone) (p : BrokerProfile) (form : BulkForm) :
  (∀ s e, Js.dayOfDate (bulkStartDate form) = Some s →
          Js.dayOfDate (bulkEndDate form) = Some e → e < s →
     handleBulkSave turns tz p form
     = Some {| savedEntries := []; shown := AlertBulkDateOrder; formAfter := None |})
  ∧ ((Js.dayOfDate (bulkStartDate form) = None ∨ Js.dayOfDate (bulkEndDate form) = None) →
     handleBulkSave turns tz p form
     = Some (if someError (bulkErrors form)
             then {| savedEntries := []; shown := AlertFixErrors; formAfter := None |}
             else {| savedEntries := []; shown := AlertBulkSaved;
                     formAfter := Some (initialBulkForm (bulkStartDate form)
                                                        (bulkEndDate form)) |})).
Proof.
  unfold handleBulkSave, Js.Date_getTime, Js.Date_getTime_local. split.
  - intros s e -> -> Hse. simpl.
    by rewrite (proj2 (Z.ltb_lt _ _)) by (unfold Js.msPerDay; lia).
  - intros [E|E].
    + rewrite E. simpl. by destruct (someError _). 
    + rewrite E. destruct (Js.dayOfDate (bulkStartDate form)); simpl; by destruct (someError _).
Qed.

(** A start date after the end date, and a cleared start date. *)
Lemma bulk_save_guards_sample :
  handleBulkSave 4 Brasilia sampleProfile (initialBulkForm "2024-03-02" "2024-02-28")
  = Some {| savedEntries := []; shown := AlertBulkDateOrder; formAfter := None |}
  ∧ shown <$> handleBulkSave 4 Brasilia sampleProfile (initialBulkForm "" "2024-02-28")
    = Some AlertBulkSaved.
Proof.
  split.
  - apply (proj1 (bulk_save_guards 4 Brasilia sampleProfile
                    (initialBulkForm "2024-03-02" "2024-02-28")) 19784 19781).
    + vm_compute. reflexivity.
    + vm_compute. reflexivity.
    + lia.
  - rewrite (proj2 (bulk_save_guards 4 Brasilia sampleProfile
                      (initialBulkForm "" "2024-02-28"))).
    + reflexivity.
    + left. reflexivity.
Defined.

(** Property X15.  Under the conditions of a bulk save that goes through (two
    calendar dates with the start not after the end; no field flagged; a
    time zone that at local midnight of every day from the start date to
    the day after the end date is at or west of Greenwich, less than a day
    behind it, and in which no change of the clock skips local midnight of
    a day from the start date to the end date; turns enough for the loop;
    pairwise distinct dates), applying the saves of [handleBulkSave] to a
    consistent store through [handleSaveEntry], in order, leaves a
    consistent store whose selected profile has the same name and initial
    leads, pairwise distinct dates, the entry written by the bulk edit for
    each day of the range, and for every other date the entry it had
    before. *)
Theorem bulk_edit_reaches_the_store
    (st : AppState) (tz : Js.TimeZone) (p : BrokerProfile) (form : BulkForm)
    (s e : Z) (turns : nat) :
  consistentStore st → selectedBroker st = Some p →
  Js.dayOfDate (bulkStartDate form) = Some s →
  Js.dayOfDate (bulkEndDate form) = Some e →
  s <= e →
  someError (bulkErrors form) = false →
  (∀ d, s <= d <= e + 1 → westAtMidnight tz d) →
  (∀ d, s <= d <= e → midnightExists tz d) →
  distinctDates (dailyEntries p) →
  (Z.to_nat (e - s + 1) <= turns)%nat →
  ∃ out p',
    handleBulkSave turns tz p form = Some out
    ∧ let st' := foldl handleSaveEntry st (savedEntries out) in
      consistentStore st'
      ∧ selectedBroker st' = Some p'
      ∧ brokerName p' = brokerName p ∧ initialLeads p' = initialLeads p
      ∧ distinctDates (dailyEntries p')
      ∧ (∀ day, s <= day <= e →
           entryOf (Js.toISODate (day * Js.msPerDay)) (dailyEntries p')
           = Some (updatedEntry p form (Js.toISODate (day * Js.msPerDay))))
      ∧ (∀ d, (∀ day, s <= day <= e → d ≠ Js.toISODate (day * Js.msPerDay)) →
           entryOf d (dailyEntries p') = entryOf d (dailyEntries p)).
Proof.
  intros Hc Hsel Hs He Hse Herr Hwest Hmid Hnd Hturns.
  assert (Hguard : (e * Js.msPerDay <? s * Js.msPerDay) = false)
    by (apply Z.ltb_ge; unfold Js.msPerDay; lia).
  unfold handleBulkSave, Js.Date_getTime, Js.Date_getTime_local.
  rewrite Hs, He, Herr. cbn [fmap option_fmap option_map]. rewrite Hguard.
  rewrite (bulkLoop_days tz p form s e Hse Hwest Hmid (Z.to_nat (e - s + 1)))
    by (done || lia).
  simpl. eexists. eexists. split; [reflexivity|]. cbn [savedEntries].
  destruct (foldl_handleSaveEntry st p
              ((λ d, updatedEntry p form (Js.toISODate (d * Js.msPerDay)))
                 <$> seqZ s (e - s + 1)) Hc Hsel) as [Hc' Hsel'].
  split; [exact Hc'|]. split; [exact Hsel'|].
  destruct (foldl_saveEntryIn_profile p
              ((λ d, updatedEntry p form (Js.toISODate (d * Js.msPerDay)))
                 <$> seqZ s (e - s + 1))) as (Hn & Hi & _).
  split; [exact Hn|]. split; [exact Hi|].
  split; [by apply foldl_saveEntryIn_distinct|]. split.
  - intros day Hday. rewrite entryOf_foldl_saveEntryIn.
    rewrite (entryOf_days_in (updatedEntry p form)); [done|done|].
    apply elem_of_seqZ. lia.
  - intros d Hd. rewrite entryOf_foldl_saveEntryIn.
    rewrite (entryOf_days_out (updatedEntry p form)); [done|done|].
    intros day Hin%elem_of_seqZ. apply Hd. lia.
Qed.

End BulkExtras.

(** An instance of X15, with names written in ASCII. *)
Section BulkExtrasExamples.
Import App BrokerDashboard.
#[local] Existing Instance asciiNames.

(** Four days written to the profile of the open dashboard. *)
Lemma bulk_edit_reaches_the_store_sample :
  ∃ out p',
    handleBulkSave 4 Brasilia sampleSelected sampleBulkForm = Some out
    ∧ App.selectedBroker (foldl App.handleSaveEntry sampleStore (savedEntries out)) = Some p'
    ∧ entryOf "2024-02-29" (dailyEntries p')
      = Some (updatedEntry sampleSelected sampleBulkForm "2024-02-29")
    ∧ entryOf "2024-03-04" (dailyEntries p') = None.
Proof.
  destruct (bulk_edit_reaches_the_store sampleStore Brasilia sampleSelected
              sampleBulkForm 19781 19784 4)
    as (out & p' & Hout & _ & Hsel & _ & _ & _ & Hin & Hother).
  - split.
    + apply (bool_decide_unpack _). vm_compute. exact I.
    + apply list_elem_of_further, list_elem_of_here.
  - reflexivity.
  - vm_compute. reflexivity.
  - vm_compute. reflexivity.
  - lia.
  - reflexivity.
  - intros d _. apply fixedOffset_midnights. unfold tzaBrasilia, Js.msPerDay. lia.
  - intros d _. apply fixedOffset_midnights. unfold tzaBrasilia, Js.msPerDay. lia.
  - apply (bool_decide_unpack _). vm_compute. exact I.
  - vm_compute. lia.
  - exists out, p'. split; [exact Hout|]. split; [exact Hsel|]. split.
    + assert (E : Js.toISODate (19782 * Js.msPerDay) = "2024-02-29")
        by (vm_compute; reflexivity).
      rewrite <- E. apply Hin. lia.
    + rewrite Hother; [reflexivity|].
      intros day Hday E.
      assert (Hd : Js.dayOfDate (Js.toISODate (day * Js.msPerDay)) = Some day).
      { apply (dayOfDate_toISODate "2024-02-28" "2024-03-02" 19781 19784);
          [vm_compute; reflexivity..|lia]. }
      rewrite <- E in Hd.
      assert (E' : Js.dayOfDate "2024-03-04" = Some 19786) by (vm_compute; reflexivity).
      rewrite E' in Hd. injection Hd as Hd. lia.
Defined.

End BulkExtrasExamples.

(** * Further properties of the form of one day *)

Section DailyForms.
Import App BrokerDashboard.

Local Abbreviation typed key inputs :=
  (snd <$> last (filter (λ input : Field * option Z, input.1 = key) inputs)).

(** The form after a series of inputs: each field holds what was typed in
    it last, and its flag tells whether that was negative. *)
Lemma dailyFormAfter_field form inputs key :
  dailyData (dailyFormAfter form inputs) key
  = match typed key inputs with
    | Some (Some n) => Z.max 0 n
    | Some None => 0
    | None => dailyData form key
    end
  ∧ errors (dailyFormAfter form inputs) key
    = match typed key inputs with
      | Some (Some n) => Some (n <? 0)
      | Some None => Some false
      | None => errors form key
      end
  ∧ selectedDate (dailyFormAfter form inputs) = selectedDate form.
Proof.
  unfold dailyFormAfter.
  induction inputs as [|[field value] inputs IH] using rev_ind; [done|].
  rewrite foldl_app, filter_app. cbn [foldl fst snd handleNumberChange dailyData errors selectedDate].
  destruct IH as (IH1 & IH2 & IH3). split; [|split; [|done]].
  - case_bool_decide as Hk.
    + subst field. rewrite filter_cons_True, filter_nil by done.
      rewrite last_snoc. simpl. by destruct value.
    + rewrite filter_cons_False, filter_nil, app_nil_r by (simpl; congruence). done.
  - case_bool_decide as Hk.
    + subst field. rewrite filter_cons_True, filter_nil by done.
      rewrite last_snoc. simpl. by destruct value.
    + rewrite filter_cons_False, filter_nil, app_nil_r by (simpl; congruence). done.
Qed.

Lemma getField_entryWithDate form key :
  getField key (entryWithDate form) = Some (dailyData form key).
Proof. by destruct key. Qed.

Lemma dailyData_formForDate p d key :
  dailyData (formForDate p d) key = orZero (entryOf d (dailyEntries p) ≫= getField key).
Proof.
  unfold formForDate, entryOf. simpl. by destruct (find _ _).
Qed.

End DailyForms.

Section Editing.
Import App BrokerDashboard.

Lemma sort_insert_fmap {A} (cmp : A → A → Z) (g : A → A) x l :
  (∀ a b, cmp (g a) (g b) = cmp a b) →
  Js.sort_insert cmp (g x) (g <$> l) = g <$> Js.sort_insert cmp x l.
Proof.
  intros Hg. induction l as [|y l IH]; simpl; [done|].
  rewrite Hg. destruct (cmp x y <=? 0); simpl; [done|]. f_equal. exact IH.
Qed.

Lemma Array_sort_fmap {A} (cmp : A → A → Z) (g : A → A) l :
  (∀ a b, cmp (g a) (g b) = cmp a b) →
  Js.Array_sort cmp (g <$> l) = g <$> Js.Array_sort cmp l.
Proof.
  intros Hg. unfold Js.Array_sort. induction l as [|x l IH]; [done|].
  cbn [fmap list_fmap foldr]. change (list_fmap A A g l) with (g <$> l).
  rewrite IH. by apply sort_insert_fmap.
Qed.

Local Abbreviation replaced e :=
  (λ x : DailyEntry, if String.eqb (date x) (date e) then e else x).

Lemma insert_as_map (l : list DailyEntry) i old e :
  distinctDates l → l !! i = Some old → date old = date e →
  <[i := e]> l = replaced e <$> l.
Proof.
  unfold distinctDates. revert i. induction l as [|x l IH]; intros i; [done|].
  simpl. rewrite NoDup_cons. intros [Hnotin Hnd] Hi Hd.
  destruct i as [|i]; simpl in *.
  - injection Hi as ->. rewrite Hd, String.eqb_refl. f_equal.
    clear IH Hnd. induction l as [|y l IH]; [done|]. simpl.
    destruct (String.eqb_spec (date y) (date e)) as [E|_].
    + exfalso. apply Hnotin. simpl. rewrite Hd, <- E. apply list_elem_of_here.
    + f_equal. apply IH. intros Hin. apply Hnotin. by apply list_elem_of_further.
  - destruct (String.eqb_spec (date x) (date e)) as [E|_].
    + exfalso. apply Hnotin. rewrite E, <- Hd.
      apply list_elem_of_In, in_map, list_elem_of_In. by eapply list_elem_of_lookup_2.
    + f_equal. by eapply IH.
Qed.

Lemma saveEntryIn_as_map b e old :
  distinctDates (dailyEntries b) → old ∈ dailyEntries b → date old = date e →
  dailyEntries (saveEntryIn b e) = replaced e <$> dailyEntries b.
Proof.
  intros Hnd [i Hi]%list_elem_of_lookup_1 Hd.
  rewrite (saveEntryIn_replace b e i old) by done. by eapply insert_as_map.
Qed.

Local Abbreviation shifted day delta :=
  (λ row : string * Z * Z,
     (row.1.1,
      if day <? dayNumber row.1.1 then row.1.2 + delta else row.1.2,
      if dayNumber row.1.1 <? day then row.2 else row.2 + delta)).

Lemma balances_later b e delta l :
  Forall (λ x, dayNumber (date e) < dayNumber (date x)) l →
  balances (mapWithBalance (b + delta) (replaced e <$> l))
  = shifted (dayNumber (date e)) delta <$> balances (mapWithBalance b l).
Proof.
  intros Hl. revert b. induction Hl as [|x l Hx Hl IH]; intros b; [done|].
  cbn [fmap list_fmap].
  destruct (String.eqb_spec (date x) (date e)) as [E|_]; [rewrite E in Hx; lia|].
  unfold balances in *. cbn [mapWithBalance fmap list_fmap entry startOfDayBalance endOfDayBalance fst snd].
  rewrite (proj2 (Z.ltb_lt _ _) Hx).
  rewrite (proj2 (Z.ltb_ge _ _)) by lia.
  f_equal; [f_equal; lia|].
  replace (b + delta + newLeads x + orZero (repiqueLeads x) - discardedLeads x - signedLeads x)
    with (b + newLeads x + orZero (repiqueLeads x) - discardedLeads x - signedLeads x + delta)
    by lia.
  apply IH.
Qed.

Lemma balances_edit b e old l :
  StronglySorted (λ x y, dayNumber (date x) < dayNumber (date y)) l →
  old ∈ l → date old = date e →
  balances (mapWithBalance b (replaced e <$> l))
  = shifted (dayNumber (date e)) (leadDelta e - leadDelta old)
      <$> balances (mapWithBalance b l).
Proof.
  intros Hs Hin Hd. revert b. induction Hs as [|x l Hs IH Hx]; intros b;
    [by apply elem_of_nil in Hin|].
  apply elem_of_cons in Hin as [<-|Hin].
  - cbn [fmap list_fmap]. rewrite Hd, String.eqb_refl.
    unfold balances. cbn [mapWithBalance fmap list_fmap entry startOfDayBalance endOfDayBalance fst snd].
    rewrite Hd, Z.ltb_irrefl. f_equal; [f_equal; unfold leadDelta; lia|].
    pose proof (balances_later
                  (b + newLeads old + orZero (repiqueLeads old) - discardedLeads old
                   - signedLeads old) e (leadDelta e - leadDelta old) l) as Hl.
    unfold balances in Hl. rewrite <- Hl.
    + do 2 f_equal. unfold leadDelta. lia.
    + rewrite <- Hd. exact Hx.
  - rewrite Forall_forall in Hx. specialize (Hx old Hin). rewrite Hd in Hx.
    cbn [fmap list_fmap].
    destruct (String.eqb_spec (date x) (date e)) as [E|_]; [rewrite E in Hx; lia|].
    unfold balances in *. cbn [mapWithBalance fmap list_fmap entry startOfDayBalance endOfDayBalance fst snd].
    rewrite (proj2 (Z.ltb_lt _ _) Hx).
    rewrite (proj2 (Z.ltb_ge _ _)) by lia.
    f_equal. by apply IH.
Qed.

Lemma balances_rev l : balances (rev l) = rev (balances l).
Proof.
  unfold balances. induction l as [|x l IH]; [done|]. simpl.
  by rewrite fmap_app, IH.
Qed.

Lemma fmap_rev {A B} (f : A → B) l : f <$> rev l = rev (f <$> l).
Proof. induction l as [|x l IH]; [done|]. simpl. by rewrite fmap_app, IH. Qed.

(** The projection after an entry was written over the one of its date. *)
Lemma projection_after_edit p e old :
  wellFormedEntries (dailyEntries p) → distinctDates (dailyEntries p) →
  old ∈ dailyEntries p → date old = date e →
  balances (entriesWithCalculatedBalances (saveEntryIn p e))
  = shifted (dayNumber (date e)) (leadDelta e - leadDelta old)
      <$> balances (entriesWithCalculatedBalances p).
Proof.
  intros Hwf Hnd Hin Hd. unfold entriesWithCalculatedBalances.
  rewrite (saveEntryIn_as_map p e old) by done.
  change (initialLeads (saveEntryIn p e)) with (initialLeads p).
  rewrite Array_sort_fmap.
  - rewrite !balances_rev, fmap_rev. f_equal.
    apply balances_edit; [by apply chronological_strict| |done].
    by rewrite Array_sort_Permutation.
  - intros a b. unfold byDate.
    by destruct (String.eqb_spec (date a) (date e)) as [->|_],
                (String.eqb_spec (date b) (date e)) as [->|_].
Qed.

End Editing.

Section FormExtras.
Import App BrokerDashboard.

(** Property X16.  Take the form of one day as it is loaded for a date, after
    any series of inputs.  When the number typed last in some field is
    negative, [handleSubmit] saves nothing and asks to correct the fields.
    Otherwise it saves an entry of the selected date in which every counter
    is the number typed last in its field, 0 when the field was emptied
    last, and for a field that was not touched the counter of the entry the
    profile has for that date (0 when there is none). *)
Theorem daily_form_saves_what_was_typed_last
    (p : BrokerProfile) (d : string) (inputs : list (Field * option Z)) :
  let form := dailyFormAfter (formForDate p d) inputs in
  let typed key := snd <$> last (filter (λ input : Field * option Z, input.1 = key) inputs) in
  ((∃ key n, typed key = Some (Some n) ∧ n < 0) → handleSubmit form = inl AlertFixErrors)
  ∧ ((∀ key n, typed key = Some (Some n) → 0 <= n) →
     ∃ e, handleSubmit form = inr e ∧ date e = d
          ∧ ∀ key, getField key e
                   = Some (match typed key with
                           | Some (Some n) => n
                           | Some None => 0
                           | None => orZero (entryOf d (dailyEntries p) ≫= getField key)
                           end)).
Proof.
  intros form typed. subst form. unfold handleSubmit. split.
  - intros (key & n & Hkey & Hn).
    assert (someError (errors (dailyFormAfter (formForDate p d) inputs)) = true) as ->; [|done].
    apply not_false_iff_true. rewrite someError_false. intros Hall. apply (Hall key).
    destruct (dailyFormAfter_field (formForDate p d) inputs key) as (_ & -> & _).
    fold (typed key). rewrite Hkey. by rewrite (proj2 (Z.ltb_lt _ _) Hn).
  - intros Hall.
    assert (someError (errors (dailyFormAfter (formForDate p d) inputs)) = false) as ->.
    { apply someError_false. intros key.
      destruct (dailyFormAfter_field (formForDate p d) inputs key) as (_ & -> & _).
      fold (typed key). specialize (Hall key).
      destruct (typed key) as [[n|]|]; [|done..].
      specialize (Hall n eq_refl). by rewrite (proj2 (Z.ltb_ge _ _) Hall). }
    eexists. split; [reflexivity|].
    destruct (dailyFormAfter_field (formForDate p d) inputs NewLeads) as (_ & _ & Hdate).
    split; [exact Hdate|]. intros key. rewrite getField_entryWithDate.
    destruct (dailyFormAfter_field (formForDate p d) inputs key) as (-> & _ & _).
    fold (typed key). specialize (Hall key).
    destruct (typed key) as [[n|]|]; [|done|].
    + specialize (Hall n eq_refl). f_equal. lia.
    + by rewrite dailyData_formForDate.
Qed.

(** A negative number corrected, an emptied field and an untouched field. *)
Lemma daily_form_saves_what_was_typed_last_sample :
  ∃ e, handleSubmit (dailyFormAfter (formForDate sampleProfile "2024-03-01")
                       [(NewLeads, Some (-3)); (NewLeads, Some 4); (SignedLeads, None)])
       = inr e
       ∧ getField NewLeads e = Some 4
       ∧ getField SignedLeads e = Some 0
       ∧ getField DiscardedLeads e = Some 2.
Proof.
  destruct (proj2 (daily_form_saves_what_was_typed_last sampleProfile "2024-03-01"
                     [(NewLeads, Some (-3)); (NewLeads, Some 4); (SignedLeads, None)]))
    as (e & He & _ & Hkeys).
  - intros key n H. destruct key; vm_compute in H; try discriminate H.
    injection H as <-. lia.
  - exists e. split; [exact He|].
    rewrite (Hkeys NewLeads), (Hkeys SignedLeads), (Hkeys DiscardedLeads).
    repeat split; vm_compute; reflexivity.
Defined.

(** Property X17.  When no entry of the profile has a negative counter, no
    entry that [handleSubmit] saves from the form of one day has one,
    whatever was typed in the form. *)
Theorem daily_form_never_saves_a_negative_counter
    (p : BrokerProfile) (d : string) (inputs : list (Field * option Z)) (e : DailyEntry) :
  Forall nonNegativeEntry (dailyEntries p) →
  handleSubmit (dailyFormAfter (formForDate p d) inputs) = inr e →
  nonNegativeEntry e.
Proof.
  intros Hp. unfold handleSubmit. destruct (someError _); [done|]. intros [= <-] key.
  rewrite getField_entryWithDate. simpl.
  destruct (dailyFormAfter_field (formForDate p d) inputs key) as (-> & _ & _).
  destruct (snd <$> _) as [[n|]|]; [lia|done|].
  rewrite dailyData_formForDate. unfold entryOf.
  destruct (find _ _) as [old|] eqn:E; [|done]. simpl.
  apply find_some in E as [Hin%list_elem_of_In _].
  rewrite Forall_forall in Hp. apply (Hp old Hin key).
Qed.

(** The entry submitted after two inputs. *)
Lemma daily_form_never_saves_a_negative_counter_sample :
  nonNegativeEntry
    (entryWithDate (dailyFormAfter (formForDate sampleProfile "2024-03-01")
                      [(NewLeads, Some 4); (SignedLeads, None)])).
Proof.
  apply (daily_form_never_saves_a_negative_counter sampleProfile "2024-03-01"
           [(NewLeads, Some 4); (SignedLeads, None)]).
  - repeat (apply List.Forall_cons; [intros key; destruct key; simpl; lia|]).
    apply List.Forall_nil.
  - reflexivity.
Defined.

(** Property X18.  For a profile with well-formed, pairwise distinct dates,
    saving an entry over the entry of the same date changes the projection
    as follows, where the change is the difference of what the two entries
    add to the balance: the rows keep their dates and their order; the rows
    of earlier days keep their balances; the row of the edited day keeps its
    start-of-day balance; its end-of-day balance and both balances of every
    later day move by the change. *)
Theorem editing_a_day_shifts_the_later_balances (p : BrokerProfile) (e old : DailyEntry) :
  wellFormedEntries (dailyEntries p) → distinctDates (dailyEntries p) →
  old ∈ dailyEntries p → date e = date old →
  let delta := leadDelta e - leadDelta old in
  balances (entriesWithCalculatedBalances (saveEntryIn p e))
  = (λ row : string * Z * Z,
       (row.1.1,
        if dayNumber (date e) <? dayNumber row.1.1 then row.1.2 + delta else row.1.2,
        if dayNumber row.1.1 <? dayNumber (date e) then row.2 else row.2 + delta))
      <$> balances (entriesWithCalculatedBalances p).
Proof.
  intros Hwf Hnd Hin Hd delta. by apply projection_after_edit.
Qed.

(** Ten more new leads on the first day of the sample profile. *)
Lemma editing_a_day_shifts_the_later_balances_sample :
  balances (entriesWithCalculatedBalances
              (App.saveEntryIn sampleProfile (entryOn "2024-03-01" 20 2 None 1)))
  = [("2024-03-02", 117, 123); ("2024-03-01", 100, 117)].
Proof.
  pose proof (editing_a_day_shifts_the_later_balances sampleProfile
                (entryOn "2024-03-01" 20 2 None 1) (entryOn "2024-03-01" 10 2 None 1)
                ltac:(repeat constructor; by eexists)
                ltac:(apply (bool_decide_unpack _); vm_compute; exact I)
                ltac:(apply list_elem_of_further, list_elem_of_here)
                eq_refl) as H.
  cbv zeta in H. rewrite H. vm_compute. reflexivity.
Defined.

(** Property X19.  Opening a stored day in the form and submitting it as it
    was loaded is accepted and saves an entry of the same date whose every
    counter equals the stored one (an absent counter read as 0); no balance
    of the projection changes. *)
Theorem resaving_a_stored_day_changes_no_balance (p : BrokerProfile) (old : DailyEntry) :
  wellFormedEntries (dailyEntries p) → distinctDates (dailyEntries p) →
  old ∈ dailyEntries p →
  ∃ e, handleSubmit (formForDate p (date old)) = inr e
       ∧ date e = date old
       ∧ (∀ key, orZero (getField key e) = orZero (getField key old))
       ∧ balances (entriesWithCalculatedBalances (saveEntryIn p e))
         = balances (entriesWithCalculatedBalances p).
Proof.
  intros Hwf Hnd Hin. eexists. split; [reflexivity|]. split; [done|].
  assert (Hkeys : ∀ key, orZero (getField key (entryWithDate (formForDate p (date old))))
                         = orZero (getField key old)).
  { intros key. rewrite getField_entryWithDate, dailyData_formForDate.
    unfold entryOf. rewrite (find_existing _ _ Hnd Hin). simpl.
    by destruct (getField key old). }
  split; [exact Hkeys|].
  rewrite (projection_after_edit p _ old) by done.
  assert (leadDelta (entryWithDate (formForDate p (date old))) - leadDelta old = 0) as ->.
  { pose proof (Hkeys NewLeads). pose proof (Hkeys RepiqueLeads).
    pose proof (Hkeys DiscardedLeads). pose proof (Hkeys SignedLeads).
    unfold leadDelta. simpl in *. lia. }
  rewrite <- (list_fmap_id (balances (entriesWithCalculatedBalances p))) at 2.
  apply list_fmap_ext. intros i [[dt s] en] _. simpl.
  rewrite !Z.add_0_r. by repeat case_match.
Qed.

(** The first day of the sample profile saved again. *)
Lemma resaving_a_stored_day_changes_no_balance_sample :
  ∃ e, handleSubmit (formForDate sampleProfile "2024-03-01") = inr e
       ∧ balances (entriesWithCalculatedBalances (App.saveEntryIn sampleProfile e))
         = balances (entriesWithCalculatedBalances sampleProfile).
Proof.
  destruct (resaving_a_stored_day_changes_no_balance sampleProfile
              (entryOn "2024-03-01" 10 2 None 1)
              ltac:(repeat constructor; by eexists)
              ltac:(apply (bool_decide_unpack _); vm_compute; exact I)
              ltac:(apply list_elem_of_further, list_elem_of_here))
    as (e & He & _ & _ & Hb).
  exists e. split; [exact He|exact Hb].
Defined.

End FormExtras.

(** * Further properties of the saved store and of the import *)

Section SavedStore.
Import Json App BrokerManagement.

Lemma wellShaped_isArray data : wellShaped data → Array_isArray data = true.
Proof. by intros (items & -> & _). Qed.

Lemma getInitialBrokers_isArray JSON_parse savedBrokers :
  Array_isArray (getInitialBrokers JSON_parse savedBrokers) = true.
Proof.
  unfold getInitialBrokers. destruct savedBrokers as [text|]; [|done].
  destruct (String.eqb text ""); [done|].
  destruct (JSON_parse text) as [parsedBrokers|]; [|done].
  by destruct (Array_isArray parsedBrokers) eqn:E.
Qed.

Lemma handleFileChange_cases brokers parsed confirmed :
  handleFileChange brokers parsed confirmed = (brokers, [AlertImportFailed])
  ∨ handleFileChange brokers parsed confirmed = (brokers, [])
  ∨ ∃ data, parsed = Some data ∧ wellShaped data
            ∧ handleFileChange brokers parsed confirmed = (data, [AlertRestoreSuccess]).
Proof.
  unfold handleFileChange. destruct parsed as [data|]; [|by left].
  destruct (isValid data) as [[|]|] eqn:E; [|by left..].
  destruct confirmed; [|by right; left].
  right; right. exists data. apply isValid_wellShaped in E.
  split; [done|]. split; [done|].
  unfold handleRestoreBrokers. by rewrite wellShaped_isArray.
Qed.

End SavedStore.

Section SavedStoreExtras.
Import Json App BrokerManagement.

(** Property X20.  The store read by [getInitialBrokers] is an array whatever
    the browser's storage holds, and it is still one after any series of
    imports through [handleFileChange]; when it starts as an array of
    elements with a string [brokerName], a numeric [initialLeads] and an
    array [dailyEntries], it keeps that shape after every import. *)
Theorem store_is_always_an_array
    (JSON_parse : string → option JsValue) (savedBrokers : option string)
    (imports : list (option JsValue * bool)) :
  let import brokers (file : option JsValue * bool) :=
    fst (handleFileChange brokers file.1 file.2) in
  Array_isArray (foldl import (getInitialBrokers JSON_parse savedBrokers) imports) = true
  ∧ (wellShaped (getInitialBrokers JSON_parse savedBrokers) →
     wellShaped (foldl import (getInitialBrokers JSON_parse savedBrokers) imports)).
Proof.
  intros import.
  pose proof (getInitialBrokers_isArray JSON_parse savedBrokers) as Hstart.
  revert Hstart. generalize (getInitialBrokers JSON_parse savedBrokers) as brokers.
  induction imports as [|[parsed confirmed] imports IH]; intros brokers Hstart; [done|].
  cbn [foldl]. unfold import at 2 4. cbn [fst snd].
  destruct (handleFileChange_cases brokers parsed confirmed)
    as [->|[->|(data & _ & Hdata & ->)]]; cbn [fst].
  - by apply IH.
  - by apply IH.
  - destruct (IH data (wellShaped_isArray _ Hdata)) as [H1 H2]. split; [done|].
    intros _. by apply H2.
Qed.

(** A saved backup survives a malformed import and an unreadable file. *)
Lemma store_is_always_an_array_sample :
  wellShaped
    (foldl (λ brokers (file : option JsValue * bool),
              fst (handleFileChange brokers file.1 file.2))
           (getInitialBrokers (λ _, Some sampleBackup) (Some "saved"))
           [(Some malformedBackup, true); (None, true)]).
Proof.
  apply (proj2 (store_is_always_an_array (λ _, Some sampleBackup) (Some "saved")
                  [(Some malformedBackup, true); (None, true)])).
  eexists. split; [reflexivity|]. repeat constructor. by eexists _, _, _, _.
Defined.

(** Property X21.  [handleFileChange] never shows the corrupt-backup message of
    [handleRestoreBrokers]: the document it passes on has passed its own
    validation.  Whenever it changes the store, the user has confirmed, the
    new store is the parsed document, and the success message is the only
    one shown. *)
Theorem import_never_reports_a_corrupt_backup
    (brokers : JsValue) (parsed : option JsValue) (confirmed : bool) :
  (AlertRestoreCorrupt ∉ snd (handleFileChange brokers parsed confirmed))
  ∧ (fst (handleFileChange brokers parsed confirmed) ≠ brokers →
     snd (handleFileChange brokers parsed confirmed) = [AlertRestoreSuccess]
     ∧ confirmed = true
     ∧ parsed = Some (fst (handleFileChange brokers parsed confirmed))).
Proof.
  destruct (handleFileChange_cases brokers parsed confirmed)
    as [E|[E|(data & Hp & Hdata & E)]]; rewrite E; cbn [fst snd].
  - split; [|done]. by intros [=]%list_elem_of_singleton.
  - split; [|done]. by intros ?%elem_of_nil.
  - split; [by intros [=]%list_elem_of_singleton|]. intros _. split; [done|]. split; [|done].
    destruct confirmed; [done|]. exfalso. subst parsed. unfold handleFileChange in E.
    destruct (isValid data) as [[|]|]; discriminate E.
Qed.

(** A backup imported into an empty store. *)
Lemma import_never_reports_a_corrupt_backup_sample :
  snd (handleFileChange (JsArray []) (Some sampleBackup) true) = [AlertRestoreSuccess].
Proof.
  apply (proj2 (import_never_reports_a_corrupt_backup
                  (JsArray []) (Some sampleBackup) true)).
  simpl. discriminate.
Defined.

End SavedStoreExtras.

(** * Further properties of the comparison table *)

Section ComparisonFacts.
Import BrokerManagement.
Context {ops : RateOps}.

(** The comparator orders the rows by an integer column, its values negated
    when the direction is descending. *)
Lemma compareRows_key (sortConfig : SortConfig) (k : ComparisonData ops → Z) :
  integerColumn (key sortConfig) = Some k →
  ∀ a b : ComparisonData ops, True → True →
  compareRows sortConfig a b <= 0
  ↔ (if direction sortConfig is ascending then k a else - k a)
    <= (if direction sortConfig is ascending then k b else - k b).
Proof.
  unfold compareRows, columnLess, integerColumn.
  destruct (key sortConfig); intros [= <-] a b _ _;
    destruct (direction sortConfig);
    repeat (case_match; try lia).
Qed.

End ComparisonFacts.

Section ComparisonExtras.
Import BrokerManagement.

(** Property X22.  For the columns of received leads and of sales, the
    comparison table has one row per broker of the store (brokers without
    sales included), sorted by the column in the direction of [sortConfig],
    rows of equal value in the order of the store; the received leads of a
    row count the new and the repique leads of all the broker's entries and
    its sales count the signed leads.  This holds whatever floating-point
    arithmetic computes the conversion rates. *)
Theorem comparison_table_sorts_every_broker
    (ops : RateOps) (brokers : list BrokerProfile) (sortConfig : SortConfig)
    (k : ComparisonData ops → Z) :
  integerColumn (key sortConfig) = Some k →
  let rows := comparisonData ops brokers sortConfig in
  rows ≡ₚ comparisonRow ops <$> brokers
  ∧ StronglySorted (λ a b, if direction sortConfig is ascending
                           then k a <= k b else k b <= k a) rows
  ∧ (∀ v, filter (λ r, k r = v) rows = filter (λ r, k r = v) (comparisonRow ops <$> brokers))
  ∧ (∀ b, totalNewLeads (comparisonRow ops b)
          = foldr (λ e s, newLeads e + orZero (repiqueLeads e) + s) 0 (dailyEntries b)
          ∧ rowTotalSales (comparisonRow ops b) = sumSigned b).
Proof.
  intros Hk rows. subst rows. unfold comparisonData.
  assert (Hrows :
    let rows := Js.Array_sort (compareRows sortConfig) (comparisonRow ops <$> brokers) in
    rows ≡ₚ comparisonRow ops <$> brokers
    ∧ StronglySorted (λ a b, if direction sortConfig is ascending
                             then k a <= k b else k b <= k a) rows
    ∧ (∀ v, filter (λ r, k r = v) rows
            = filter (λ r, k r = v) (comparisonRow ops <$> brokers))).
  { cbv zeta. split; [apply Array_sort_Permutation|]. split.
    - eapply StronglySorted_weaken;
        [|apply (Array_sort_sorted _ _ _ (compareRows_key sortConfig k Hk));
          by apply Forall_forall].
      intros a b. simpl. destruct (direction sortConfig); lia.
    - intros v.
      pose proof (Array_sort_stable _ _ _ (compareRows_key sortConfig k Hk)
                    (if direction sortConfig is ascending then v else - v)
                    (comparisonRow ops <$> brokers)) as Hst.
      etrans; [|etrans; [apply Hst; by apply Forall_forall|]];
        apply list_filter_iff; intros r; destruct (direction sortConfig); lia. }
  split; [|split; [|split]].
  - case_bool_decide as Hb; [by subst brokers|]. apply Hrows.
  - case_bool_decide as Hb; [constructor|]. apply Hrows.
  - intros v. case_bool_decide as Hb; [by subst brokers|]. apply Hrows.
  - intros b. unfold comparisonRow, sumSigned. simpl. split.
    + rewrite !foldl_add. induction (dailyEntries b) as [|e l IH]; simpl; [done|]. lia.
    + rewrite foldl_add. lia.
Qed.

(** The initial table of the four sample brokers: sales in descending order. *)
Lemma comparison_table_sorts_every_broker_sample :
  StronglySorted (λ a b, rowTotalSales b <= rowTotalSales a)
                 (comparisonData fractionRates sampleBrokers initialSortConfig)
  ∧ rowBrokerName <$> comparisonData fractionRates sampleBrokers initialSortConfig
    = ["Bia"; "Caio"; "Davi"; "Ana"].
Proof.
  split; [|vm_compute; reflexivity].
  exact (proj1 (proj2 (comparison_table_sorts_every_broker fractionRates sampleBrokers
                         initialSortConfig rowTotalSales eq_refl))).
Defined.

(** Property X23.  [requestSort] makes the requested column the sort key; a
    column that was not the sort key is sorted ascending first; requesting
    the same column again flips the direction each time, so that three
    requests of a column leave the same configuration as one. *)
Theorem repeated_sort_requests_alternate (sortConfig : SortConfig) (column : Column) :
  key (requestSort sortConfig column) = column
  ∧ (key sortConfig ≠ column → direction (requestSort sortConfig column) = ascending)
  ∧ direction (requestSort (requestSort sortConfig column) column)
    ≠ direction (requestSort sortConfig column)
  ∧ requestSort (requestSort (requestSort sortConfig column) column) column
    = requestSort sortConfig column.
Proof.
  unfold requestSort. simpl. split; [done|]. split.
  - intros Hne. by rewrite bool_decide_eq_false_2.
  - rewrite (bool_decide_eq_true_2 (column = column)) by done. simpl.
    destruct (bool_decide (key sortConfig = column) && _); simpl; done.
Qed.

(** The first click on the column of received leads. *)
Lemma repeated_sort_requests_alternate_sample :
  direction (requestSort initialSortConfig TotalNewLeadsColumn) = ascending.
Proof.
  apply (proj1 (proj2 (repeated_sort_requests_alternate initialSortConfig
                         TotalNewLeadsColumn))).
  discriminate.
Defined.

End ComparisonExtras.
